(** * Flash-sale reservation frontend: a shallow embedding

    The development follows the TypeScript sources of the frontend:

    - [hooks/useReservationTimer.ts]  the countdown hook,
    - [components/ProductsPage.tsx]   the page component (both revisions),
    - [lib/user.ts] and the multi-store revision of [getOrCreateUserId],
    - [lib/api.ts] ([fetchJSON]).

    JavaScript numbers are embedded with their special values ([NaN] and the
    two infinities); millisecond time stamps are integers, so their finite
    part is [Z]; the quantity typed into the form may be fractional, so its
    finite part is [Q].  React state is passed explicitly. *)

From Stdlib Require Import ZArith QArith Lia List Sorted Ascii String.
From stdpp Require Import gmap strings list pretty.

Local Open Scope Z_scope.

(** ** JavaScript numbers *)

Module Js.

(** The finite carrier with the comparisons JavaScript applies to it. *)
Class JsOrd (F : Type) := {
  f_ltb : F -> F -> bool;
  f_leb : F -> F -> bool;
  f_eqb : F -> F -> bool
}.

#[export] Instance Z_JsOrd : JsOrd Z :=
  {| f_ltb := Z.ltb; f_leb := Z.leb; f_eqb := Z.eqb |}.

#[export] Instance Q_JsOrd : JsOrd Q :=
  {| f_ltb := fun a b => negb (Qle_bool b a);
     f_leb := Qle_bool;
     f_eqb := Qeq_bool |}.

Inductive jsnum (F : Type) : Type :=
| NaN
| NegInf
| Fin (x : F)
| PosInf.
Arguments NaN {F}.
Arguments NegInf {F}.
Arguments Fin {F} x.
Arguments PosInf {F}.

Section Compare.
Context {F : Type} `{JsOrd F}.

(** [a < b]: false as soon as one side is [NaN]. *)
Definition js_lt (a b : jsnum F) : bool :=
  match a, b with
  | NaN, _ | _, NaN => false
  | NegInf, NegInf => false
  | NegInf, _ => true
  | _, NegInf => false
  | PosInf, _ => false
  | Fin _, PosInf => true
  | Fin x, Fin y => f_ltb x y
  end.

(** [a <= b]. *)
Definition js_le (a b : jsnum F) : bool :=
  match a, b with
  | NaN, _ | _, NaN => false
  | NegInf, _ => true
  | _, NegInf => false
  | _, PosInf => true
  | PosInf, _ => false
  | Fin x, Fin y => f_leb x y
  end.

Definition js_gt (a b : jsnum F) : bool := js_lt b a.
Definition js_ge (a b : jsnum F) : bool := js_le b a.

(** [a === b] on numbers: [NaN] is not equal to itself. *)
Definition js_strict_eq (a b : jsnum F) : bool :=
  match a, b with
  | NegInf, NegInf | PosInf, PosInf => true
  | Fin x, Fin y => f_eqb x y
  | _, _ => false
  end.

(** [Math.max(a, b)] and [Math.min(a, b)]: [NaN] is contagious. *)
Definition Math_max2 (a b : jsnum F) : jsnum F :=
  match a, b with
  | NaN, _ | _, NaN => NaN
  | _, _ => if js_lt a b then b else a
  end.

Definition Math_min2 (a b : jsnum F) : jsnum F :=
  match a, b with
  | NaN, _ | _, NaN => NaN
  | _, _ => if js_lt b a then b else a
  end.

(** [Math.max(...xs)] starts from [-Infinity], [Math.min(...xs)] from
    [+Infinity]. *)
Definition Math_max (xs : list (jsnum F)) : jsnum F :=
  fold_left Math_max2 xs NegInf.

Definition Math_min (xs : list (jsnum F)) : jsnum F :=
  fold_left Math_min2 xs PosInf.
End Compare.

(** Subtraction on integer-valued numbers. *)
Definition js_sub (a b : jsnum Z) : jsnum Z :=
  match a, b with
  | NaN, _ | _, NaN => NaN
  | Fin x, Fin y => Fin (x - y)
  | PosInf, PosInf | NegInf, NegInf => NaN
  | PosInf, _ | _, NegInf => PosInf
  | NegInf, _ | _, PosInf => NegInf
  end.

(** [Math.floor(a / d)] for a positive integer constant [d]. *)
Definition js_floor_div (a : jsnum Z) (d : Z) : jsnum Z :=
  match a with
  | Fin x => Fin (x / d)
  | other => other
  end.

(** [a % d] for a positive integer constant [d]: the sign follows the
    dividend, and an infinite dividend gives [NaN]. *)
Definition js_rem (a : jsnum Z) (d : Z) : jsnum Z :=
  match a with
  | Fin x => Fin (Z.rem x d)
  | _ => NaN
  end.

(** [String(a)] on integer-valued numbers. *)
Definition js_String (a : jsnum Z) : string :=
  match a with
  | NaN => "NaN"
  | NegInf => "-Infinity"
  | PosInf => "Infinity"
  | Fin x => pretty x
  end.

(** [s.padStart(2, "0")]. *)
Definition padStart2 (s : string) : string :=
  match String.length s with
  | O => "00"
  | S O => "0" +:+ s
  | _ => s
  end.

(** Truthiness of a string: every string but the empty one. *)
Definition truthy (s : string) : bool :=
  match s with
  | EmptyString => false
  | _ => true
  end.

End Js.

Import Js.

(** ** hooks/useReservationTimer.ts *)

Module Timer.

(** The two variables captured by one run of the effect. *)
Record Closure := { target : jsnum Z; last : jsnum Z }.

(** What one call of [tick] does: the value given to [setRemainingMs],
    whether [onElapsed] was called, and the updated closure. *)
Record TickResult := { next : jsnum Z; fired : bool; after : Closure }.

Section Hook.
(** [new Date(s).getTime()] is the library's date parser: an integer
    number of milliseconds, or [NaN] for a string that is no date. *)
Variable Date_parse : string -> option Z.

Definition Date_getTime (s : string) : jsnum Z :=
  match Date_parse s with
  | Some t => Fin t
  | None => NaN
  end.

(** Lines 14-20: with a falsy [expiresAt] the effect sets [null] and
    installs no interval; otherwise it captures [target] and [last].
    [now0] is the clock read on line 20. *)
Definition effect_start (expiresAt : option string) (now0 : Z)
  : option Closure :=
  match expiresAt with
  | None => None
  | Some s =>
      if truthy s then
        let tgt := Date_getTime s in
        Some {| target := tgt;
                last := Math_max2 (js_sub tgt (Fin now0)) (Fin 0) |}
      else None
  end.

(** Lines 22-35. [hasCallback] says whether [onElapsed] was supplied. *)
Definition tick (hasCallback : bool) (c : Closure) (now : Z) : TickResult :=
  let diff := js_sub (target c) (Fin now) in
  let nxt := if js_gt diff (Fin 0) then diff else Fin 0 in
  {| next := nxt;
     fired := js_gt (last c) (Fin 0) && js_strict_eq nxt (Fin 0)
              && hasCallback;
     after := {| target := target c; last := nxt |} |}.

(** The ticks of one effect lifetime, one per clock reading. *)
Fixpoint run_ticks (hasCallback : bool) (c : Closure) (clock : list Z)
  : list TickResult :=
  match clock with
  | [] => []
  | now :: rest =>
      let r := tick hasCallback c now in
      r :: run_ticks hasCallback (after r) rest
  end.

(** The [remainingMs] state once the effect has run: [null] when no
    interval was installed, else the value of the latest tick.  The
    effect itself calls [tick] once (line 37), so the readings are
    [now1 :: later]. *)
Definition remainingMs_after (expiresAt : option string)
    (hasCallback : bool) (now0 now1 : Z) (later : list Z)
  : option (jsnum Z) :=
  match effect_start expiresAt now0 with
  | None => None
  | Some c =>
      Some (next (List.last (run_ticks hasCallback c (now1 :: later))
                            (tick hasCallback c now1)))
  end.

(** One lifetime of the effect: the ticks between its start and its
    clean-up, none when no interval was installed. *)
Definition lifetime (expiresAt : option string) (hasCallback : bool)
    (now0 : Z) (clock : list Z) : list TickResult :=
  match effect_start expiresAt now0 with
  | None => []
  | Some c => run_ticks hasCallback c clock
  end.

(** How often [onElapsed] ran during the lifetime. *)
Definition elapsed_calls (rs : list TickResult) : nat :=
  length (filter (fun r => fired r = true) rs).

(** Lines 42-50: the rendered minutes and seconds. *)
Definition totalSeconds (remainingMs : option (jsnum Z))
  : option (jsnum Z) :=
  match remainingMs with
  | Some r => Some (js_floor_div r 1000)
  | None => None
  end.

Definition mm (remainingMs : option (jsnum Z)) : string :=
  match totalSeconds remainingMs with
  | Some ts => padStart2 (js_String (js_floor_div ts 60))
  | None => "--"
  end.

Definition ss (remainingMs : option (jsnum Z)) : string :=
  match totalSeconds remainingMs with
  | Some ts => padStart2 (js_String (js_rem ts 60))
  | None => "--"
  end.
End Hook.

End Timer.

(** The value that the sentence of the specification gives for a tick:
    [max(parse(expiresAt) - now, 0)], with the library's date parser and
    JavaScript's [Math.max].  It is compared below with what the hook
    computes. *)
Module TimerSpec.
Definition remainingMs_spec (Date_parse : string -> option Z)
    (expiresAt : string) (now : Z) : jsnum Z :=
  Math_max2 (js_sub (Timer.Date_getTime Date_parse expiresAt) (Fin now))
            (Fin 0).
End TimerSpec.

(** ** lib/api.ts *)

Module Api.

(** What a [catch] clause may receive: an [Error] object with its
    [message], or a value without a string [message]. *)
Inductive Thrown :=
| ErrorObject (message : string)
| OtherThrown.

(** A settled promise. *)
Inductive Settled (T : Type) :=
| Resolved (v : T)
| Rejected (e : Thrown).
Arguments Resolved {T} v.
Arguments Rejected {T} e.

(** The HTTP response as [fetchJSON] looks at it; [json] is what
    [res.json()] settles to. *)
Record Response (T : Type) := {
  ok : bool;
  text : string;
  statusText : string;
  json : Settled T
}.
Arguments ok {T} _.
Arguments text {T} _.
Arguments statusText {T} _.
Arguments json {T} _.

(** [fetch] either rejects (network failure, a [TypeError] with a
    message) or resolves to a response. *)
Inductive FetchResult (T : Type) :=
| NetworkFailure (message : string)
| Responded (r : Response T).
Arguments NetworkFailure {T} message.
Arguments Responded {T} r.

(** [body || res.statusText] *)
Definition or_else (a b : string) : string :=
  if truthy a then a else b.

Definition fetchJSON {T : Type} (fr : FetchResult T) : Settled T :=
  match fr with
  | NetworkFailure m => Rejected (ErrorObject m)
  | Responded r =>
      if negb (ok r) then
        Rejected (ErrorObject (or_else (text r) (statusText r)))
      else json r
  end.

(** [typeof e?.message === "string" ? e.message : fallback] *)
Definition message_or (e : Thrown) (fallback : string) : string :=
  match e with
  | ErrorObject m => m
  | OtherThrown => fallback
  end.

(** [hay.includes(needle)] *)
Fixpoint includes (needle hay : string) : bool :=
  String.prefix needle hay
  || match hay with
     | EmptyString => false
     | String _ hay' => includes needle hay'
     end.

End Api.

Import Api.

(** ** components/ProductsPage.tsx *)

Module ProductsPage.

(** [price] is a string or a number in the source; the page only shows
    it, so its text is what is kept. *)
Record Product := {
  p_id : string;
  p_name : string;
  p_price : string;
  p_availableStock : Z
}.

Inductive ReservationStatus := ACTIVE | COMPLETED | EXPIRED.

#[export] Instance ReservationStatus_eq_dec : EqDecision ReservationStatus.
Proof. solve_decision. Defined.

Record Reservation := {
  r_id : string;
  r_productId : string;
  r_quantity : Z;
  r_status : ReservationStatus;
  r_expiresAt : string;
  r_createdAt : string;
  r_product : option Product
}.

Inductive ToastType := success | error | info.

Record Toast := {
  t_id : Z;
  t_type : ToastType;
  t_message : string
}.

(** The React state of the page; [quantity] is whatever the form put
    there, a JavaScript number. *)
Record PageState := {
  userId : option string;
  products : list Product;
  loadingProducts : bool;
  reservations : list Reservation;
  loadingReservations : bool;
  selectedProductId : option string;
  quantity : jsnum Q;
  submitting : bool;
  paymentModalReservation : option Reservation;
  completing : bool;
  toasts : list Toast;
  toastCounter : Z
}.

Definition initial : PageState :=
  {| userId := None; products := []; loadingProducts := true;
     reservations := []; loadingReservations := true;
     selectedProductId := None; quantity := Fin 1%Q;
     submitting := false; paymentModalReservation := None;
     completing := false; toasts := []; toastCounter := 0 |}.

(** *** State setters *)

Definition setUserId (v : option string) (s : PageState) : PageState :=
  {| userId := v; products := products s;
     loadingProducts := loadingProducts s; reservations := reservations s;
     loadingReservations := loadingReservations s;
     selectedProductId := selectedProductId s; quantity := quantity s;
     submitting := submitting s;
     paymentModalReservation := paymentModalReservation s;
     completing := completing s; toasts := toasts s;
     toastCounter := toastCounter s |}.

Definition setProducts (f : list Product -> list Product) (s : PageState)
  : PageState :=
  {| userId := userId s; products := f (products s);
     loadingProducts := loadingProducts s; reservations := reservations s;
     loadingReservations := loadingReservations s;
     selectedProductId := selectedProductId s; quantity := quantity s;
     submitting := submitting s;
     paymentModalReservation := paymentModalReservation s;
     completing := completing s; toasts := toasts s;
     toastCounter := toastCounter s |}.

Definition setLoadingProducts (v : bool) (s : PageState) : PageState :=
  {| userId := userId s; products := products s;
     loadingProducts := v; reservations := reservations s;
     loadingReservations := loadingReservations s;
     selectedProductId := selectedProductId s; quantity := quantity s;
     submitting := submitting s;
     paymentModalReservation := paymentModalReservation s;
     completing := completing s; toasts := toasts s;
     toastCounter := toastCounter s |}.

Definition setReservations (v : list Reservation) (s : PageState)
  : PageState :=
  {| userId := userId s; products := products s;
     loadingProducts := loadingProducts s; reservations := v;
     loadingReservations := loadingReservations s;
     selectedProductId := selectedProductId s; quantity := quantity s;
     submitting := submitting s;
     paymentModalReservation := paymentModalReservation s;
     completing := completing s; toasts := toasts s;
     toastCounter := toastCounter s |}.

Definition setLoadingReservations (v : bool) (s : PageState) : PageState :=
  {| userId := userId s; products := products s;
     loadingProducts := loadingProducts s; reservations := reservations s;
     loadingReservations := v;
     selectedProductId := selectedProductId s; quantity := quantity s;
     submitting := submitting s;
     paymentModalReservation := paymentModalReservation s;
     completing := completing s; toasts := toasts s;
     toastCounter := toastCounter s |}.

Definition setSelectedProductId (v : option string) (s : PageState)
  : PageState :=
  {| userId := userId s; products := products s;
     loadingProducts := loadingProducts s; reservations := reservations s;
     loadingReservations := loadingReservations s;
     selectedProductId := v; quantity := quantity s;
     submitting := submitting s;
     paymentModalReservation := paymentModalReservation s;
     completing := completing s; toasts := toasts s;
     toastCounter := toastCounter s |}.

Definition setQuantity (v : jsnum Q) (s : PageState) : PageState :=
  {| userId := userId s; products := products s;
     loadingProducts := loadingProducts s; reservations := reservations s;
     loadingReservations := loadingReservations s;
     selectedProductId := selectedProductId s; quantity := v;
     submitting := submitting s;
     paymentModalReservation := paymentModalReservation s;
     completing := completing s; toasts := toasts s;
     toastCounter := toastCounter s |}.

Definition setSubmitting (v : bool) (s : PageState) : PageState :=
  {| userId := userId s; products := products s;
     loadingProducts := loadingProducts s; reservations := reservations s;
     loadingReservations := loadingReservations s;
     selectedProductId := selectedProductId s; quantity := quantity s;
     submitting := v;
     paymentModalReservation := paymentModalReservation s;
     completing := completing s; toasts := toasts s;
     toastCounter := toastCounter s |}.

Definition setPaymentModalReservation (v : option Reservation)
    (s : PageState) : PageState :=
  {| userId := userId s; products := products s;
     loadingProducts := loadingProducts s; reservations := reservations s;
     loadingReservations := loadingReservations s;
     selectedProductId := selectedProductId s; quantity := quantity s;
     submitting := submitting s;
     paymentModalReservation := v;
     completing := completing s; toasts := toasts s;
     toastCounter := toastCounter s |}.

Definition setCompleting (v : bool) (s : PageState) : PageState :=
  {| userId := userId s; products := products s;
     loadingProducts := loadingProducts s; reservations := reservations s;
     loadingReservations := loadingReservations s;
     selectedProductId := selectedProductId s; quantity := quantity s;
     submitting := submitting s;
     paymentModalReservation := paymentModalReservation s;
     completing := v; toasts := toasts s;
     toastCounter := toastCounter s |}.

Definition setToasts (f : list Toast -> list Toast) (s : PageState)
  : PageState :=
  {| userId := userId s; products := products s;
     loadingProducts := loadingProducts s; reservations := reservations s;
     loadingReservations := loadingReservations s;
     selectedProductId := selectedProductId s; quantity := quantity s;
     submitting := submitting s;
     paymentModalReservation := paymentModalReservation s;
     completing := completing s; toasts := f (toasts s);
     toastCounter := toastCounter s |}.

Definition setToastCounter (f : Z -> Z) (s : PageState) : PageState :=
  {| userId := userId s; products := products s;
     loadingProducts := loadingProducts s; reservations := reservations s;
     loadingReservations := loadingReservations s;
     selectedProductId := selectedProductId s; quantity := quantity s;
     submitting := submitting s;
     paymentModalReservation := paymentModalReservation s;
     completing := completing s; toasts := toasts s;
     toastCounter := f (toastCounter s) |}.

(** *** The toast list *)

(** [addToast]: the callback closes over the [toastCounter] of the render
    that created it ([captured]), so the new toast's id is
    [captured + 1]. *)
Definition addToast (captured : Z) (ty : ToastType) (msg : string)
    (s : PageState) : PageState :=
  let toast := {| t_id := captured + 1; t_type := ty; t_message := msg |} in
  setToasts (fun prev => prev ++ [toast])
            (setToastCounter (fun i => i + 1) s).

(** The [setTimeout] callback of [addToast], three seconds later. *)
Definition expireToast (newId : Z) (s : PageState) : PageState :=
  setToasts (filter (fun t => t_id t <> newId)) s.

(** *** The insertion-ordered [Map] used by [handleProductsUpdated] *)

Section JsMap.
Context {V : Type}.

(** [map.set(k, v)]: an existing key keeps its place, a new key goes
    last. *)
Fixpoint Map_set (k : string) (v : V) (m : list (string * V))
  : list (string * V) :=
  match m with
  | [] => [(k, v)]
  | (k', v') :: m' =>
      if decide (k = k') then (k, v) :: m'
      else (k', v') :: Map_set k v m'
  end.

Fixpoint Map_get (k : string) (m : list (string * V)) : option V :=
  match m with
  | [] => None
  | (k', v') :: m' => if decide (k = k') then Some v' else Map_get k m'
  end.

(** [new Map(entries)] *)
Definition Map_new (entries : list (string * V)) : list (string * V) :=
  fold_left (fun m e => Map_set (fst e) (snd e) m) entries [].

(** Rewriting the value stored under key [k], entry by entry. *)
Definition onKey (k : string) (f : V -> V) (kv : string * V)
  : string * V :=
  (fst kv, if decide (k = fst kv) then f (snd kv) else snd kv).

(** [Array.from(map.values())] *)
Definition Map_values (m : list (string * V)) : list V := map snd m.
End JsMap.

Record StockUpdate := { u_id : string; u_availableStock : Z }.

Definition withStock (p : Product) (stock : Z) : Product :=
  {| p_id := p_id p; p_name := p_name p; p_price := p_price p;
     p_availableStock := stock |}.

(** Lines 232-250, the function given to [setProducts]. *)
Definition handleProductsUpdated (updates : list StockUpdate)
    (prev : list Product) : list Product :=
  if (length prev =? 0)%nat then prev
  else
    let m0 := Map_new (map (fun p => (p_id p, p)) prev) in
    let m1 :=
      fold_left
        (fun m u =>
           match Map_get (u_id u) m with
           | Some existing =>
               Map_set (u_id u) (withStock existing (u_availableStock u)) m
           | None => m
           end)
        updates m0 in
    Map_values m1.

(** The net effect of an update list on the product stored under key
    [k]: every update for [k] overwrites the stock, the last one wins. *)
Definition patchAt (k : string) (updates : list StockUpdate) (p : Product)
  : Product :=
  fold_left
    (fun q u =>
       if decide (u_id u = k) then withStock q (u_availableStock u) else q)
    updates p.

(** *** Values derived during a render *)

Definition activeReservations (rs : list Reservation) : list Reservation :=
  filter (fun r => r_status r = ACTIVE) rs.

Definition findProduct (i : string) (ps : list Product) : option Product :=
  find (fun p => String.eqb (p_id p) i) ps.

Definition selectedProduct (s : PageState) : option Product :=
  match selectedProductId s with
  | Some i => findProduct i (products s)
  | None => None
  end.

(** What a [useMemo] callback produced: a value ([undefined] is [None]) or
    the [RangeError] of [toISOString] on an invalid date. *)
Inductive Memo :=
| Value (v : option string)
| Throws.

Section NextExpiration.
Variable Date_parse : string -> option Z.
(** The library's formatter of a valid time value. *)
Variable Date_toISOString : Z -> string.

(** [new Date(x)] keeps a finite [x] of magnitude at most 8.64e15. *)
Definition TimeClip (x : jsnum Z) : option Z :=
  match x with
  | Fin t => if Z.abs t <=? 8640000000000000 then Some t else None
  | _ => None
  end.

(** [new Date(x).toISOString()] *)
Definition toISOString (x : jsnum Z) : Memo :=
  match TimeClip x with
  | Some t => Value (Some (Date_toISOString t))
  | None => Throws
  end.

Definition expiryTimes (act : list Reservation) : list (jsnum Z) :=
  map (fun r => Timer.Date_getTime Date_parse (r_expiresAt r)) act.

(** Lines 268-274: the latest deadline. *)
Definition nextExpirationIso (rs : list Reservation) : Memo :=
  let act := activeReservations rs in
  if (length act =? 0)%nat then Value None
  else toISOString (Math_max (expiryTimes act)).

(** Lines 960-966, the other revision: the earliest deadline. *)
Definition nextExpirationIso_min (rs : list Reservation) : Memo :=
  let act := activeReservations rs in
  if (length act =? 0)%nat then Value None
  else toISOString (Math_min (expiryTimes act)).
End NextExpiration.

(** *** Requests sent to the engine *)

Record ReserveBody := {
  b_productId : string;
  b_quantity : jsnum Q;
  b_userId : string
}.

Inductive Request :=
| PostReservation (body : ReserveBody)
| PostComplete (reservationId : string)
| PostCancel (reservationId : string)
| PostReset.

(** *** Handlers

    An [async] handler is split where it awaits the engine: the part run
    by the click sees the state of that moment; the part run when the
    request settles updates whatever the state is by then, but still
    reads the values its closure captured ([cap]). *)

Definition truthyId (u : option string) : bool :=
  match u with
  | Some i => truthy i
  | None => false
  end.

Definition joinProduct (ps : list Product) (r : Reservation) : Reservation :=
  {| r_id := r_id r; r_productId := r_productId r;
     r_quantity := r_quantity r; r_status := r_status r;
     r_expiresAt := r_expiresAt r; r_createdAt := r_createdAt r;
     r_product := match r_product r with
                  | Some p => Some p
                  | None => findProduct (r_productId r) ps
                  end |}.

(** Lines 190-214; [o] is what [Promise.all] of the two fetches settled
    to. *)
Definition reloadAll (cap : PageState)
    (o : Settled (list Product * list Reservation)) (s : PageState)
  : PageState :=
  if negb (truthyId (userId cap)) then s
  else
    let s1 := setLoadingReservations true (setLoadingProducts true s) in
    let s2 :=
      match o with
      | Resolved (productsData, reservationsData) =>
          setReservations (map (joinProduct productsData) reservationsData)
            (setProducts (fun _ => productsData) s1)
      | Rejected _ =>
          addToast (toastCounter cap) error "Failed to load data." s1
      end in
    setLoadingReservations false (setLoadingProducts false s2).

(** Lines 276-282 *)
Definition handleTimerElapsed (cap : PageState)
    (o : Settled (list Product * list Reservation)) (s : PageState)
  : PageState :=
  addToast (toastCounter cap) info
    "Reservations synced – some may have expired and stock was released."
    (reloadAll cap o s).

(** Lines 291-314, up to the [await]. *)
Definition handleReserve_click (s : PageState) : PageState * list Request :=
  match userId s with
  | Some u =>
      if truthy u then
        match selectedProduct s with
        | Some p =>
            if js_le (quantity s) (Fin 0%Q) then
              (addToast (toastCounter s) error
                 "Quantity must be at least 1." s, [])
            else
              (setSubmitting true s,
               [PostReservation {| b_productId := p_id p;
                                   b_quantity := quantity s;
                                   b_userId := u |}])
        | None =>
            (addToast (toastCounter s) error
               "Please select a product first." s, [])
        end
      else
        (addToast (toastCounter s) error
           "User not initialized yet, please wait a moment." s, [])
  | None =>
      (addToast (toastCounter s) error
         "User not initialized yet, please wait a moment." s, [])
  end.

(** Lines 316-334, once the request has settled; [p] is the captured
    [selectedProduct]. *)
Definition handleReserve_settled (cap : PageState) (p : Product)
    (posted : Settled Reservation)
    (o : Settled (list Product * list Reservation)) (s : PageState)
  : PageState :=
  match posted with
  | Resolved res =>
      setSubmitting false
        (reloadAll cap o
           (addToast (toastCounter cap) success
              ("Reserved " +:+ pretty (r_quantity res) +:+ " × "
               +:+ p_name p +:+ " (total for this product) for 2 minutes.")
              s))
  | Rejected e =>
      let msg := message_or e "Failed to create reservation." in
      setSubmitting false
        (if includes "Not enough stock" msg then
           addToast (toastCounter cap) error
             "Cannot reserve more than available stock." s
         else addToast (toastCounter cap) error msg s)
  end.

(** Lines 337-340 *)
Definition openPaymentModal (r : Reservation) (s : PageState) : PageState :=
  if decide (r_status r <> ACTIVE) then s
  else setPaymentModalReservation (Some r) s.

(** The modal's [onClose]. *)
Definition closePaymentModal (s : PageState) : PageState :=
  setPaymentModalReservation None s.

(** Lines 342-349, up to the [await]. *)
Definition handleConfirmPayment_click (s : PageState)
  : PageState * list Request :=
  match paymentModalReservation s with
  | None => (s, [])
  | Some r => (setCompleting true s, [PostComplete (r_id r)])
  end.

Definition productNameOf (cap : PageState) (r : Reservation) : string :=
  match r_product r with
  | Some p => p_name p
  | None =>
      match findProduct (r_productId r) (products cap) with
      | Some p => p_name p
      | None => "product"
      end
  end.

(** Lines 351-378; [r] is the captured [paymentModalReservation]. *)
Definition handleConfirmPayment_settled (cap : PageState) (r : Reservation)
    (posted : Settled Reservation)
    (o : Settled (list Product * list Reservation)) (s : PageState)
  : PageState :=
  match posted with
  | Resolved _ =>
      setCompleting false
        (reloadAll cap o
           (setPaymentModalReservation None
              (addToast (toastCounter cap) success
                 ("Purchase completed for " +:+ pretty (r_quantity r)
                  +:+ " × " +:+ productNameOf cap r +:+ ".")
                 s)))
  | Rejected e =>
      let msg := message_or e "Failed to complete purchase." in
      setCompleting false
        (if includes "already expired" msg then
           addToast (toastCounter cap) error
             "Reservation already expired – stock has been released." s
         else addToast (toastCounter cap) error msg s)
  end.

(** Lines 381-404, after the [await]. *)
Definition handleReleaseReservation_settled (cap : PageState)
    (r : Reservation) (posted : Settled Reservation)
    (o : Settled (list Product * list Reservation)) (s : PageState)
  : PageState :=
  match posted with
  | Resolved _ =>
      reloadAll cap o
        (addToast (toastCounter cap) info
           ("Released hold for " +:+ pretty (r_quantity r) +:+ " × "
            +:+ productNameOf cap r +:+ ". Stock restored.")
           s)
  | Rejected e =>
      addToast (toastCounter cap) error
        (message_or e "Failed to release reservation.") s
  end.

(** Lines 406-409 *)
Definition clearSelection (s : PageState) : PageState :=
  setQuantity (Fin 1%Q) (setSelectedProductId None s).

(** Lines 412-425, up to the [await]; [confirmed] is the answer to
    [window.confirm]. *)
Definition handleResetDatabase_click (confirmed : bool) (s : PageState)
  : PageState * list Request :=
  if negb confirmed then (s, [])
  else (setLoadingReservations true (setLoadingProducts true s),
        [PostReset]).

(** Lines 426-438 *)
Definition handleResetDatabase_settled (cap : PageState)
    (posted : Settled unit)
    (o : Settled (list Product * list Reservation)) (s : PageState)
  : PageState :=
  let s1 :=
    match posted with
    | Resolved _ =>
        clearSelection
          (reloadAll cap o
             (addToast (toastCounter cap) success
                "Database reset to default demo data." s))
    | Rejected e =>
        addToast (toastCounter cap) error
          (message_or e "Failed to reset database.") s
    end in
  setLoadingReservations false (setLoadingProducts false s1).

(** Lines 676-678: [n] is [Number(e.target.value)]. *)
Definition onQuantityChange (n : jsnum Q) (s : PageState) : PageState :=
  setQuantity (Math_max2 (Fin 1%Q) n) s.

(** Lines 567-573: a click on a product card. *)
Definition onProductClick (p : Product) (s : PageState) : PageState :=
  if p_availableStock p <=? 0 then s
  else setSelectedProductId (Some (p_id p)) s.

(** *** The page as a transition system *)

Inductive Event :=
| Mounted (id : string)
| Reloaded (cap : PageState) (o : Settled (list Product * list Reservation))
| ProductsUpdated (updates : list StockUpdate)
| TimerElapsed (cap : PageState)
    (o : Settled (list Product * list Reservation))
| ProductClicked (p : Product)
| QuantityChanged (n : jsnum Q)
| SelectionCleared
| ReserveClicked
| ReserveSettled (cap : PageState) (p : Product)
    (posted : Settled Reservation)
    (o : Settled (list Product * list Reservation))
| PaymentModalOpened (r : Reservation)
| PaymentModalClosed
| ConfirmClicked
| ConfirmSettled (cap : PageState) (r : Reservation)
    (posted : Settled Reservation)
    (o : Settled (list Product * list Reservation))
| ReleaseClicked (r : Reservation)
| ReleaseSettled (cap : PageState) (r : Reservation)
    (posted : Settled Reservation)
    (o : Settled (list Product * list Reservation))
| ResetClicked (confirmed : bool)
| ResetSettled (cap : PageState) (posted : Settled unit)
    (o : Settled (list Product * list Reservation))
| ToastTimedOut (newId : Z).

Definition step (ev : Event) (s : PageState) : PageState * list Request :=
  match ev with
  | Mounted i => (setUserId (Some i) s, [])
  | Reloaded cap o => (reloadAll cap o s, [])
  | ProductsUpdated us => (setProducts (handleProductsUpdated us) s, [])
  | TimerElapsed cap o => (handleTimerElapsed cap o s, [])
  | ProductClicked p => (onProductClick p s, [])
  | QuantityChanged n => (onQuantityChange n s, [])
  | SelectionCleared => (clearSelection s, [])
  | ReserveClicked => handleReserve_click s
  | ReserveSettled cap p posted o =>
      (handleReserve_settled cap p posted o s, [])
  | PaymentModalOpened r => (openPaymentModal r s, [])
  | PaymentModalClosed => (closePaymentModal s, [])
  | ConfirmClicked => handleConfirmPayment_click s
  | ConfirmSettled cap r posted o =>
      (handleConfirmPayment_settled cap r posted o s, [])
  | ReleaseClicked r => (s, [PostCancel (r_id r)])
  | ReleaseSettled cap r posted o =>
      (handleReleaseReservation_settled cap r posted o s, [])
  | ResetClicked confirmed => handleResetDatabase_click confirmed s
  | ResetSettled cap posted o =>
      (handleResetDatabase_settled cap posted o s, [])
  | ToastTimedOut i => (expireToast i s, [])
  end.

(** The state after a sequence of events, with every request sent on the
    way. *)
Fixpoint run (evs : list Event) (s : PageState) : PageState * list Request :=
  match evs with
  | [] => (s, [])
  | ev :: rest =>
      let '(s1, out1) := step ev s in
      let '(s2, out2) := run rest s1 in
      (s2, out1 ++ out2)
  end.

(** The quantity field is an [input] of [type="number"] (line 673).  The
    value of such a field is the empty string or a valid floating-point
    number: text that is no number, or a number out of the range of the
    finite doubles, is not accepted and reads as the empty string. *)
Inductive NumberFieldValue :=
| EmptyValue
| FloatValue (q : Q).

(** [Number(e.target.value)] on the value of a number field:
    [Number("")] is 0. *)
Definition Number_of (v : NumberFieldValue) : jsnum Q :=
  match v with
  | EmptyValue => Fin 0%Q
  | FloatValue q => Fin q
  end.

(** The events that the rendered page delivers: the quantity changes
    through its field. *)
Definition fromNumberField (ev : Event) : Prop :=
  match ev with
  | QuantityChanged n => exists v, n = Number_of v
  | _ => True
  end.

(** [JSON.stringify] on a number of the request body: [null] for [NaN]
    and for the infinities. *)
Definition JSON_number (n : jsnum Q) : option Q :=
  match n with
  | Fin q => Some q
  | _ => None
  end.

(** The quantity is a finite number, at least 1. *)
Definition atLeastOne (x : jsnum Q) : Prop :=
  exists q, x = Fin q /\ (1 <= q)%Q.


End ProductsPage.

(** ** lib/user.ts, both revisions *)

Module User.

(** One browsing context.  A store that is [None] throws on every access
    (a frame without storage access, storage switched off); the cookie jar is the list
    of name and raw value pairs behind [document.cookie]. *)
Record Browser := {
  localStorage : option (gmap string string);
  sessionStorage : option (gmap string string);
  cookieJar : option (list (string * string))
}.

(** [typeof window]: undefined on the server, else the browser.  [draws]
    counts the random ids generated so far. *)
Record World := {
  window : option Browser;
  draws : nat
}.

Definition withLocalStorage (v : option (gmap string string)) (b : Browser)
  : Browser :=
  {| localStorage := v; sessionStorage := sessionStorage b;
     cookieJar := cookieJar b |}.

Definition withSessionStorage (v : option (gmap string string))
    (b : Browser) : Browser :=
  {| localStorage := localStorage b; sessionStorage := v;
     cookieJar := cookieJar b |}.

Definition withCookieJar (v : option (list (string * string))) (b : Browser)
  : Browser :=
  {| localStorage := localStorage b; sessionStorage := sessionStorage b;
     cookieJar := v |}.

(** *** String helpers used by [getCookie] *)

(** [s.split(c)] for a one-character separator. *)
Fixpoint split_on (c : ascii) (s : string) : list string :=
  match s with
  | EmptyString => [EmptyString]
  | String a s' =>
      if decide (a = c) then EmptyString :: split_on c s'
      else match split_on c s' with
           | h :: t => String a h :: t
           | [] => [String a EmptyString]
           end
  end.

Fixpoint trimStart (s : string) : string :=
  match s with
  | String a s' => if Ascii.is_space a then trimStart s' else s
  | EmptyString => EmptyString
  end.

(** [s.trim()] *)
Definition trim (s : string) : string :=
  String.rev (trimStart (String.rev (trimStart s))).

(** The getter of [document.cookie]. *)
Definition document_cookie (jar : list (string * string)) : string :=
  String.concat "; " (map (fun nv => fst nv +:+ "=" +:+ snd nv) jar).

(** What assigning [name=value; expires=...; path=/; SameSite=Lax] to
    [document.cookie] does to the jar: the cookie of that name is
    replaced, or added. *)
Definition cookie_store (name value : string) (jar : list (string * string))
  : list (string * string) :=
  ProductsPage.Map_set name value jar.

Section GetOrCreate.
(** The library functions of URI encoding; decoding throws a [URIError]
    ([None]) on a malformed escape. *)
Variable encodeURIComponent : string -> string.
Variable decodeURIComponent : string -> option string.
(** [uuid()] of the [uuid] package, by draw. *)
Variable uuid : nat -> string.
(** [crypto.randomUUID], when the browser has it, by draw. *)
Variable crypto_randomUUID : option (nat -> string).
(** [Math.random().toString(16).slice(2) + Date.now().toString(16)] *)
Variable fallbackSuffix : nat -> string.

(** **** lib/user.ts *)

Definition key : string := "flashsale_userId".

(** [None]: the call throws, because [localStorage] does. *)
Definition getOrCreateUserId_simple (w : World) : option (string * World) :=
  match window w with
  | None => Some (EmptyString, w)
  | Some b =>
      match localStorage b with
      | None => None
      | Some ls =>
          let fresh :=
            let i := uuid (draws w) in
            Some (i, {| window :=
                          Some (withLocalStorage (Some (<[key := i]> ls)) b);
                        draws := S (draws w) |}) in
          match ls !! key with
          | Some i => if truthy i then Some (i, w) else fresh
          | None => fresh
          end
      end
  end.

(** **** The multi-store revision *)

Definition STORAGE_KEY : string := "flashSaleUserId".
Definition COOKIE_NAME : string := "flash_sale_user_id".

Definition safeGetLocalStorage (b : Browser) : option string :=
  match localStorage b with
  | Some ls => ls !! STORAGE_KEY
  | None => None
  end.

Definition safeSetLocalStorage (value : string) (b : Browser) : Browser :=
  match localStorage b with
  | Some ls => withLocalStorage (Some (<[STORAGE_KEY := value]> ls)) b
  | None => b
  end.

Definition safeGetSessionStorage (b : Browser) : option string :=
  match sessionStorage b with
  | Some ss => ss !! STORAGE_KEY
  | None => None
  end.

Definition safeSetSessionStorage (value : string) (b : Browser) : Browser :=
  match sessionStorage b with
  | Some ss => withSessionStorage (Some (<[STORAGE_KEY := value]> ss)) b
  | None => b
  end.

Definition getCookie (name : string) (b : Browser) : option string :=
  match cookieJar b with
  | None => None
  | Some jar =>
      match find (fun c => String.prefix (name +:+ "=") c)
                 (map trim (split_on ";"%char (document_cookie jar))) with
      | None => None
      | Some found =>
          decodeURIComponent
            (match split_on "="%char found with
             | _ :: v :: _ => v
             | _ => EmptyString
             end)
      end
  end.

Definition setCookie (name value : string) (b : Browser) : Browser :=
  match cookieJar b with
  | Some jar =>
      withCookieJar
        (Some (cookie_store name (encodeURIComponent value) jar)) b
  | None => b
  end.

Definition generateId (draw : nat) : string :=
  match crypto_randomUUID with
  | Some randomUUID => randomUUID draw
  | None => "anon_" +:+ fallbackSuffix draw
  end.

(** [a || b] on values that are a string or [null]. *)
Definition or_truthy (a b : option string) : option string :=
  match a with
  | Some x => if truthy x then a else b
  | None => b
  end.

(** [fromLocal || fromSession || fromCookie || undefined]: [None] is
    [undefined]. *)
Definition existingId (b : Browser) : option string :=
  match or_truthy (safeGetLocalStorage b)
          (or_truthy (safeGetSessionStorage b)
             (getCookie COOKIE_NAME b)) with
  | Some x => if truthy x then Some x else None
  | None => None
  end.

(** [existing ?? generateId()] *)
Definition chosen (b : Browser) (draw : nat) : string :=
  match existingId b with
  | Some x => x
  | None => generateId draw
  end.

Definition getOrCreateUserId (w : World) : string * World :=
  match window w with
  | None => (EmptyString, w)
  | Some b =>
      let '(i, d) :=
        match existingId b with
        | Some x => (x, draws w)
        | None => (generateId (draws w), S (draws w))
        end in
      (i, {| window :=
               Some (setCookie COOKIE_NAME i
                       (safeSetSessionStorage i
                          (safeSetLocalStorage i b)));
             draws := d |})
  end.
End GetOrCreate.

(** A stored value that counts as absent: [null] or the empty string. *)
Definition falsy (v : option string) : Prop :=
  match v with
  | Some x => truthy x = false
  | None => True
  end.

End User.

(** ** The reservation engine behind the HTTP interface

    The engine runs on the server; its code is not among the sources of the
    frontend, which only calls it.  Its operations are modelled from the
    specification (sections 3 to 5): every operation is one atomic unit of
    work under the row lock, so concurrently issued operations on one item
    take effect one after the other, in the order in which they obtain the
    lock. *)

Module Engine.

(** Modelled from the spec: the three states of section 4.3. *)
Inductive Status := ACTIVE | COMPLETED | EXPIRED.

#[export] Instance Status_eq_dec : EqDecision Status.
Proof. solve_decision. Defined.

(** Modelled from the spec: the Item of section 3, with the total the
    Stock Ledger owns next to the available quantity. *)
Record Item := { total : Z; availableQuantity : Z }.

(** Modelled from the spec: the Reservation of section 3. *)
Record Reservation := {
  id : nat;
  actorId : string;
  itemId : string;
  quantity : Z;
  status : Status;
  expiresAt : Z
}.

(** Modelled from the spec: the persisted state of section 6, two tables,
    and the source of fresh reservation ids. *)
Record Store := {
  items : gmap string Item;
  reservations : list Reservation;
  nextId : nat
}.

(** Modelled from the spec: the error taxonomy of section 7. *)
Inductive Failure := NotFound | InsufficientStock | InvalidState | Corruption.

(** Modelled from the spec: what an operation reports: the reservation, a
    failure, or nothing (Expire), with whether a transition occurred. *)
Inductive Outcome :=
| Ok (r : Reservation)
| Fails (f : Failure)
| Silent (transitioned : bool).

(** Modelled from the spec: an ACTIVE reservation of item [i]. *)
Definition isActiveOn (i : string) (r : Reservation) : bool :=
  bool_decide (itemId r = i) && bool_decide (status r = ACTIVE).

(** Modelled from the spec: the sum of the quantities of the ACTIVE
    reservations on item [i], the second term of the conservation law. *)
Fixpoint activeQuantity (i : string) (rs : list Reservation) : Z :=
  match rs with
  | [] => 0
  | r :: rest =>
      (if isActiveOn i r then quantity r else 0) + activeQuantity i rest
  end.

(** Modelled from the spec: [tryDeduct] of section 4.1. *)
Definition tryDeduct (i : string) (q : Z) (its : gmap string Item)
  : Failure + gmap string Item :=
  match its !! i with
  | None => inl NotFound
  | Some it =>
      if availableQuantity it <? q then inl InsufficientStock
      else inr (<[i := {| total := total it;
                          availableQuantity := availableQuantity it - q |}]>
                  its)
  end.

(** Modelled from the spec: [restore] of section 4.1; a restore beyond
    the total is the fatal corruption signal, not a clamp. *)
Definition restore (i : string) (q : Z) (its : gmap string Item)
  : Failure + gmap string Item :=
  match its !! i with
  | None => inl NotFound
  | Some it =>
      if total it <? availableQuantity it + q then inl Corruption
      else inr (<[i := {| total := total it;
                          availableQuantity := availableQuantity it + q |}]>
                  its)
  end.

(** Modelled from the spec: in-place mutation of one field of a record
    (quantity, deadline, status). *)
Definition withQuantity (q : Z) (r : Reservation) : Reservation :=
  {| id := id r; actorId := actorId r; itemId := itemId r; quantity := q;
     status := status r; expiresAt := expiresAt r |}.

(** Modelled from the spec: the record with a new deadline. *)
Definition withExpiresAt (t : Z) (r : Reservation) : Reservation :=
  {| id := id r; actorId := actorId r; itemId := itemId r;
     quantity := quantity r; status := status r; expiresAt := t |}.

(** Modelled from the spec: the record after a status transition. *)
Definition withStatus (st : Status) (r : Reservation) : Reservation :=
  {| id := id r; actorId := actorId r; itemId := itemId r;
     quantity := quantity r; status := st; expiresAt := expiresAt r |}.

(** Modelled from the spec: step 4 of Create or Extend, the merge: the
    actor's ACTIVE reservation on the item, when there is one, has its
    quantity incremented in place. *)
Fixpoint extendActive (actor i : string) (q : Z) (rs : list Reservation)
  : option (list Reservation * nat) :=
  match rs with
  | [] => None
  | r :: rest =>
      if bool_decide (actorId r = actor) && isActiveOn i r then
        Some (withQuantity (quantity r + q) r :: rest, id r)
      else
        match extendActive actor i q rest with
        | Some (rest', rid) => Some (r :: rest', rid)
        | None => None
        end
  end.

(** Modelled from the spec: step 5 of Create or Extend, the global
    window: every ACTIVE reservation of the actor gets the deadline. *)
Definition refreshDeadline (actor : string) (deadline : Z) (r : Reservation)
  : Reservation :=
  if bool_decide (actorId r = actor) && bool_decide (status r = ACTIVE)
  then withExpiresAt deadline r else r.

(** Modelled from the spec: [findById] of section 4.2. *)
Definition findById (rid : nat) (rs : list Reservation)
  : option Reservation :=
  find (fun r => Nat.eqb (id r) rid) rs.

(** Modelled from the spec: [save] of section 4.2, on the record that
    [findById] returns. *)
Fixpoint save (rid : nat) (r' : Reservation) (rs : list Reservation)
  : list Reservation :=
  match rs with
  | [] => []
  | r :: rest =>
      if Nat.eqb (id r) rid then r' :: rest else r :: save rid r' rest
  end.

(** Modelled from the spec: the conservation law of section 3 at one
    observable point: item [i] exists with total [N], its available
    quantity is not negative, and together with the ACTIVE quantities it
    makes up [N]. *)
Definition conserved (i : string) (N : Z) (s : Store) : Prop :=
  exists a,
    items s !! i = Some {| total := N; availableQuantity := a |}
    /\ 0 <= a
    /\ a + activeQuantity i (reservations s) = N.

Section Operations.
(** The length of the hold window. *)
Variable TTL : Z.

(** Modelled from the spec: Create or Extend of section 4.3. *)
Definition createOrExtend (now : Z) (actor i : string) (q : Z) (s : Store)
  : Store * Outcome :=
  match tryDeduct i q (items s) with
  | inl f => (s, Fails f)
  | inr its =>
      let '(rs1, rid, nid) :=
        match extendActive actor i q (reservations s) with
        | Some (rs', rid) => (rs', rid, nextId s)
        | None =>
            (reservations s ++
               [{| id := nextId s; actorId := actor; itemId := i;
                   quantity := q; status := ACTIVE;
                   expiresAt := now + TTL |}],
             nextId s, S (nextId s))
        end in
      let rs2 := map (refreshDeadline actor (now + TTL)) rs1 in
      let s' := {| items := its; reservations := rs2; nextId := nid |} in
      match findById rid rs2 with
      | Some r => (s', Ok r)
      | None => (s, Fails NotFound)
      end
  end.

(** Modelled from the spec: Complete of section 4.3. *)
Definition complete (rid : nat) (s : Store) : Store * Outcome :=
  match findById rid (reservations s) with
  | None => (s, Fails NotFound)
  | Some r =>
      if bool_decide (status r = ACTIVE) then
        let r' := withStatus COMPLETED r in
        ({| items := items s;
            reservations := save rid r' (reservations s);
            nextId := nextId s |}, Ok r')
      else (s, Fails InvalidState)
  end.

(** Modelled from the spec: Cancel of section 4.3. *)
Definition cancel (rid : nat) (now : Z) (s : Store) : Store * Outcome :=
  match findById rid (reservations s) with
  | None => (s, Fails NotFound)
  | Some r =>
      if bool_decide (status r = ACTIVE) then
        match restore (itemId r) (quantity r) (items s) with
        | inl f => (s, Fails f)
        | inr its =>
            let r' := withExpiresAt now (withStatus EXPIRED r) in
            ({| items := its;
                reservations := save rid r' (reservations s);
                nextId := nextId s |}, Ok r')
        end
      else (s, Ok r)
  end.

(** Modelled from the spec: Expire of section 4.3, with its re-check
    of status and deadline under the lock. *)
Definition expire (rid : nat) (now : Z) (s : Store) : Store * Outcome :=
  match findById rid (reservations s) with
  | None => (s, Silent false)
  | Some r =>
      if bool_decide (status r = ACTIVE) && (expiresAt r <=? now) then
        match restore (itemId r) (quantity r) (items s) with
        | inl f => (s, Fails f)
        | inr its =>
            ({| items := its;
                reservations :=
                  save rid (withStatus EXPIRED r) (reservations s);
                nextId := nextId s |}, Silent true)
        end
      else (s, Silent false)
  end.

(** Modelled from the spec: the operations of section 4.3, as the lock
    serialises them. *)
Inductive Op :=
| CreateOrExtend (now : Z) (actor i : string) (q : Z)
| Complete (rid : nat)
| Cancel (rid : nat) (now : Z)
| Expire (rid : nat) (now : Z).

(** Modelled from the spec: one atomic unit of work. *)
Definition apply (op : Op) (s : Store) : Store * Outcome :=
  match op with
  | CreateOrExtend now actor i q => createOrExtend now actor i q s
  | Complete rid => complete rid s
  | Cancel rid now => cancel rid now s
  | Expire rid now => expire rid now s
  end.

(** Modelled from the spec: every observable point of a run: the store
    after each operation, with the operation's outcome. *)
Fixpoint trace (ops : list Op) (s : Store) : list (Store * Outcome) :=
  match ops with
  | [] => []
  | op :: rest =>
      let so := apply op s in
      so :: trace rest (fst so)
  end.

(** Modelled from the spec: the request returned its reservation. *)
Definition succeeded (o : Outcome) : bool :=
  match o with
  | Ok _ => true
  | _ => false
  end.

(** Modelled from the spec: the request failed with InsufficientStock. *)
Definition outOfStock (o : Outcome) : bool :=
  match o with
  | Fails InsufficientStock => true
  | _ => false
  end.

(** Modelled from the spec: how many operations of a run ended in a given
    way. *)
Definition count (f : Outcome -> bool) (tr : list (Store * Outcome)) : Z :=
  Z.of_nat (length (filter (fun so => f (snd so) = true) tr)).

(** Modelled from the spec: Create or Extend requests for [q] units of
    item [i], one per requesting actor and arrival time, in the order in
    which they obtain the item's lock (section 5). *)
Definition requests (i : string) (q : Z) (reqs : list (Z * string))
  : list Op :=
  map (fun req => CreateOrExtend (fst req) (snd req) i q) reqs.

(** Modelled from the spec: the operations under which section 8 states
    the conservation law: Create or Extend with a positive quantity,
    Cancel and Expire. *)
Definition conserving (op : Op) : Prop :=
  match op with
  | CreateOrExtend _ _ _ q => 0 < q
  | Complete _ => False
  | Cancel _ _ | Expire _ _ => True
  end.
End Operations.

End Engine.

(** ** The multi-store revision of lib/user.ts: clearing the id *)

Module UserExtra.
Import User.

(** What assigning [name=; expires=Thu, 01 Jan 1970 ...; path=/;] to
    [document.cookie] does to the jar: the cookie of that name is gone. *)
Definition cookie_expire (name : string) (jar : list (string * string))
  : list (string * string) :=
  filter (fun nv => fst nv <> name) jar.

(** Lines 128-146: each store is cleared inside its own [try]; a store
    that throws is left alone. *)
Definition clearUserIdEverywhere (w : World) : World :=
  match window w with
  | None => w
  | Some b =>
      let b1 :=
        match localStorage b with
        | Some ls => withLocalStorage (Some (delete STORAGE_KEY ls)) b
        | None => b
        end in
      let b2 :=
        match sessionStorage b1 with
        | Some ss => withSessionStorage (Some (delete STORAGE_KEY ss)) b1
        | None => b1
        end in
      let b3 :=
        match cookieJar b2 with
        | Some jar => withCookieJar (Some (cookie_expire COOKIE_NAME jar)) b2
        | None => b2
        end in
      {| window := Some b3; draws := draws w |}
  end.

(** Every character of the string passes the test. *)
Fixpoint allChars (P : ascii -> bool) (s : string) : bool :=
  match s with
  | EmptyString => true
  | String a s' => P a && allChars P s'
  end.

(** A cookie name as the cookie syntax has it: no semicolon, no equals
    sign, no white space. *)
Definition cookieName (s : string) : bool :=
  allChars (fun a => negb (bool_decide (a = ";"%char)
                           || bool_decide (a = "="%char)
                           || Ascii.is_space a)) s.

(** A raw cookie value: no semicolon, no white space. *)
Definition cookieValue (s : string) : bool :=
  allChars (fun a => negb (bool_decide (a = ";"%char) || Ascii.is_space a)) s.

(** A jar all of whose cookies are so formed and named. *)
Definition jarOk (jar : list (string * string)) : Prop :=
  Forall (fun nv => fst nv <> EmptyString
                    /\ cookieName (fst nv) = true
                    /\ cookieValue (snd nv) = true)
         jar.

(** The character does not occur in the string. *)
Definition without (c : ascii) (s : string) : bool :=
  allChars (fun a => negb (bool_decide (a = c))) s.

Definition noSpace (s : string) : bool :=
  allChars (fun a => negb (Ascii.is_space a)) s.

(** The text of one cookie in [document.cookie]. *)
Definition cookieText (nv : string * string) : string :=
  fst nv +:+ "=" +:+ snd nv.

(** What [getItem(STORAGE_KEY)] reads in a store, [null] also when the
    store throws. *)
Definition readKey (store : option (gmap string string)) : option string :=
  match store with
  | Some m => m !! STORAGE_KEY
  | None => None
  end.

(** The part of a raw value that [match.split('=')[1]] keeps: what stands
    before its first equals sign. *)
Definition upToEquals (v : string) : string :=
  hd EmptyString (split_on "="%char v).

End UserExtra.

(** ** components/ProductsPage.tsx, the other revision *)

Module ProductsPageV2.
Import ProductsPage.

(** Lines 980-995, up to the [await]: this revision has no user and no
    quantity guard and posts the selected id as it is; [userId] is the
    string computed on line 878. *)
Definition handleReserve_click (userId : string) (s : PageState)
  : PageState * list Request :=
  match selectedProductId s with
  | Some i =>
      if truthy i then
        (setSubmitting true s,
         [PostReservation {| b_productId := i; b_quantity := quantity s;
                             b_userId := userId |}])
      else
        (addToast (toastCounter s) error "Please select a product first." s,
         [])
  | None =>
      (addToast (toastCounter s) error "Please select a product first." s, [])
  end.

End ProductsPageV2.

(** ** Sample data *)

Module Samples.
Import ProductsPage.

Definition serum : Product :=
  {| p_id := "a"; p_name := "Glow Serum"; p_price := "29.99";
     p_availableStock := 3 |}.

(** A second product under the id of [serum]. *)
Definition serumTwin : Product :=
  {| p_id := "a"; p_name := "Velvet Lipstick"; p_price := "19.99";
     p_availableStock := 4 |}.

Definition hold1 : Reservation :=
  {| r_id := "r1"; r_productId := "a"; r_quantity := 2; r_status := ACTIVE;
     r_expiresAt := "2025-12-04T12:34:56.000Z";
     r_createdAt := "2025-12-04T12:30:00.000Z"; r_product := None |}.

Definition hold2 : Reservation :=
  {| r_id := "r2"; r_productId := "b"; r_quantity := 1; r_status := EXPIRED;
     r_expiresAt := "2025-12-04T12:00:00.000Z";
     r_createdAt := "2025-12-04T11:58:00.000Z"; r_product := None |}.

Definition hold3 : Reservation :=
  {| r_id := "r3"; r_productId := "c"; r_quantity := 4; r_status := ACTIVE;
     r_expiresAt := "2025-12-04T12:34:56.000Z";
     r_createdAt := "2025-12-04T12:32:56.000Z"; r_product := None |}.

(** The page once user [u1] is known and the catalogue holds [serum]. *)
Definition ready : PageState :=
  setProducts (fun _ => [serum]) (setUserId (Some "u1") initial).

(** A date parser for the samples: every string is the instant 5000. *)
Definition parseAll (s : string) : option Z := Some 5000.

(** A date parser that knows one ISO instant; every other string is no
    date. *)
Definition parseIso (s : string) : option Z :=
  if bool_decide (s = "2025-12-04T12:34:56.000Z") then Some 1764851696000
  else None.

(** A generator whose ids differ from draw to draw. *)
Definition countingId (n : nat) : string := "id-" +:+ pretty n.

(** A browser all of whose stores throw. *)
Definition noStorage : User.World :=
  {| User.window :=
       Some {| User.localStorage := None; User.sessionStorage := None;
               User.cookieJar := None |};
     User.draws := 0 |}.

(** A browser on a first visit: three empty stores. *)
Definition firstVisit : User.World :=
  {| User.window :=
       Some {| User.localStorage := Some ∅; User.sessionStorage := Some ∅;
               User.cookieJar := Some [] |};
     User.draws := 0 |}.

(** The scenario of the specification: item X with five units and no
    reservation yet. *)
Definition fiveOfX : Engine.Store :=
  {| Engine.items :=
       {[ "X" := {| Engine.total := 5; Engine.availableQuantity := 5 |} ]};
     Engine.reservations := [];
     Engine.nextId := 0 |}.

(** A generator for the samples. *)
Definition sampleUuid (n : nat) : string :=
  "6f1c2a9e-3b7d-4c58-9a41-0d2e5f8b7c13".
End Samples.

(** * Properties *)

(** ** The countdown hook *)

Module TimerFacts.
Import Timer.

Section Facts.
Variable Date_parse : string -> option Z.

(** The value a tick hands to [setRemainingMs] depends on the target
    and on the clock reading alone. *)
Lemma tick_next h c now :
  next (tick h c now) =
  match target c with
  | Fin t => Fin (Z.max (t - now) 0)
  | PosInf => PosInf
  | _ => Fin 0
  end.
Proof.
  unfold tick; cbn. destruct (target c) as [| |t|]; cbn; try reflexivity.
  destruct (Z.ltb_spec 0 (t - now)); f_equal; lia.
Qed.

Lemma tick_target h c now : target (after (tick h c now)) = target c.
Proof. reflexivity. Qed.

Lemma tick_last h c now : last (after (tick h c now)) = next (tick h c now).
Proof. reflexivity. Qed.

Lemma last_cons_default {A} (l : list A) : forall a d,
  List.last (a :: l) d = List.last l a.
Proof.
  induction l as [|b l IH]; intros a d; [reflexivity|].
  change (List.last (a :: b :: l) d) with (List.last (b :: l) d).
  rewrite (IH b d), (IH b a). reflexivity.
Qed.

(** The latest of a non-empty run of ticks is a tick at the latest
    reading, from a closure with the same target. *)
Lemma run_ticks_last h later : forall c now1 d,
  exists c', target c' = target c /\
    List.last (run_ticks h c (now1 :: later)) d
    = tick h c' (List.last later now1).
Proof.
  induction later as [|now2 later IH]; intros c now1 d.
  - exists c. split; reflexivity.
  - destruct (IH (after (tick h c now1)) now2 d) as (c' & Ht & Hl).
    exists c'. split; [rewrite Ht; apply tick_target|].
    change (run_ticks h c (now1 :: now2 :: later))
      with (tick h c now1
              :: run_ticks h (after (tick h c now1)) (now2 :: later)).
    rewrite (last_cons_default later now2 now1), <- Hl.
    reflexivity.
Qed.

Lemma effect_start_target s now0 c :
  effect_start Date_parse (Some s) now0 = Some c ->
  target c = Date_getTime Date_parse s.
Proof.
  unfold effect_start. destruct (truthy s); [|discriminate].
  intros [= <-]. reflexivity.
Qed.

Lemma effect_start_last s now0 c :
  effect_start Date_parse (Some s) now0 = Some c ->
  last c = match Date_parse s with
           | Some t => Fin (Z.max (t - now0) 0)
           | None => NaN
           end.
Proof.
  unfold effect_start, Date_getTime. destruct (truthy s); [|discriminate].
  intros [= <-]; cbn. destruct (Date_parse s) as [t|]; cbn; [|reflexivity].
  destruct (Z.ltb_spec (t - now0) 0); f_equal; lia.
Qed.

(** The state after the latest tick, for an [expiresAt] that installs
    the interval. *)
Lemma remainingMs_after_value s h now0 now1 later :
  truthy s = true ->
  remainingMs_after Date_parse (Some s) h now0 now1 later
  = Some match Date_parse s with
         | Some t => Fin (Z.max (t - List.last later now1) 0)
         | None => Fin 0
         end.
Proof.
  intros Hs. unfold remainingMs_after, effect_start. rewrite Hs.
  match goal with
  | |- context [List.last (run_ticks h ?c (now1 :: later)) ?d] =>
      destruct (run_ticks_last h later c now1 d) as (c' & Ht & ->)
  end.
  rewrite tick_next, Ht. cbn [target]. unfold Date_getTime.
  destruct (Date_parse s); reflexivity.
Qed.

(** Once the deadline is behind the clock and [last] is not positive,
    no later tick calls back. *)
Lemma run_ticks_quiet h clock : forall c prev,
  Sorted Z.le (prev :: clock) ->
  js_gt (last c) (Fin 0) = false ->
  (target c = NaN \/ exists t, target c = Fin t /\ t <= prev) ->
  Forall (fun r => fired r = false /\ next r = Fin 0)
         (run_ticks h c clock).
Proof.
  induction clock as [|now clock IH]; intros c prev Hs Hl Ht;
    [constructor|].
  apply Sorted_inv in Hs as [Hs Hhd]. apply HdRel_inv in Hhd.
  assert (Hn : next (tick h c now) = Fin 0).
  { rewrite tick_next. destruct Ht as [->|(t & -> & Hle)]; [reflexivity|].
    f_equal; lia. }
  cbn [run_ticks]. constructor.
  - split; [|exact Hn]. unfold tick; cbn [fired]. rewrite Hl. reflexivity.
  - apply (IH _ now Hs).
    + rewrite tick_last, Hn. reflexivity.
    + rewrite tick_target. destruct Ht as [->|(t & -> & Hle)];
        [left; reflexivity | right; exists t; split; [reflexivity|lia]].
Qed.

(** From a positive [last]: a stretch of ticks with time left, then at
    most one tick that reaches zero, then quiet ticks. *)
Lemma run_ticks_shape h clock : forall c prev t l,
  Sorted Z.le (prev :: clock) ->
  target c = Fin t -> last c = Fin l -> 0 < l ->
  exists pre post,
    run_ticks h c clock = pre ++ post /\
    Forall (fun r => fired r = false /\ js_gt (next r) (Fin 0) = true) pre /\
    (post = [] \/
     exists hit rest, post = hit :: rest /\ next hit = Fin 0 /\
       fired hit = h /\
       Forall (fun r => fired r = false /\ next r = Fin 0) rest).
Proof.
  induction clock as [|now clock IH]; intros c prev t l Hs Ht Hl Hpos.
  - exists [], []. repeat split; auto.
  - apply Sorted_inv in Hs as [Hs Hhd]. apply HdRel_inv in Hhd.
    assert (Hn : next (tick h c now) = Fin (Z.max (t - now) 0))
      by (rewrite tick_next, Ht; reflexivity).
    destruct (Z.lt_ge_cases 0 (t - now)) as [Hlive|Hdead].
    + destruct (IH (after (tick h c now)) now t (Z.max (t - now) 0) Hs)
        as (pre & post & Hrun & Hpre & Hpost);
        [apply Ht | rewrite tick_last; exact Hn | lia |].
      exists (tick h c now :: pre), post. cbn [run_ticks].
      rewrite Hrun. split; [reflexivity|]. split; [|exact Hpost].
      constructor; [|exact Hpre]. split.
      * unfold tick; cbn [fired]. rewrite Ht; cbn.
        destruct (Z.ltb_spec 0 (t - now)); [|lia]. cbn.
        destruct (Z.eqb_spec (t - now) 0); [lia|].
        rewrite andb_false_r. reflexivity.
      * rewrite Hn; cbn. apply Z.ltb_lt. lia.
    + exists [], (run_ticks h c (now :: clock)). split; [reflexivity|].
      split; [constructor|]. right.
      exists (tick h c now), (run_ticks h (after (tick h c now)) clock).
      split; [reflexivity|].
      assert (Hz : Z.max (t - now) 0 = 0) by lia. rewrite Hz in Hn.
      split; [exact Hn|]. split.
      * unfold tick at 1; cbn [fired]. rewrite Hl, Ht; cbn.
        destruct (Z.ltb_spec 0 l); [|lia].
        destruct (Z.ltb_spec 0 (t - now)); [lia|]. cbn. reflexivity.
      * apply (run_ticks_quiet h clock _ now Hs).
        -- rewrite tick_last, Hn. reflexivity.
        -- right. exists t. split; [apply Ht | lia].
Qed.

Lemma elapsed_calls_app rs1 rs2 :
  elapsed_calls (rs1 ++ rs2) = (elapsed_calls rs1 + elapsed_calls rs2)%nat.
Proof. unfold elapsed_calls. rewrite filter_app, length_app. reflexivity. Qed.

Lemma elapsed_calls_none rs :
  Forall (fun r => fired r = false) rs -> elapsed_calls rs = 0%nat.
Proof.
  unfold elapsed_calls. induction 1 as [|r rs Hr _ IH]; [reflexivity|].
  rewrite filter_cons. destruct (decide (fired r = true)); [congruence|].
  exact IH.
Qed.

Lemma elapsed_calls_cons r rs :
  (elapsed_calls (r :: rs) <= 1 + elapsed_calls rs)%nat.
Proof.
  unfold elapsed_calls. rewrite filter_cons.
  destruct (decide (fired r = true)); cbn; lia.
Qed.
End Facts.

End TimerFacts.

(** Two minutes and five seconds render as 02 and 05; a finished
    countdown as 00 and 00. *)
Example timer_renders_two_digits :
  Timer.mm (Some (Fin 125000)) = "02" /\ Timer.ss (Some (Fin 125000)) = "05"
  /\ Timer.mm (Some (Fin 0)) = "00" /\ Timer.ss (Some (Fin 0)) = "00".
Proof. repeat split. Qed.

(** A deadline at 5000 seen from an effect started at 1000: the ticks at
    1000, 2000, 5000 and 6000 leave 4000, 3000, 0 and 0 milliseconds, and
    the callback runs on the third. *)
Example timer_counts_down :
  map (fun r => (Timer.next r, Timer.fired r))
      (Timer.lifetime Samples.parseAll (Some "2025-12-04T12:34:56.000Z")
         true 1000 [1000; 2000; 5000; 6000])
  = [(Fin 4000, false); (Fin 3000, false); (Fin 0, true); (Fin 0, false)].
Proof. reflexivity. Qed.

(** C2, as amended.  For an [expiresAt] that is a non-empty string and a
    date, the hook sets [remainingMs] on every tick to
    [max(parse(expiresAt) - now, 0)], where [now] is the clock reading of
    that tick: the value of the specification's formula, never negative.  For a non-empty string that is no date it sets 0.  With
    [expiresAt] undefined or the empty string, [remainingMs] is [null] and
    minutes and seconds both render as two dashes.  In every case the
    value depends on nothing but [expiresAt] and the clock reading of the
    latest tick: not on the callback, the start of the effect or earlier
    ticks. *)
Theorem C2_remainingMs_is_clamped_difference
    (Date_parse : string -> option Z) (expiresAt : option string)
    (hasCallback : bool) (now0 now1 : Z) (later : list Z) :
  let remainingMs :=
    Timer.remainingMs_after Date_parse expiresAt hasCallback now0 now1 later in
  let now := List.last later now1 in
  match expiresAt with
  | None =>
      remainingMs = None /\ Timer.mm remainingMs = "--"
      /\ Timer.ss remainingMs = "--"
  | Some s =>
      if truthy s then
        match Date_parse s with
        | Some t =>
            exists r, remainingMs = Some (Fin r) /\ 0 <= r
                      /\ r = Z.max (t - now) 0
                      /\ Fin r = TimerSpec.remainingMs_spec Date_parse s now
        | None => remainingMs = Some (Fin 0)
        end
      else
        remainingMs = None /\ Timer.mm remainingMs = "--"
        /\ Timer.ss remainingMs = "--"
  end
  /\ (forall hasCallback' now0' now1' later',
        List.last later' now1' = now ->
        Timer.remainingMs_after Date_parse expiresAt hasCallback' now0' now1'
          later'
        = remainingMs).
Proof.
  cbn zeta. split.
  - destruct expiresAt as [s|]; [|repeat split].
    destruct (truthy s) eqn:Hs.
    + rewrite (TimerFacts.remainingMs_after_value Date_parse s hasCallback
                 now0 now1 later Hs).
      destruct (Date_parse s) as [t|] eqn:Hp; [|reflexivity].
      exists (Z.max (t - List.last later now1) 0).
      split; [reflexivity|]. split; [lia|]. split; [reflexivity|].
      unfold TimerSpec.remainingMs_spec, Timer.Date_getTime. rewrite Hp.
      cbn. destruct (Z.ltb_spec (t - List.last later now1) 0); f_equal; lia.
    + unfold Timer.remainingMs_after, Timer.effect_start. rewrite Hs.
      repeat split.
  - intros h' n0' n1' later' Hlast.
    destruct expiresAt as [s|]; [|reflexivity].
    destruct (truthy s) eqn:Hs.
    + rewrite !(TimerFacts.remainingMs_after_value Date_parse s _ _ _ _ Hs).
      rewrite Hlast. reflexivity.
    + unfold Timer.remainingMs_after, Timer.effect_start. rewrite Hs.
      reflexivity.
Qed.

Lemma C2_remainingMs_witness :
  exists r,
    Timer.remainingMs_after (fun _ => Some 5000) (Some "2025-12-04T12:34:56.000Z")
      true 1000 1000 [2000; 3000] = Some (Fin r)
    /\ 0 <= r /\ r = Z.max (5000 - 3000) 0
    /\ Fin r = TimerSpec.remainingMs_spec (fun _ => Some 5000)
                 "2025-12-04T12:34:56.000Z" 3000.
Proof.
  exact (proj1 (C2_remainingMs_is_clamped_difference (fun _ => Some 5000)
                  (Some "2025-12-04T12:34:56.000Z") true 1000 1000
                  [2000; 3000])).
Defined.

(** C2 as stated fails on two defined strings.  The empty string is falsy,
    so the hook takes the branch of line 14 and [remainingMs] is [null],
    not a number.  For a string that is no date the hook sets 0
    ([NaN > 0] is false), while [Math.max(NaN - now, 0)] is [NaN]. *)
Lemma C2_counterexample_empty_or_no_date :
  Timer.remainingMs_after Samples.parseIso (Some EmptyString) true 1000 1000
    [2000] = None
  /\ Timer.remainingMs_after Samples.parseIso (Some "soon") true 1000 1000
       [2000] = Some (Fin 0)
  /\ TimerSpec.remainingMs_spec Samples.parseIso "soon" 2000 = NaN.
Proof. repeat split. Qed.

(** C10, as amended.  Within one lifetime of the effect, on a clock that
    does not run backwards, [onElapsed] is called at most once; when it is called, the
    deadline was still ahead when the effect started, every earlier tick
    had time left, and this tick is the one that reaches zero; and it is
    never called when the deadline had already passed at the start. *)
Theorem C10_onElapsed_fires_at_most_once
    (Date_parse : string -> option Z) (expiresAt : option string)
    (hasCallback : bool) (now0 : Z) (clock : list Z) :
  Sorted Z.le (now0 :: clock) ->
  let rs := Timer.lifetime Date_parse expiresAt hasCallback now0 clock in
  (Timer.elapsed_calls rs <= 1)%nat
  /\ (forall k r, rs !! k = Some r -> Timer.fired r = true ->
        Timer.next r = Fin 0
        /\ (exists s t, expiresAt = Some s /\ Date_parse s = Some t
                        /\ now0 < t)
        /\ forall j r', (j < k)%nat -> rs !! j = Some r' ->
             js_gt (Timer.next r') (Fin 0) = true)
  /\ (forall s t, expiresAt = Some s -> Date_parse s = Some t -> t <= now0 ->
        Timer.elapsed_calls rs = 0%nat).
Proof.
  intros Hs rs. subst rs. unfold Timer.lifetime.
  destruct (Timer.effect_start Date_parse expiresAt now0) as [c|] eqn:Hc.
  2:{ split; [cbn; lia|]. split; [|reflexivity].
      intros k r Hk. rewrite lookup_nil in Hk. discriminate. }
  destruct expiresAt as [s|]; [|discriminate].
  pose proof (TimerFacts.effect_start_target Date_parse s now0 c Hc) as Ht.
  pose proof (TimerFacts.effect_start_last Date_parse s now0 c Hc) as Hl.
  unfold Timer.Date_getTime in Ht.
  assert (Hquiet :
    (Date_parse s = None \/ exists t, Date_parse s = Some t /\ t <= now0) ->
    Forall (fun r => Timer.fired r = false /\ Timer.next r = Fin 0)
           (Timer.run_ticks hasCallback c clock)).
  { intros Hq. apply (TimerFacts.run_ticks_quiet hasCallback clock c now0 Hs).
    - destruct Hq as [Hn|(t & Hp & Hle)]; rewrite Hl.
      + rewrite Hn. reflexivity.
      + rewrite Hp. cbn. apply Z.ltb_ge. lia.
    - destruct Hq as [Hn|(t & Hp & Hle)].
      + left. rewrite Ht, Hn. reflexivity.
      + right. exists t. rewrite Ht, Hp. split; [reflexivity|lia]. }
  assert (Hnone :
    (Date_parse s = None \/ exists t, Date_parse s = Some t /\ t <= now0) ->
    Forall (fun r => Timer.fired r = false)
           (Timer.run_ticks hasCallback c clock)).
  { intros Hq. eapply Forall_impl; [apply Hquiet, Hq|]. cbn. tauto. }
  destruct (Date_parse s) as [t|] eqn:Hp.
  2:{ specialize (Hnone (or_introl eq_refl)).
      rewrite (TimerFacts.elapsed_calls_none _ Hnone).
      split; [lia|]. split; [|intros s' t' [= <-] Hp'; congruence].
      intros k r Hk Hf. rewrite Forall_lookup in Hnone.
      rewrite (Hnone k r Hk) in Hf. discriminate. }
  destruct (Z.le_gt_cases t now0) as [Hpast|Hfuture].
  { assert (Hq : Some t = None \/ exists t0, Some t = Some t0 /\ t0 <= now0)
      by (right; exists t; split; [reflexivity|exact Hpast]).
    specialize (Hnone Hq).
    rewrite (TimerFacts.elapsed_calls_none _ Hnone).
    split; [lia|]. split; [|reflexivity].
    intros k r Hk Hf. rewrite Forall_lookup in Hnone.
    rewrite (Hnone k r Hk) in Hf. discriminate. }
  destruct (TimerFacts.run_ticks_shape hasCallback clock c now0 t
              (Z.max (t - now0) 0) Hs Ht Hl ltac:(lia))
    as (pre & post & -> & Hpre & Hpost).
  assert (Hpre0 : Forall (fun r => Timer.fired r = false) pre)
    by (eapply Forall_impl; [exact Hpre|]; cbn; tauto).
  split; [|split].
  - rewrite TimerFacts.elapsed_calls_app,
      (TimerFacts.elapsed_calls_none _ Hpre0).
    destruct Hpost as [->|(hit & rest & -> & _ & _ & Hrest)]; [cbn; lia|].
    assert (Hrest0 : Forall (fun r => Timer.fired r = false) rest)
      by (eapply Forall_impl; [exact Hrest|]; cbn; tauto).
    pose proof (TimerFacts.elapsed_calls_cons hit rest) as Hle.
    rewrite (TimerFacts.elapsed_calls_none _ Hrest0) in Hle. lia.
  - intros k r Hk Hf.
    destruct (Nat.lt_ge_cases k (length pre)) as [Hlt|Hge].
    { rewrite lookup_app_l in Hk by exact Hlt.
      rewrite Forall_lookup in Hpre0. rewrite (Hpre0 k r Hk) in Hf.
      discriminate. }
    rewrite lookup_app_r in Hk by exact Hge.
    destruct Hpost as [->|(hit & rest & -> & Hhit & _ & Hrest)];
      [rewrite lookup_nil in Hk; discriminate|].
    destruct (k - length pre)%nat as [|m] eqn:Hm.
    2:{ cbn in Hk. rewrite Forall_lookup in Hrest.
        destruct (Hrest m r Hk) as [Hf' _]. rewrite Hf' in Hf. discriminate. }
    cbn in Hk. injection Hk as <-.
    split; [exact Hhit|]. split; [exists s, t; auto|].
    intros j r' Hj Hlk. rewrite lookup_app_l in Hlk by lia.
    rewrite Forall_lookup in Hpre. exact (proj2 (Hpre j r' Hlk)).
  - intros s' t' [= <-] Hp' Hle. rewrite Hp in Hp'. injection Hp' as <-. lia.
Qed.

Lemma C10_onElapsed_witness :
  Nat.le
    (Timer.elapsed_calls
       (Timer.lifetime (fun _ => Some 5000) (Some "2025-12-04T12:34:56.000Z")
          true 1000 [1000; 2000; 5000; 6000]))
    1.
Proof.
  refine (proj1 (C10_onElapsed_fires_at_most_once (fun _ => Some 5000)
                   (Some "2025-12-04T12:34:56.000Z") true 1000
                   [1000; 2000; 5000; 6000] _)).
  repeat constructor; lia.
Defined.

(** C10 as stated fails when the clock steps back between two ticks (the
    wall clock that [Date.now()] reads can be set back): with the deadline
    at 5000, the readings 5000, 4000, 5000 reach zero twice from a positive
    value, so [onElapsed] is called twice; and with the deadline already
    past at the start (6000), the readings 4000, 5000 make it call back
    all the same. *)
Lemma C10_counterexample_clock_steps_back :
  Timer.elapsed_calls
    (Timer.lifetime Samples.parseAll (Some "2025-12-04T12:34:56.000Z") true
       1000 [1000; 5000; 4000; 5000]) = 2%nat
  /\ Timer.elapsed_calls
       (Timer.lifetime Samples.parseAll (Some "2025-12-04T12:34:56.000Z") true
          6000 [6000; 4000; 5000]) = 1%nat.
Proof. split; reflexivity. Qed.

(** ** The page *)

Module PageFacts.
Import ProductsPage.

(** *** The timer target *)

Section Target.
Variable Date_parse : string -> option Z.
Variable Date_toISOString : Z -> string.

Lemma activeReservations_status rs r :
  r ∈ activeReservations rs <-> r ∈ rs /\ r_status r = ACTIVE.
Proof. unfold activeReservations. rewrite list_elem_of_filter. tauto. Qed.

Lemma activeReservations_app l1 l2 :
  activeReservations (l1 ++ l2)
  = activeReservations l1 ++ activeReservations l2.
Proof. apply filter_app. Qed.

Lemma activeReservations_terminal r l :
  r_status r <> ACTIVE ->
  activeReservations (r :: l) = activeReservations l.
Proof.
  intros Hr. unfold activeReservations. rewrite filter_cons.
  destruct (decide (r_status r = ACTIVE)); [contradiction|reflexivity].
Qed.

(** A terminal reservation in the middle of the list is invisible. *)
Lemma activeReservations_skip l1 r l2 :
  r_status r <> ACTIVE ->
  activeReservations (l1 ++ r :: l2) = activeReservations (l1 ++ l2).
Proof.
  intros Hr.
  rewrite !activeReservations_app, (activeReservations_terminal r l2 Hr).
  reflexivity.
Qed.

Lemma expiryTimes_same e act :
  (forall r, r ∈ act -> r_expiresAt r = e) ->
  expiryTimes Date_parse act
  = replicate (length act) (Timer.Date_getTime Date_parse e).
Proof.
  induction act as [|r act IH]; intros Hall; [reflexivity|].
  cbn. rewrite (Hall r) by apply list_elem_of_here. f_equal.
  apply IH. intros r' Hr'. apply Hall, list_elem_of_further, Hr'.
Qed.

Lemma getTime_cases e :
  Timer.Date_getTime Date_parse e = NaN
  \/ exists t, Timer.Date_getTime Date_parse e = Fin t.
Proof.
  unfold Timer.Date_getTime. destruct (Date_parse e) as [t|]; eauto.
Qed.

Lemma fold_max_same (x : jsnum Z) n :
  (x = NaN \/ exists t, x = Fin t) ->
  fold_left Math_max2 (replicate n x) x = x.
Proof.
  intros Hx. induction n as [|n IH]; [reflexivity|]. cbn [replicate fold_left].
  replace (Math_max2 x x) with x; [exact IH|].
  destruct Hx as [->|(t & ->)]; [reflexivity|]. cbn.
  rewrite Z.ltb_irrefl. reflexivity.
Qed.

Lemma fold_min_same (x : jsnum Z) n :
  (x = NaN \/ exists t, x = Fin t) ->
  fold_left Math_min2 (replicate n x) x = x.
Proof.
  intros Hx. induction n as [|n IH]; [reflexivity|]. cbn [replicate fold_left].
  replace (Math_min2 x x) with x; [exact IH|].
  destruct Hx as [->|(t & ->)]; [reflexivity|]. cbn.
  rewrite Z.ltb_irrefl. reflexivity.
Qed.

(** The largest and the smallest of [n + 1] copies of one time. *)
Lemma Math_max_same (x : jsnum Z) n :
  (x = NaN \/ exists t, x = Fin t) -> Math_max (replicate (S n) x) = x.
Proof.
  intros Hx. unfold Math_max. cbn [replicate fold_left].
  replace (Math_max2 NegInf x) with x; [apply fold_max_same, Hx|].
  destruct Hx as [->|(t & ->)]; reflexivity.
Qed.

Lemma Math_min_same (x : jsnum Z) n :
  (x = NaN \/ exists t, x = Fin t) -> Math_min (replicate (S n) x) = x.
Proof.
  intros Hx. unfold Math_min. cbn [replicate fold_left].
  replace (Math_min2 PosInf x) with x; [apply fold_min_same, Hx|].
  destruct Hx as [->|(t & ->)]; reflexivity.
Qed.
End Target.

End PageFacts.

(** C4.  When all ACTIVE reservations carry one and the same [expiresAt],
    the revision that takes the latest deadline and the revision that takes
    the earliest compute the same timer target, which is that common
    deadline; and with no ACTIVE reservation both are undefined. *)
Theorem C4_max_and_min_targets_agree
    (Date_parse : string -> option Z) (Date_toISOString : Z -> string)
    (rs : list ProductsPage.Reservation) (e : string) :
  (forall r, r ∈ rs -> ProductsPage.r_status r = ProductsPage.ACTIVE ->
             ProductsPage.r_expiresAt r = e) ->
  ProductsPage.nextExpirationIso Date_parse Date_toISOString rs
  = ProductsPage.nextExpirationIso_min Date_parse Date_toISOString rs
  /\ (ProductsPage.activeReservations rs = [] ->
      ProductsPage.nextExpirationIso Date_parse Date_toISOString rs
      = ProductsPage.Value None
      /\ ProductsPage.nextExpirationIso_min Date_parse Date_toISOString rs
         = ProductsPage.Value None)
  /\ (ProductsPage.activeReservations rs <> [] ->
      ProductsPage.nextExpirationIso Date_parse Date_toISOString rs
      = ProductsPage.toISOString Date_toISOString
          (Timer.Date_getTime Date_parse e)).
Proof.
  intros Hsame.
  unfold ProductsPage.nextExpirationIso, ProductsPage.nextExpirationIso_min.
  assert (Hact : forall r, r ∈ ProductsPage.activeReservations rs ->
                           ProductsPage.r_expiresAt r = e).
  { intros r Hr. apply PageFacts.activeReservations_status in Hr as [Hin Hst].
    exact (Hsame r Hin Hst). }
  rewrite (PageFacts.expiryTimes_same Date_parse e _ Hact).
  destruct (ProductsPage.activeReservations rs) as [|r act]; cbn [length Nat.eqb].
  - split; [reflexivity|]. split; [intros _; split; reflexivity|].
    intros Hne. contradiction.
  - rewrite PageFacts.Math_max_same, PageFacts.Math_min_same
      by apply PageFacts.getTime_cases.
    split; [reflexivity|]. split; [discriminate|]. reflexivity.
Qed.

Lemma C4_max_and_min_witness :
  ProductsPage.nextExpirationIso Samples.parseAll pretty
    [Samples.hold1; Samples.hold2; Samples.hold3]
  = ProductsPage.nextExpirationIso_min Samples.parseAll pretty
      [Samples.hold1; Samples.hold2; Samples.hold3].
Proof.
  refine (proj1 (C4_max_and_min_targets_agree Samples.parseAll pretty
                   [Samples.hold1; Samples.hold2; Samples.hold3]
                   "2025-12-04T12:34:56.000Z" _)).
  intros r Hr Hst.
  apply list_elem_of_In in Hr. cbn in Hr.
  destruct Hr as [<-|[<-|[<-|[]]]]; [reflexivity|discriminate|reflexivity].
Defined.

(** C7.  The timer target is computed from the ACTIVE reservations alone:
    [activeReservations] holds exactly the reservations whose status is
    ACTIVE, and replacing a COMPLETED or EXPIRED reservation by any other
    terminal one (another [expiresAt], say), or dropping it, changes the
    target in neither revision. *)
Theorem C7_timer_target_reads_only_active
    (Date_parse : string -> option Z) (Date_toISOString : Z -> string)
    (l1 l2 : list ProductsPage.Reservation) (r : ProductsPage.Reservation) :
  (ProductsPage.r_status r = ProductsPage.COMPLETED
   \/ ProductsPage.r_status r = ProductsPage.EXPIRED) ->
  (r ∉ ProductsPage.activeReservations (l1 ++ r :: l2))
  /\ (forall x, x ∈ ProductsPage.activeReservations (l1 ++ r :: l2) ->
        x ∈ l1 ++ r :: l2
        /\ ProductsPage.r_status x = ProductsPage.ACTIVE)
  /\ ProductsPage.activeReservations (l1 ++ r :: l2)
     = ProductsPage.activeReservations (l1 ++ l2)
  /\ ProductsPage.nextExpirationIso Date_parse Date_toISOString (l1 ++ r :: l2)
     = ProductsPage.nextExpirationIso Date_parse Date_toISOString (l1 ++ l2)
  /\ ProductsPage.nextExpirationIso_min Date_parse Date_toISOString
       (l1 ++ r :: l2)
     = ProductsPage.nextExpirationIso_min Date_parse Date_toISOString
         (l1 ++ l2)
  /\ (forall r',
        ProductsPage.r_status r' = ProductsPage.COMPLETED
        \/ ProductsPage.r_status r' = ProductsPage.EXPIRED ->
        ProductsPage.nextExpirationIso Date_parse Date_toISOString
          (l1 ++ r' :: l2)
        = ProductsPage.nextExpirationIso Date_parse Date_toISOString
            (l1 ++ r :: l2)
        /\ ProductsPage.nextExpirationIso_min Date_parse Date_toISOString
             (l1 ++ r' :: l2)
           = ProductsPage.nextExpirationIso_min Date_parse Date_toISOString
               (l1 ++ r :: l2)).
Proof.
  intros Hterm.
  assert (Hr : ProductsPage.r_status r <> ProductsPage.ACTIVE)
    by (destruct Hterm as [-> | ->]; discriminate).
  pose proof (PageFacts.activeReservations_skip l1 r l2 Hr) as Hskip.
  split; [|split; [|split; [|split; [|split]]]].
  - intros Hin. apply PageFacts.activeReservations_status in Hin as [_ Hst].
    contradiction.
  - intros x Hx. apply PageFacts.activeReservations_status, Hx.
  - exact Hskip.
  - unfold ProductsPage.nextExpirationIso. rewrite Hskip. reflexivity.
  - unfold ProductsPage.nextExpirationIso_min. rewrite Hskip. reflexivity.
  - intros r' Hterm'.
    assert (Hr' : ProductsPage.r_status r' <> ProductsPage.ACTIVE)
      by (destruct Hterm' as [-> | ->]; discriminate).
    unfold ProductsPage.nextExpirationIso, ProductsPage.nextExpirationIso_min.
    rewrite Hskip, (PageFacts.activeReservations_skip l1 r' l2 Hr').
    split; reflexivity.
Qed.

Lemma C7_timer_target_witness :
  ProductsPage.nextExpirationIso Samples.parseAll pretty
    ([Samples.hold1] ++ Samples.hold2 :: [Samples.hold3])
  = ProductsPage.nextExpirationIso Samples.parseAll pretty
      ([Samples.hold1] ++ [Samples.hold3]).
Proof.
  refine (proj1 (proj2 (proj2 (proj2
    (C7_timer_target_reads_only_active Samples.parseAll pretty
       [Samples.hold1] [Samples.hold3] Samples.hold2 _))))).
  right. reflexivity.
Defined.

(** *** The stock patch *)

Module PatchFacts.
Import ProductsPage.

Section MapFacts.
Context {V : Type}.
Implicit Types (m : list (string * V)) (k : string).

Lemma Map_set_fresh k v m :
  ~ In k (map fst m) -> Map_set k v m = m ++ [(k, v)].
Proof.
  induction m as [|[k' v'] m IH]; intros Hk; [reflexivity|].
  cbn in Hk |- *. destruct (decide (k = k')) as [->|Hne]; [tauto|].
  rewrite IH by tauto. reflexivity.
Qed.

Lemma Map_new_go (entries : list (string * V)) : forall acc,
  List.NoDup (map fst (acc ++ entries)) ->
  fold_left (fun m e => Map_set (fst e) (snd e) m) entries acc
  = acc ++ entries.
Proof.
  induction entries as [|[k v] entries IH]; intros acc Hnd.
  - rewrite app_nil_r. reflexivity.
  - cbn [fold_left fst snd].
    rewrite Map_set_fresh.
    + rewrite IH; rewrite <- app_assoc; [reflexivity|exact Hnd].
    + rewrite map_app in Hnd. cbn in Hnd.
      apply NoDup_remove_2 in Hnd. rewrite in_app_iff in Hnd. tauto.
Qed.

(** With pairwise distinct keys the map lists its entries as given. *)
Lemma Map_new_nodup (entries : list (string * V)) :
  List.NoDup (map fst entries) -> Map_new entries = entries.
Proof. intros Hnd. unfold Map_new. apply (Map_new_go entries []), Hnd. Qed.

Lemma onKey_absent k f m : ~ In k (map fst m) -> map (onKey k f) m = m.
Proof.
  induction m as [|[k' v'] m IH]; intros Hk; [reflexivity|].
  cbn in Hk |- *. unfold onKey at 1; cbn.
  destruct (decide (k = k')) as [->|Hne]; [tauto|].
  rewrite IH by tauto. reflexivity.
Qed.

Lemma Map_get_absent k m : ~ In k (map fst m) -> Map_get k m = None.
Proof.
  induction m as [|[k' v'] m IH]; intros Hk; [reflexivity|].
  cbn in Hk |- *. destruct (decide (k = k')) as [->|Hne]; [tauto|].
  apply IH. tauto.
Qed.

(** One [get]-then-[set] round rewrites the entry under the key and
    nothing else. *)
Lemma get_set_onKey k f m :
  List.NoDup (map fst m) ->
  match Map_get k m with
  | Some existing => Map_set k (f existing) m
  | None => m
  end = map (onKey k f) m.
Proof.
  induction m as [|[k' v'] m IH]; intros Hnd; [reflexivity|].
  cbn in Hnd. apply List.NoDup_cons_iff in Hnd as [Hk' Hnd].
  cbn. unfold onKey at 1; cbn.
  destruct (decide (k = k')) as [->|Hne].
  - rewrite onKey_absent by exact Hk'. reflexivity.
  - specialize (IH Hnd). destruct (Map_get k m) as [e|]; rewrite <- IH;
      reflexivity.
Qed.

Lemma onKey_keys k f m : map fst (map (onKey k f) m) = map fst m.
Proof. rewrite map_map. reflexivity. Qed.
End MapFacts.

Lemma patchAt_id k us : forall p, p_id (patchAt k us p) = p_id p.
Proof.
  unfold patchAt. induction us as [|u us IH]; intros p; [reflexivity|].
  cbn [fold_left]. rewrite IH. destruct (decide (u_id u = k)); reflexivity.
Qed.

Lemma patchAt_name k us : forall p, p_name (patchAt k us p) = p_name p.
Proof.
  unfold patchAt. induction us as [|u us IH]; intros p; [reflexivity|].
  cbn [fold_left]. rewrite IH. destruct (decide (u_id u = k)); reflexivity.
Qed.

Lemma patchAt_price k us : forall p, p_price (patchAt k us p) = p_price p.
Proof.
  unfold patchAt. induction us as [|u us IH]; intros p; [reflexivity|].
  cbn [fold_left]. rewrite IH. destruct (decide (u_id u = k)); reflexivity.
Qed.

Lemma patchAt_untouched k us : forall p,
  ~ In k (map u_id us) -> patchAt k us p = p.
Proof.
  unfold patchAt. induction us as [|u us IH]; intros p Hk; [reflexivity|].
  cbn in Hk |- *. destruct (decide (u_id u = k)); [tauto|].
  apply IH. tauto.
Qed.

(** Updates for other keys do not matter. *)
Lemma patchAt_filter (ids : list string) k us : forall p,
  k ∈ ids -> patchAt k (filter (fun u => u_id u ∈ ids) us) p = patchAt k us p.
Proof.
  unfold patchAt. induction us as [|u us IH]; intros p Hk; [reflexivity|].
  rewrite filter_cons. cbn [fold_left].
  destruct (decide (u_id u ∈ ids)) as [Hin|Hout]; cbn [fold_left].
  - apply IH, Hk.
  - destruct (decide (u_id u = k)) as [Heq|_];
      [rewrite Heq in Hout; contradiction|].
    apply IH, Hk.
Qed.

Lemma fold_updates us : forall (m : list (string * Product)),
  List.NoDup (map fst m) ->
  fold_left
    (fun m u =>
       match Map_get (u_id u) m with
       | Some existing =>
           Map_set (u_id u) (withStock existing (u_availableStock u)) m
       | None => m
       end) us m
  = map (fun kv => (fst kv, patchAt (fst kv) us (snd kv))) m.
Proof.
  induction us as [|u us IH]; intros m Hnd.
  - cbn. symmetry. erewrite map_ext; [apply map_id|]. intros [k v]. reflexivity.
  - cbn [fold_left].
    rewrite (get_set_onKey (u_id u)
               (fun e => withStock e (u_availableStock u)) m Hnd).
    rewrite IH by (rewrite onKey_keys; exact Hnd).
    rewrite map_map. apply map_ext. intros [k v]. unfold onKey; cbn.
    unfold patchAt. cbn [fold_left].
    destruct (decide (u_id u = k)); reflexivity.
Qed.

(** With pairwise distinct ids, the handler patches every product in
    place. *)
Lemma handleProductsUpdated_patch us prev :
  List.NoDup (map p_id prev) ->
  handleProductsUpdated us prev = map (fun p => patchAt (p_id p) us p) prev.
Proof.
  intros Hnd. unfold handleProductsUpdated.
  destruct prev as [|p0 prev']; [reflexivity|].
  cbn [length Nat.eqb]. set (prev := p0 :: prev') in *.
  assert (Hkeys : map fst (map (fun p => (p_id p, p)) prev) = map p_id prev)
    by (rewrite map_map; reflexivity).
  rewrite Map_new_nodup by (rewrite Hkeys; exact Hnd).
  rewrite fold_updates by (rewrite Hkeys; exact Hnd).
  unfold Map_values. rewrite !map_map. reflexivity.
Qed.
End PatchFacts.

Module PatchFrame.
Import ProductsPage.

Lemma lookup_map {A B} (f : A -> B) (l : list A) : forall i,
  map f l !! i = option_map f (l !! i).
Proof.
  induction l as [|x l IH]; intros [|i]; try reflexivity. apply IH.
Qed.

Lemma withStock_same p : withStock p (p_availableStock p) = p.
Proof. destruct p. reflexivity. Qed.

(** A patched product is the old one with some stock: its own, or the
    stock of an update for its key. *)
Lemma patchAt_stock k us : forall p,
  exists stock,
    patchAt k us p = withStock p stock
    /\ (stock = p_availableStock p
        \/ exists u, In u us /\ u_id u = k /\ stock = u_availableStock u).
Proof.
  unfold patchAt. induction us as [|u us IH]; intros p.
  - exists (p_availableStock p). split; [symmetry; apply withStock_same|].
    left. reflexivity.
  - cbn [fold_left]. destruct (decide (u_id u = k)) as [Hk|Hk].
    + destruct (IH (withStock p (u_availableStock u)))
        as (stock & -> & Hst).
      exists stock. split; [reflexivity|]. right.
      destruct Hst as [->|(u' & Hin & Hu' & ->)].
      * exists u. cbn. auto.
      * exists u'. cbn. auto.
    + destruct (IH p) as (stock & -> & Hst).
      exists stock. split; [reflexivity|].
      destruct Hst as [->|(u' & Hin & Hu' & ->)]; [left; reflexivity|].
      right. exists u'. cbn. auto.
Qed.
End PatchFrame.

(** C8, as amended.  For a products list whose ids are pairwise distinct,
    [handleProductsUpdated] changes nothing but the [availableStock] of the
    products named by an update: ids, names and prices stay as they were,
    position by position; no product is added, removed or moved; a product
    without an update is unchanged; the new stock of a product is its old
    one or that of an update carrying its id; and updates for ids that are
    not in the list leave no trace. *)
Theorem C8_handleProductsUpdated_frame
    (updates : list ProductsPage.StockUpdate)
    (prev : list ProductsPage.Product) :
  List.NoDup (map ProductsPage.p_id prev) ->
  let next := ProductsPage.handleProductsUpdated updates prev in
  map ProductsPage.p_id next = map ProductsPage.p_id prev
  /\ map ProductsPage.p_name next = map ProductsPage.p_name prev
  /\ map ProductsPage.p_price next = map ProductsPage.p_price prev
  /\ length next = length prev
  /\ (forall i p, prev !! i = Some p ->
        ~ In (ProductsPage.p_id p) (map ProductsPage.u_id updates) ->
        next !! i = Some p)
  /\ (forall i p, prev !! i = Some p ->
        exists stock,
          next !! i = Some (ProductsPage.withStock p stock)
          /\ (stock = ProductsPage.p_availableStock p
              \/ exists u, In u updates
                   /\ ProductsPage.u_id u = ProductsPage.p_id p
                   /\ stock = ProductsPage.u_availableStock u))
  /\ ProductsPage.handleProductsUpdated
       (filter (fun u => ProductsPage.u_id u ∈ map ProductsPage.p_id prev)
               updates) prev
     = next.
Proof.
  intros Hnd next. subst next.
  rewrite !(PatchFacts.handleProductsUpdated_patch _ prev Hnd).
  repeat split.
  - rewrite map_map. apply map_ext. intros p. apply PatchFacts.patchAt_id.
  - rewrite map_map. apply map_ext. intros p. apply PatchFacts.patchAt_name.
  - rewrite map_map. apply map_ext. intros p. apply PatchFacts.patchAt_price.
  - apply length_map.
  - intros i p Hi Hout. rewrite PatchFrame.lookup_map, Hi. cbn.
    rewrite PatchFacts.patchAt_untouched by exact Hout. reflexivity.
  - intros i p Hi. rewrite PatchFrame.lookup_map, Hi. cbn.
    destruct (PatchFrame.patchAt_stock (ProductsPage.p_id p) updates p)
      as (stock & -> & Hst).
    exists stock. split; [reflexivity|exact Hst].
  - apply map_ext_in. intros p Hp.
    apply PatchFacts.patchAt_filter.
    apply list_elem_of_In, in_map, Hp.
Qed.

Lemma C8_handleProductsUpdated_witness :
  map ProductsPage.p_name
    (ProductsPage.handleProductsUpdated
       [{| ProductsPage.u_id := "a"; ProductsPage.u_availableStock := 1 |};
        {| ProductsPage.u_id := "zz"; ProductsPage.u_availableStock := 7 |}]
       [Samples.serum])
  = map ProductsPage.p_name [Samples.serum].
Proof.
  refine (proj1 (proj2 (C8_handleProductsUpdated_frame _ [Samples.serum] _))).
  repeat constructor. intros [].
Defined.

(** C8 as stated fails on a list in which two products share an id: the
    [Map] keeps one entry per id, so with no update at all the first of the
    two products is gone. *)
Lemma C8_counterexample_shared_id :
  ProductsPage.handleProductsUpdated [] [Samples.serum; Samples.serumTwin]
  = [Samples.serumTwin]
  /\ length (ProductsPage.handleProductsUpdated []
               [Samples.serum; Samples.serumTwin])
     <> length [Samples.serum; Samples.serumTwin]
  /\ map ProductsPage.p_name
       (ProductsPage.handleProductsUpdated []
          [Samples.serum; Samples.serumTwin])
     <> map ProductsPage.p_name [Samples.serum; Samples.serumTwin].
Proof. repeat split; vm_compute; discriminate. Qed.

(** *** The page as a transition system *)

Module MachineFacts.
Import ProductsPage.

(** Unfold the handlers down to the state setters. *)
Ltac open_handlers :=
  unfold step, handleTimerElapsed, handleReserve_click,
    handleReserve_settled, openPaymentModal, closePaymentModal,
    handleConfirmPayment_click, handleConfirmPayment_settled,
    handleReleaseReservation_settled, handleResetDatabase_click,
    handleResetDatabase_settled, onQuantityChange, onProductClick,
    clearSelection, expireToast, reloadAll, addToast in *.

(** An invariant of the states and a property of the requests carry over
    from single steps to runs. *)
Lemma run_invariant (allowed : Event -> Prop) (P : PageState -> Prop)
    (Q : PageState -> Request -> Prop) :
  (forall ev s, allowed ev -> P s ->
     P (fst (step ev s)) /\ Forall (Q s) (snd (step ev s))) ->
  forall evs s, Forall allowed evs -> P s ->
    P (fst (run evs s))
    /\ Forall (fun rq => exists s', P s' /\ Q s' rq) (snd (run evs s)).
Proof.
  intros Hstep. induction evs as [|ev evs IH]; intros s Hall HP.
  - split; [exact HP|constructor].
  - apply Forall_cons in Hall as [Hev Hall].
    destruct (Hstep ev s Hev HP) as [HP1 HQ1].
    cbn [run]. destruct (step ev s) as [s1 out1]. cbn [fst snd] in *.
    destruct (IH s1 Hall HP1) as [HP2 HQ2].
    destruct (run evs s1) as [s2 out2]. cbn [fst snd] in *.
    split; [exact HP2|]. apply Forall_app. split; [|exact HQ2].
    eapply Forall_impl; [exact HQ1|]. intros rq Hrq. exists s. auto.
Qed.

(** What a step does to the quantity field. *)
Lemma step_quantity ev s :
  quantity (fst (step ev s)) = quantity s
  \/ quantity (fst (step ev s)) = Fin 1%Q
  \/ exists n, ev = QuantityChanged n
       /\ quantity (fst (step ev s)) = Math_max2 (Fin 1%Q) n.
Proof.
  destruct ev; open_handlers;
    try (right; right; eexists; split; reflexivity);
    repeat case_match; cbn; auto.
Qed.

(** Only a click on Reserve posts a reservation, with the quantity of
    that moment, which the guard has let through. *)
Lemma step_posts ev s body :
  In (PostReservation body) (snd (step ev s)) ->
  b_quantity body = quantity s /\ js_le (quantity s) (Fin 0%Q) = false.
Proof.
  destruct ev; open_handlers; repeat case_match; cbn;
    try (intros []; fail); try (intros [[=]|[]]; fail).
  intros [[= <-]|[]]. cbn. auto.
Qed.

Lemma Math_max2_at_least_one (v : NumberFieldValue) :
  atLeastOne (Math_max2 (Fin 1%Q) (Number_of v)).
Proof.
  assert (H : forall q, atLeastOne (Math_max2 (Fin 1%Q) (Fin q))).
  { intros q. cbn. destruct (Qle_bool q 1) eqn:Hq; cbn.
    - exists 1%Q. split; [reflexivity|apply Qle_refl].
    - exists q. split; [reflexivity|].
      apply Qlt_le_weak, Qnot_le_lt.
      intros Hle. apply Qle_bool_iff in Hle. congruence. }
  destruct v as [|q]; apply H.
Qed.

Lemma at_least_one_positive (q : Q) : (1 <= q)%Q -> (0 < q)%Q.
Proof. intros H. apply (Qlt_le_trans 0 1 q); [reflexivity|exact H]. Qed.

Lemma step_keeps_at_least_one ev s :
  fromNumberField ev ->
  atLeastOne (quantity s) -> atLeastOne (quantity (fst (step ev s))).
Proof.
  intros Hnum Hs.
  destruct (step_quantity ev s) as [-> | [-> | (n & -> & ->)]];
    [exact Hs | exists 1%Q; split; [reflexivity|apply Qle_refl] |].
  destruct Hnum as (v & ->). apply Math_max2_at_least_one.
Qed.





End MachineFacts.

(** C3.  In every state that the page reaches from its initial state,
    the quantity field (an input of type number) delivering its values,
    the quantity held by the page is a finite number that is at least 1,
    and every reservation request that the page sends carries that
    quantity: a number at least 1, so greater than 0, also as
    [JSON.stringify] writes it.  The input handler stores
    [Math.max(1, Number(v))], and [handleReserve] sends nothing when the
    quantity is at most 0: it shows the error toast instead. *)
Theorem C3_reserve_quantity_at_least_one (evs : list ProductsPage.Event) :
  Forall ProductsPage.fromNumberField evs ->
  (exists q,
     ProductsPage.quantity (fst (ProductsPage.run evs ProductsPage.initial))
     = Fin q
     /\ (1 <= q)%Q)
  /\ (forall body,
        In (ProductsPage.PostReservation body)
           (snd (ProductsPage.run evs ProductsPage.initial)) ->
        exists q,
          ProductsPage.b_quantity body = Fin q
          /\ (1 <= q)%Q /\ (0 < q)%Q
          /\ ProductsPage.JSON_number (ProductsPage.b_quantity body) = Some q)
  /\ (forall n s0,
        ProductsPage.quantity (ProductsPage.onQuantityChange n s0)
        = Math_max2 (Fin 1%Q) n)
  /\ (forall v s0,
        exists q,
          ProductsPage.quantity
            (ProductsPage.onQuantityChange (ProductsPage.Number_of v) s0)
          = Fin q
          /\ (1 <= q)%Q)
  /\ (forall s0,
        js_le (ProductsPage.quantity s0) (Fin 0%Q) = true ->
        snd (ProductsPage.handleReserve_click s0) = []
        /\ (ProductsPage.truthyId (ProductsPage.userId s0) = true ->
            ProductsPage.selectedProduct s0 <> None ->
            fst (ProductsPage.handleReserve_click s0)
            = ProductsPage.addToast (ProductsPage.toastCounter s0)
                ProductsPage.error "Quantity must be at least 1." s0)).
Proof.
  intros Hnum.
  destruct (MachineFacts.run_invariant ProductsPage.fromNumberField
              (fun s => ProductsPage.atLeastOne (ProductsPage.quantity s))
              (fun s rq => forall body, rq = ProductsPage.PostReservation body ->
                             ProductsPage.b_quantity body
                             = ProductsPage.quantity s))
    with (evs := evs) (s := ProductsPage.initial) as [Hstate Hreqs].
  - intros ev s Hev Hs. split; [apply MachineFacts.step_keeps_at_least_one; auto|].
    apply Forall_forall. intros rq Hrq body ->.
    apply list_elem_of_In in Hrq.
    apply (MachineFacts.step_posts ev s body Hrq).
  - exact Hnum.
  - exists 1%Q. split; [reflexivity|apply Qle_refl].
  - split; [exact Hstate|]. split; [|split; [|split]].
    + intros body Hin. rewrite Forall_forall in Hreqs.
      destruct (Hreqs _ (proj2 (list_elem_of_In _ _) Hin))
        as (s' & (q & Hq & Hle) & Hb).
      exists q. rewrite (Hb body eq_refl), Hq.
      split; [reflexivity|]. split; [exact Hle|].
      split; [exact (MachineFacts.at_least_one_positive q Hle)|reflexivity].
    + reflexivity.
    + intros v s0. exact (MachineFacts.Math_max2_at_least_one v).
    + intros s0 Hle. unfold ProductsPage.handleReserve_click,
        ProductsPage.truthyId.
      destruct (ProductsPage.userId s0) as [u|]; [|split; [reflexivity|]];
        [|discriminate].
      destruct (truthy u); [|split; [reflexivity|discriminate]].
      destruct (ProductsPage.selectedProduct s0) as [p|];
        [|split; [reflexivity|intros _ Hsel; contradiction]].
      rewrite Hle. split; reflexivity.
Qed.

Lemma C3_reserve_quantity_witness :
  exists q,
    ProductsPage.quantity
      (fst (ProductsPage.run
              [ProductsPage.Mounted "u1";
               ProductsPage.ProductClicked Samples.serum;
               ProductsPage.QuantityChanged
                 (ProductsPage.Number_of ProductsPage.EmptyValue);
               ProductsPage.QuantityChanged
                 (ProductsPage.Number_of (ProductsPage.FloatValue 3));
               ProductsPage.ReserveClicked]
              ProductsPage.initial))
    = Fin q
    /\ (1 <= q)%Q.
Proof.
  refine (proj1 (C3_reserve_quantity_at_least_one _ _)).
  repeat first [exact I | eexists; reflexivity | constructor].
Defined.

(** C5.  When the reservation request fails, [handleReserve] adds exactly
    one toast, of type error: with the text about available stock when the
    error message contains the words Not enough stock, else with the
    error's own message; and neither the products nor the reservations
    are touched, by the click or by the failure. *)
Theorem C5_reserve_failure_toast
    (cap : ProductsPage.PageState) (p : ProductsPage.Product)
    (fr : FetchResult ProductsPage.Reservation) (e : Thrown)
    (o : Settled (list ProductsPage.Product * list ProductsPage.Reservation))
    (s : ProductsPage.PageState) :
  fetchJSON fr = Rejected e ->
  let s' := ProductsPage.handleReserve_settled cap p (fetchJSON fr) o s in
  let msg := message_or e "Failed to create reservation." in
  (exists t,
     ProductsPage.toasts s' = ProductsPage.toasts s ++ [t]
     /\ ProductsPage.t_type t = ProductsPage.error
     /\ ProductsPage.t_message t
        = if includes "Not enough stock" msg
          then "Cannot reserve more than available stock."
          else msg)
  /\ (forall m, e = ErrorObject m -> msg = m)
  /\ ProductsPage.products s' = ProductsPage.products s
  /\ ProductsPage.reservations s' = ProductsPage.reservations s
  /\ (forall s0,
        ProductsPage.products (fst (ProductsPage.handleReserve_click s0))
        = ProductsPage.products s0
        /\ ProductsPage.reservations
             (fst (ProductsPage.handleReserve_click s0))
           = ProductsPage.reservations s0).
Proof.
  intros Hfail s' msg. subst s' msg. rewrite Hfail.
  unfold ProductsPage.handleReserve_settled.
  split; [|split; [|split; [|split]]].
  - destruct (includes _ _); eexists; repeat split.
  - intros m ->. reflexivity.
  - destruct (includes _ _); reflexivity.
  - destruct (includes _ _); reflexivity.
  - intros s0. unfold ProductsPage.handleReserve_click.
    repeat case_match; split; reflexivity.
Qed.

Lemma C5_reserve_failure_witness :
  exists t,
    ProductsPage.toasts
      (ProductsPage.handleReserve_settled Samples.ready Samples.serum
         (fetchJSON
            (Responded {| ok := false; text := "Not enough stock";
                          statusText := "Bad Request";
                          json := Rejected OtherThrown |}))
         (Rejected OtherThrown) Samples.ready)
    = ProductsPage.toasts Samples.ready ++ [t]
    /\ ProductsPage.t_type t = ProductsPage.error
    /\ ProductsPage.t_message t = "Cannot reserve more than available stock.".
Proof.
  exact (proj1 (C5_reserve_failure_toast Samples.ready Samples.serum
                  (Responded {| ok := false; text := "Not enough stock";
                                statusText := "Bad Request";
                                json := Rejected OtherThrown |})
                  (ErrorObject "Not enough stock") (Rejected OtherThrown)
                  Samples.ready eq_refl)).
Defined.



(** ** The anonymous user id *)

Module UserFacts.
Import User.

Lemma truthy_nonempty s : s <> EmptyString -> truthy s = true.
Proof. destruct s; [contradiction|reflexivity]. Qed.

Lemma truthy_true_nonempty s : truthy s = true -> s <> EmptyString.
Proof. destruct s; [discriminate|discriminate]. Qed.

Section Facts.
Variable encodeURIComponent : string -> string.
Variable decodeURIComponent : string -> option string.
Variable uuid : nat -> string.
Variable crypto_randomUUID : option (nat -> string).
Variable fallbackSuffix : nat -> string.

Hypothesis uuid_nonempty : forall n, uuid n <> EmptyString.
Hypothesis randomUUID_nonempty :
  forall f n, crypto_randomUUID = Some f -> f n <> EmptyString.

Abbreviation multi :=
  (getOrCreateUserId encodeURIComponent decodeURIComponent
     crypto_randomUUID fallbackSuffix).
Abbreviation existing := (existingId decodeURIComponent).
Abbreviation chosen :=
  (User.chosen decodeURIComponent crypto_randomUUID fallbackSuffix).

Lemma generateId_truthy n :
  truthy (generateId crypto_randomUUID fallbackSuffix n) = true.
Proof.
  unfold generateId. destruct crypto_randomUUID as [f|] eqn:Hc;
    [|reflexivity].
  apply truthy_nonempty, (randomUUID_nonempty f n eq_refl).
Qed.

Lemma existingId_truthy b x : existing b = Some x -> truthy x = true.
Proof.
  unfold existingId. destruct (or_truthy _ _) as [y|]; [|discriminate].
  destruct (truthy y) eqn:Hy; [|discriminate]. intros [= <-]. exact Hy.
Qed.

(** The three stores are read in the order local, session, cookie. *)
Lemma existingId_priority b :
  (forall x, safeGetLocalStorage b = Some x -> truthy x = true ->
     existing b = Some x)
  /\ (falsy (safeGetLocalStorage b) ->
      forall x, safeGetSessionStorage b = Some x -> truthy x = true ->
        existing b = Some x)
  /\ (falsy (safeGetLocalStorage b) ->
      falsy (safeGetSessionStorage b) ->
      forall x, getCookie decodeURIComponent COOKIE_NAME b = Some x ->
        truthy x = true -> existing b = Some x)
  /\ (falsy (safeGetLocalStorage b) ->
      falsy (safeGetSessionStorage b) ->
      falsy (getCookie decodeURIComponent COOKIE_NAME b) ->
      existing b = None).
Proof.
  unfold existingId, or_truthy, falsy.
  destruct (safeGetLocalStorage b) as [l|];
    destruct (safeGetSessionStorage b) as [t|];
    destruct (getCookie decodeURIComponent COOKIE_NAME b) as [c|];
    repeat split; intros;
    repeat match goal with
           | H : Some _ = Some _ |- _ => injection H as <-
           | H : None = Some _ |- _ => discriminate H
           | H : truthy ?x = _ |- _ => rewrite !H
           end; try reflexivity; try congruence.
Qed.

(** The browser after the sync of the three stores. *)
Lemma synced_local i b ls :
  localStorage b = Some ls ->
  safeGetLocalStorage
    (setCookie encodeURIComponent COOKIE_NAME i
       (safeSetSessionStorage i (safeSetLocalStorage i b)))
  = Some i.
Proof.
  destruct b as [l s c]; cbn. intros ->.
  unfold safeGetLocalStorage, setCookie, safeSetSessionStorage,
    safeSetLocalStorage; cbn.
  destruct s, c; cbn; apply lookup_insert_eq.
Qed.

Lemma synced_session i b ss :
  sessionStorage b = Some ss ->
  safeGetSessionStorage
    (setCookie encodeURIComponent COOKIE_NAME i
       (safeSetSessionStorage i (safeSetLocalStorage i b)))
  = Some i.
Proof.
  destruct b as [l s c]; cbn. intros ->.
  unfold safeGetSessionStorage, setCookie, safeSetSessionStorage,
    safeSetLocalStorage; cbn.
  destruct l, c; cbn; apply lookup_insert_eq.
Qed.

Lemma Map_get_set {V} k (v : V) m :
  ProductsPage.Map_get k (ProductsPage.Map_set k v m) = Some v.
Proof.
  induction m as [|[k' v'] m IH]; cbn.
  - destruct (decide (k = k)); [reflexivity|contradiction].
  - destruct (decide (k = k')) as [->|Hne]; cbn.
    + destruct (decide (k' = k')); [reflexivity|contradiction].
    + destruct (decide (k = k')); [contradiction|exact IH].
Qed.

Lemma synced_cookie i b jar :
  cookieJar b = Some jar ->
  exists jar',
    cookieJar
      (setCookie encodeURIComponent COOKIE_NAME i
         (safeSetSessionStorage i (safeSetLocalStorage i b)))
    = Some jar'
    /\ ProductsPage.Map_get COOKIE_NAME jar' = Some (encodeURIComponent i).
Proof.
  destruct b as [l s c]; cbn. intros ->.
  unfold setCookie, safeSetSessionStorage, safeSetLocalStorage,
    cookie_store; cbn.
  destruct l, s; cbn; eexists; (split; [reflexivity|apply Map_get_set]).
Qed.

Lemma chosen_truthy b draw : truthy (chosen b draw) = true.
Proof.
  unfold User.chosen. destruct (existing b) as [x|] eqn:Hx;
    [exact (existingId_truthy b x Hx)|apply generateId_truthy].
Qed.

Lemma multi_returns w b :
  window w = Some b ->
  exists d,
    multi w
    = (chosen b (draws w),
       {| window :=
            Some (setCookie encodeURIComponent COOKIE_NAME
                    (chosen b (draws w))
                    (safeSetSessionStorage (chosen b (draws w))
                       (safeSetLocalStorage (chosen b (draws w)) b)));
          draws := d |}).
Proof.
  intros Hw. unfold getOrCreateUserId, User.chosen. rewrite Hw.
  destruct (existing b); eexists; reflexivity.
Qed.

Lemma multi_twice w b ls :
  window w = Some b -> localStorage b = Some ls ->
  fst (multi (snd (multi w))) = fst (multi w).
Proof.
  intros Hw Hls. destruct (multi_returns w b Hw) as (d & ->).
  cbn [fst snd]. set (i := chosen b (draws w)).
  set (b1 := setCookie _ _ _ _).
  destruct (multi_returns {| window := Some b1; draws := d |} b1 eq_refl)
    as (d' & ->).
  cbn [fst]. unfold User.chosen at 1.
  pose proof (synced_local i b ls Hls) as Hl. fold b1 in Hl.
  destruct (existingId_priority b1) as (Hfirst & _).
  rewrite (Hfirst i Hl (chosen_truthy b (draws w))). reflexivity.
Qed.

Lemma simple_twice w b ls :
  window w = Some b -> localStorage b = Some ls ->
  exists i w1,
    getOrCreateUserId_simple uuid w = Some (i, w1)
    /\ getOrCreateUserId_simple uuid w1 = Some (i, w1)
    /\ exists b1 ls1, window w1 = Some b1 /\ localStorage b1 = Some ls1
                      /\ ls1 !! key = Some i.
Proof.
  intros Hw Hls.
  assert (Hfresh :
    let i := uuid (draws w) in
    let w1 := {| window :=
                   Some (withLocalStorage (Some (<[key := i]> ls)) b);
                 draws := S (draws w) |} in
    getOrCreateUserId_simple uuid w1 = Some (i, w1)
    /\ exists b1 ls1, window w1 = Some b1 /\ localStorage b1 = Some ls1
                      /\ ls1 !! key = Some i).
  { cbn zeta. split.
    - unfold getOrCreateUserId_simple; cbn.
      rewrite lookup_insert_eq.
      rewrite (truthy_nonempty _ (uuid_nonempty (draws w))). reflexivity.
    - eexists _, _. repeat split. apply lookup_insert_eq. }
  unfold getOrCreateUserId_simple at 1. rewrite Hw, Hls.
  destruct (ls !! key) as [i|] eqn:Hi.
  - destruct (truthy i) eqn:Hti.
    + exists i, w. split; [reflexivity|].
      split; [|exists b, ls; auto].
      unfold getOrCreateUserId_simple. rewrite Hw, Hls, Hi, Hti.
      reflexivity.
    + eexists _, _. split; [reflexivity|exact Hfresh].
  - eexists _, _. split; [reflexivity|exact Hfresh].
Qed.
End Facts.
End UserFacts.

(** ** The engine *)

Module EngineFacts.
Import Engine.

Lemma activeQuantity_app i rs1 rs2 :
  activeQuantity i (rs1 ++ rs2) = activeQuantity i rs1 + activeQuantity i rs2.
Proof. induction rs1 as [|r rs1 IH]; cbn; [reflexivity|]. rewrite IH. lia. Qed.

Lemma activeQuantity_refresh i actor deadline rs :
  activeQuantity i (map (refreshDeadline actor deadline) rs)
  = activeQuantity i rs.
Proof.
  induction rs as [|r rs IH]; cbn; [reflexivity|]. rewrite IH. f_equal.
  unfold refreshDeadline. destruct (_ && _); reflexivity.
Qed.

Lemma ids_refresh actor deadline rs :
  map id (map (refreshDeadline actor deadline) rs) = map id rs.
Proof.
  rewrite map_map. apply map_ext. intros r. unfold refreshDeadline.
  destruct (_ && _); reflexivity.
Qed.

(** The merge adds the requested quantity to the item's ACTIVE sum and
    leaves the sums of the other items alone. *)
Lemma extendActive_quantity actor i q j rs : forall rs' rid,
  extendActive actor i q rs = Some (rs', rid) ->
  activeQuantity j rs'
  = activeQuantity j rs + (if decide (j = i) then q else 0).
Proof.
  induction rs as [|r rs IH]; intros rs' rid; cbn; [discriminate|].
  destruct (bool_decide (actorId r = actor) && isActiveOn i r) eqn:Hm.
  - intros [= <- <-]. cbn. apply andb_prop in Hm as [_ Hact].
    unfold isActiveOn in *; cbn.
    apply andb_prop in Hact as [Hi Hst]. apply bool_decide_eq_true in Hi.
    rewrite Hst, andb_true_r. rewrite Hi.
    destruct (decide (j = i)) as [->|Hne].
    + rewrite bool_decide_eq_true_2 by reflexivity. clear; lia.
    + rewrite bool_decide_eq_false_2 by congruence. clear; lia.
  - destruct (extendActive actor i q rs) as [[rest rid0]|]; [|discriminate].
    intros [= <- <-]. cbn. rewrite (IH rest rid0 eq_refl). clear; lia.
Qed.

Lemma extendActive_id actor i q rs : forall rs' rid,
  extendActive actor i q rs = Some (rs', rid) -> In rid (map id rs').
Proof.
  induction rs as [|r rs IH]; intros rs' rid; cbn; [discriminate|].
  destruct (bool_decide (actorId r = actor) && isActiveOn i r).
  - intros [= <- <-]. left. reflexivity.
  - destruct (extendActive actor i q rs) as [[rest rid0]|]; [|discriminate].
    intros [= <- <-]. right. exact (IH rest rid0 eq_refl).
Qed.

Lemma findById_some rid rs :
  In rid (map id rs) -> exists r, findById rid rs = Some r.
Proof.
  unfold findById. induction rs as [|r rs IH]; cbn; [intros []|].
  intros [Heq|Hin].
  - rewrite Heq, Nat.eqb_refl. eauto.
  - destruct (id r =? rid)%nat; eauto.
Qed.

Section Facts.
Variable TTL : Z.

(** A request that the stock covers succeeds: it takes its quantity
    from the available stock and adds it to the ACTIVE sum. *)
Lemma createOrExtend_success now actor i q s it :
  items s !! i = Some it -> q <= availableQuantity it ->
  exists s' r,
    createOrExtend TTL now actor i q s = (s', Ok r)
    /\ items s'
       = <[i := {| total := total it;
                   availableQuantity := availableQuantity it - q |}]>
           (items s)
    /\ forall j, activeQuantity j (reservations s')
                 = activeQuantity j (reservations s)
                   + (if decide (j = i) then q else 0).
Proof.
  intros Hit Hq. unfold createOrExtend, tryDeduct. rewrite Hit.
  destruct (Z.ltb_spec (availableQuantity it) q) as [|_]; [lia|].
  destruct (extendActive actor i q (reservations s)) as [[rs' rid]|] eqn:He.
  - destruct (findById_some rid
                (map (refreshDeadline actor (now + TTL)) rs')) as (r & ->).
    { rewrite ids_refresh. exact (extendActive_id _ _ _ _ _ _ He). }
    eexists _, r. split; [reflexivity|]. split; [reflexivity|].
    intros j. cbn. rewrite activeQuantity_refresh.
    exact (extendActive_quantity _ _ _ j _ _ _ He).
  - destruct (findById_some (nextId s)
                (map (refreshDeadline actor (now + TTL))
                   (reservations s ++
                      [{| id := nextId s; actorId := actor; itemId := i;
                          quantity := q; status := ACTIVE;
                          expiresAt := now + TTL |}]))) as (r & ->).
    { rewrite ids_refresh, map_app, in_app_iff. right. left. reflexivity. }
    eexists _, r. split; [reflexivity|]. split; [reflexivity|].
    intros j. cbn. rewrite activeQuantity_refresh, activeQuantity_app.
    cbn. unfold isActiveOn; cbn.
    destruct (decide (j = i)) as [->|Hne].
    + rewrite !bool_decide_eq_true_2 by reflexivity. cbn. clear; lia.
    + rewrite bool_decide_eq_false_2 by congruence. cbn. clear; lia.
Qed.

(** A request beyond the stock is refused and changes nothing. *)
Lemma createOrExtend_refused now actor i q s it :
  items s !! i = Some it -> availableQuantity it < q ->
  createOrExtend TTL now actor i q s = (s, Fails InsufficientStock).
Proof.
  intros Hit Hq. unfold createOrExtend, tryDeduct. rewrite Hit.
  destruct (Z.ltb_spec (availableQuantity it) q); [reflexivity|lia].
Qed.
End Facts.
End EngineFacts.

Module EngineRuns.
Import Engine.

Section Runs.
Variable TTL : Z.

Lemma count_cons f so tr :
  count f (so :: tr) = (if f (snd so) then 1 else 0) + count f tr.
Proof.
  unfold count. rewrite filter_cons.
  destruct (decide (f (snd so) = true)) as [->|Hf].
  - cbn [length]. lia.
  - destruct (f (snd so)); [congruence|]. lia.
Qed.

(** [K] requests for [q] units each, served one after the other from
    [a] available units: [min(K, a / q)] succeed, all others are
    refused for lack of stock, and the conservation law holds after
    each of them. *)
Lemma requests_served i N q : 0 < q ->
  forall reqs s a,
    items s !! i = Some {| total := N; availableQuantity := a |} ->
    0 <= a -> a + activeQuantity i (reservations s) = N ->
    let tr := trace TTL (requests i q reqs) s in
    count succeeded tr = Z.min (Z.of_nat (length reqs)) (a / q)
    /\ count outOfStock tr
       = Z.of_nat (length reqs) - Z.min (Z.of_nat (length reqs)) (a / q)
    /\ Forall (fun so => conserved i N (fst so)) tr.
Proof.
  intros Hq. induction reqs as [|[now actor] reqs IH]; intros s a Hit Ha Hsum.
  - pose proof (Z.div_pos a q Ha Hq) as Hdiv.
    change (trace TTL (requests i q []) s) with (@nil (Store * Outcome)).
    unfold count. cbn [filter list_filter length Z.of_nat].
    clear - Hdiv. repeat split; [lia|lia|constructor].
  - cbn [requests map trace apply fst snd]. fold (requests i q reqs).
    rewrite !count_cons.
    destruct (Z.le_gt_cases q a) as [Hle|Hgt].
    + destruct (EngineFacts.createOrExtend_success TTL now actor i q s _
                  Hit Hle) as (s' & r & -> & Hits & Hact).
      cbn [fst snd succeeded outOfStock total availableQuantity] in *.
      assert (Hit' : items s' !! i
                     = Some {| total := N; availableQuantity := a - q |})
        by (rewrite Hits; apply lookup_insert_eq).
      assert (Hsum' : a - q + activeQuantity i (reservations s') = N).
      { rewrite (Hact i). destruct (decide (i = i)); [|contradiction].
        clear - Hsum. lia. }
      destruct (IH s' (a - q) Hit' ltac:(lia) Hsum') as (Hs & Ho & Hc).
      assert (Hdiv : (a - q) / q = a / q - 1).
      { replace (a - q) with (a + (-1) * q) by lia.
        rewrite Z.div_add by lia. lia. }
      rewrite Hdiv in Hs, Ho. cbn [length].
      split; [lia|]. split; [lia|].
      constructor; [|exact Hc]. exists (a - q). cbn [fst]. auto with lia.
    + rewrite (EngineFacts.createOrExtend_refused TTL now actor i q s _
                 Hit Hgt).
      cbn [fst snd succeeded outOfStock].
      destruct (IH s a Hit Ha Hsum) as (Hs & Ho & Hc).
      assert (Hdiv : a / q = 0) by (apply Z.div_small; lia).
      rewrite Hdiv in *. cbn [length].
      split; [lia|]. split; [lia|].
      constructor; [|exact Hc]. exists a. cbn [fst]. auto.
Qed.
End Runs.
End EngineRuns.

Module EngineConservation.
Import Engine.

Lemma withStatus_inactive j st r :
  st <> ACTIVE -> isActiveOn j (withStatus st r) = false.
Proof.
  intros Hst. unfold isActiveOn; cbn.
  rewrite (bool_decide_eq_false_2 (st = ACTIVE)) by exact Hst.
  apply andb_false_r.
Qed.

(** Saving a record that is no longer ACTIVE over the one found by id
    takes the old record's share out of the ACTIVE sum. *)
Lemma save_quantity j rid r' rs : forall r,
  findById rid rs = Some r -> isActiveOn j r' = false ->
  activeQuantity j (save rid r' rs)
  = activeQuantity j rs - (if isActiveOn j r then quantity r else 0).
Proof.
  unfold findById. induction rs as [|x rs IH]; intros r; cbn; [discriminate|].
  destruct (id x =? rid)%nat.
  - intros [= ->] Hr'. cbn. rewrite Hr'. clear; lia.
  - intros Hfind Hr'. cbn. rewrite (IH r Hfind Hr'). clear; lia.
Qed.

Lemma findById_In rid rs r : findById rid rs = Some r -> In r rs.
Proof. unfold findById. intros H. apply find_some in H. tauto. Qed.

Lemma save_positive rid r' rs :
  0 < quantity r' -> Forall (fun r => 0 < quantity r) rs ->
  Forall (fun r => 0 < quantity r) (save rid r' rs).
Proof.
  intros Hr'. induction 1 as [|x rs Hx Hrs IH]; cbn; [constructor|].
  destruct (id x =? rid)%nat; constructor; auto.
Qed.

Lemma extendActive_positive actor i q rs : forall rs' rid,
  0 < q -> Forall (fun r => 0 < quantity r) rs ->
  extendActive actor i q rs = Some (rs', rid) ->
  Forall (fun r => 0 < quantity r) rs'.
Proof.
  induction rs as [|x rs IH]; intros rs' rid Hq Hall; cbn; [discriminate|].
  apply Forall_cons in Hall as [Hx Hall].
  destruct (bool_decide (actorId x = actor) && isActiveOn i x).
  - intros [= <- <-]. constructor; [cbn; clear - Hx Hq; lia|exact Hall].
  - destruct (extendActive actor i q rs) as [[rest rid0]|]; [|discriminate].
    intros [= <- <-]. constructor; [exact Hx|].
    exact (IH rest rid0 Hq Hall eq_refl).
Qed.

Lemma refresh_positive actor deadline rs :
  Forall (fun r => 0 < quantity r) rs ->
  Forall (fun r => 0 < quantity r) (map (refreshDeadline actor deadline) rs).
Proof.
  induction 1 as [|x rs Hx Hrs IH]; cbn; constructor; [|exact IH].
  unfold refreshDeadline. destruct (_ && _); exact Hx.
Qed.

Lemma restore_inr j q its its' :
  restore j q its = inr its' ->
  exists it, its !! j = Some it
    /\ availableQuantity it + q <= total it
    /\ its' = <[j := {| total := total it;
                        availableQuantity := availableQuantity it + q |}]>
                its.
Proof.
  unfold restore. destruct (its !! j) as [it|]; [|discriminate].
  destruct (Z.ltb_spec (total it) (availableQuantity it + q));
    [discriminate|].
  intros [= <-]. exists it. auto.
Qed.

Section Steps.
Variable TTL : Z.
Variables (i : string) (N : Z).

(** What is kept from one observable point to the next. *)
Local Abbreviation kept s :=
  (conserved i N s /\ Forall (fun r => 0 < quantity r) (reservations s)).

Lemma createOrExtend_kept now actor j q s :
  0 < q -> kept s -> kept (fst (createOrExtend TTL now actor j q s)).
Proof.
  intros Hq [(a & Hit & Ha & Hsum) Hpos].
  destruct (items s !! j) as [it|] eqn:Hj.
  2:{ unfold createOrExtend, tryDeduct. rewrite Hj. split; [exists a|];
      auto. }
  destruct (Z.le_gt_cases q (availableQuantity it)) as [Hle|Hgt].
  2:{ rewrite (EngineFacts.createOrExtend_refused TTL now actor j q s it
                 Hj Hgt). split; [exists a|]; auto. }
  assert (Hpos' : Forall (fun r => 0 < quantity r)
                    (reservations (fst (createOrExtend TTL now actor j q s)))).
  { unfold createOrExtend, tryDeduct. rewrite Hj.
    destruct (Z.ltb_spec (availableQuantity it) q); [exact Hpos|].
    destruct (extendActive actor j q (reservations s))
      as [[rs' rid]|] eqn:He.
    - destruct (findById _ _); cbn; [|exact Hpos].
      apply refresh_positive.
      exact (extendActive_positive _ _ _ _ _ _ Hq Hpos He).
    - destruct (findById _ _); cbn; [|exact Hpos].
      apply refresh_positive, Forall_app. split; [exact Hpos|].
      constructor; [exact Hq|constructor]. }
  split; [|exact Hpos'].
  destruct (EngineFacts.createOrExtend_success TTL now actor j q s it
              Hj Hle) as (s' & r & Hrun & Hits & Hact).
  rewrite Hrun. cbn [fst]. unfold conserved. rewrite (Hact i).
  destruct (decide (i = j)) as [<-|Hne].
  - rewrite Hit in Hj. injection Hj as <-. cbn in *.
    exists (a - q). rewrite Hits, lookup_insert_eq.
    split; [reflexivity|]. clear - Ha Hsum Hle. lia.
  - exists a. rewrite Hits, lookup_insert_ne by congruence.
    split; [exact Hit|]. clear - Ha Hsum. lia.
Qed.

(** Cancel and Expire share this step: the found ACTIVE record gives
    its quantity back and is saved as a terminal one. *)
Lemma release_kept rid r r' s its :
  kept s ->
  findById rid (reservations s) = Some r ->
  status r = ACTIVE ->
  restore (itemId r) (quantity r) (items s) = inr its ->
  quantity r' = quantity r -> isActiveOn i r' = false ->
  kept {| items := its; reservations := save rid r' (reservations s);
          nextId := nextId s |}.
Proof.
  intros [(a & Hit & Ha & Hsum) Hpos] Hfind Hst Hres Hq' Hr'.
  pose proof (findById_In _ _ _ Hfind) as Hin.
  assert (Hqr : 0 < quantity r).
  { rewrite List.Forall_forall in Hpos. exact (Hpos r Hin). }
  split; [|cbn; apply save_positive; [rewrite Hq'; exact Hqr|exact Hpos]].
  destruct (restore_inr _ _ _ _ Hres) as (it & Hj & Hroom & ->).
  unfold conserved. cbn [items reservations].
  rewrite (save_quantity i rid r' _ r Hfind Hr').
  unfold isActiveOn. rewrite Hst.
  rewrite (bool_decide_eq_true_2 (ACTIVE = ACTIVE)) by reflexivity.
  rewrite andb_true_r.
  destruct (decide (itemId r = i)) as [Hi|Hne].
  - rewrite Hi in *. rewrite Hit in Hj. injection Hj as <-. cbn in *.
    rewrite bool_decide_eq_true_2 by reflexivity.
    exists (a + quantity r). rewrite lookup_insert_eq.
    split; [reflexivity|]. clear - Ha Hsum Hqr. lia.
  - rewrite bool_decide_eq_false_2 by exact Hne.
    exists a. rewrite lookup_insert_ne by exact Hne.
    split; [exact Hit|]. clear - Ha Hsum. lia.
Qed.

Lemma cancel_kept rid now s : kept s -> kept (fst (cancel rid now s)).
Proof.
  intros Hs. unfold cancel.
  destruct (findById rid (reservations s)) as [r|] eqn:Hfind; [|exact Hs].
  destruct (bool_decide (status r = ACTIVE)) eqn:Hst; [|exact Hs].
  apply bool_decide_eq_true in Hst.
  destruct (restore _ _ _) as [f|its] eqn:Hres; [exact Hs|]. cbn [fst].
  apply (release_kept rid r _ s its Hs Hfind Hst Hres); [reflexivity|].
  unfold isActiveOn; cbn. apply andb_false_r.
Qed.

Lemma expire_kept rid now s : kept s -> kept (fst (expire rid now s)).
Proof.
  intros Hs. unfold expire.
  destruct (findById rid (reservations s)) as [r|] eqn:Hfind; [|exact Hs].
  destruct (bool_decide (status r = ACTIVE) && (expiresAt r <=? now))
    eqn:Hst; [|exact Hs].
  apply andb_prop in Hst as [Hst _]. apply bool_decide_eq_true in Hst.
  destruct (restore _ _ _) as [f|its] eqn:Hres; [exact Hs|]. cbn [fst].
  apply (release_kept rid r _ s its Hs Hfind Hst Hres); [reflexivity|].
  apply withStatus_inactive. discriminate.
Qed.

(** Conservation: from a point at which the law holds, it holds at
    every observable point of any run of Create or Extend, Cancel and
    Expire. *)
Lemma conservation ops : forall s,
  Forall conserving ops ->
  conserved i N s -> Forall (fun r => 0 < quantity r) (reservations s) ->
  Forall (fun so => conserved i N (fst so)) (trace TTL ops s).
Proof.
  induction ops as [|op ops IH]; intros s Hops Hc Hpos; [constructor|].
  apply Forall_cons in Hops as [Hop Hops].
  assert (Hk : kept (fst (apply TTL op s))).
  { destruct op as [now actor j q|rid|rid now|rid now]; cbn [apply].
    - apply createOrExtend_kept; [exact Hop|split; assumption].
    - destruct Hop.
    - apply cancel_kept. split; assumption.
    - apply expire_kept. split; assumption. }
  cbn [trace]. constructor; [exact (proj1 Hk)|].
  apply IH; [exact Hops|exact (proj1 Hk)|exact (proj2 Hk)].
Qed.
End Steps.
End EngineConservation.

(** The scenario of section 8: five units of X; u1 holds 3, u2 is refused
    3, u1 extends by 2, u1 cancels, and a second cancel changes nothing. *)
Example engine_scenario :
  map (fun so =>
         (Engine.availableQuantity <$> Engine.items (fst so) !! "X",
          Engine.activeQuantity "X" (Engine.reservations (fst so)),
          Engine.succeeded (snd so), Engine.outOfStock (snd so)))
      (Engine.trace 120000
         [Engine.CreateOrExtend 0 "u1" "X" 3;
          Engine.CreateOrExtend 1 "u2" "X" 3;
          Engine.CreateOrExtend 2 "u1" "X" 2;
          Engine.Cancel 0 5;
          Engine.Cancel 0 6]
         Samples.fiveOfX)
  = [(Some 2, 3, true, false); (Some 2, 3, false, true);
     (Some 0, 5, true, false); (Some 5, 0, true, false);
     (Some 5, 0, true, false)].
Proof. vm_compute. reflexivity. Qed.

(** C1.  Modelled from the specification, in which the item's row lock
    puts concurrently issued operations into one order.  From an item
    with [N] units, all available and none held, [K] Create or Extend
    requests for [q] units each with [K * q > N], in whatever order they
    obtain the lock: exactly [N / q] succeed and the remaining
    [K - N / q] fail with InsufficientStock; after each of them the
    available quantity is not negative and, together with the quantities of
    the ACTIVE reservations on the item, equals [N].  The same law holds at
    every observable point of any run of Create or Extend, Cancel and
    Expire. *)
Theorem C1_no_oversell_and_conservation
    (TTL : Z) (s0 : Engine.Store) (i : string) (N q : Z)
    (reqs : list (Z * string)) :
  Engine.items s0 !! i
  = Some {| Engine.total := N; Engine.availableQuantity := N |} ->
  Engine.activeQuantity i (Engine.reservations s0) = 0 ->
  0 <= N -> 0 < q ->
  Z.of_nat (length reqs) * q > N ->
  let tr := Engine.trace TTL (Engine.requests i q reqs) s0 in
  Engine.count Engine.succeeded tr = N / q
  /\ Engine.count Engine.outOfStock tr = Z.of_nat (length reqs) - N / q
  /\ Forall (fun so => Engine.conserved i N (fst so)) tr
  /\ (forall ops,
        Forall Engine.conserving ops ->
        Forall (fun r => 0 < Engine.quantity r) (Engine.reservations s0) ->
        Forall (fun so => Engine.conserved i N (fst so))
               (Engine.trace TTL ops s0)).
Proof.
  intros Hit Hnone HN Hq HK tr. subst tr.
  destruct (EngineRuns.requests_served TTL i N q Hq reqs s0 N Hit HN
              ltac:(rewrite Hnone; lia)) as (Hs & Ho & Hc).
  assert (Hmin : Z.min (Z.of_nat (length reqs)) (N / q) = N / q).
  { pose proof (Z.mul_div_le N q Hq) as Hle. clear - Hle HK Hq. nia. }
  rewrite Hmin in Hs, Ho.
  split; [exact Hs|]. split; [exact Ho|]. split; [exact Hc|].
  intros ops Hops Hpos.
  apply (EngineConservation.conservation TTL i N ops s0 Hops); [|exact Hpos].
  exists N. rewrite Hnone. split; [exact Hit|]. split; [exact HN|lia].
Qed.

Lemma C1_no_oversell_witness :
  Engine.count Engine.succeeded
    (Engine.trace 120000 (Engine.requests "X" 3 [(0, "u1"); (1, "u2")])
       Samples.fiveOfX)
  = 5 / 3.
Proof.
  refine (proj1 (C1_no_oversell_and_conservation 120000 Samples.fiveOfX "X"
                   5 3 [(0, "u1"); (1, "u2")] _ _ _ _ _)).
  - reflexivity.
  - reflexivity.
  - lia.
  - lia.
  - cbn. lia.
Defined.

(** * Further properties of the code *)

(** ** The countdown hook, continued *)

Module TimerMore.
Import Timer.

(** With a target that is a date, the values of a run of ticks are the
    clamped distances to it, reading by reading. *)
Lemma run_ticks_next h t clock : forall c,
  target c = Fin t ->
  map next (run_ticks h c clock)
  = map (fun now => Fin (Z.max (t - now) 0)) clock.
Proof.
  induction clock as [|now clock IH]; intros c Ht; [reflexivity|].
  cbn [run_ticks map]. f_equal.
  - rewrite TimerFacts.tick_next, Ht. reflexivity.
  - apply IH. rewrite TimerFacts.tick_target. exact Ht.
Qed.

Lemma sorted_lookup (l : list Z) : forall j k x y,
  Sorted Z.le l -> (j <= k)%nat -> l !! j = Some x -> l !! k = Some y ->
  x <= y.
Proof.
  intros j k x y Hs. apply Sorted_StronglySorted in Hs;
    [|intros a b c; apply Z.le_trans].
  revert j k x y. induction Hs as [|a l Hs IH Hall]; intros j k x y Hjk Hj Hk.
  - rewrite lookup_nil in Hj. discriminate.
  - destruct j as [|j], k as [|k]; cbn in Hj, Hk.
    + injection Hj as <-. injection Hk as <-. lia.
    + injection Hj as <-. rewrite List.Forall_forall in Hall. apply Hall.
      apply list_elem_of_In. eapply list_elem_of_lookup_2. exact Hk.
    + lia.
    + apply (IH j k); [lia|assumption..].
Qed.

Lemma lifetime_started (Date_parse : string -> option Z) s t h now0 clock :
  s <> EmptyString -> Date_parse s = Some t ->
  exists c, target c = Fin t /\ last c = Fin (Z.max (t - now0) 0)
    /\ lifetime Date_parse (Some s) h now0 clock = run_ticks h c clock.
Proof.
  intros Hs Hp. unfold lifetime.
  destruct (effect_start Date_parse (Some s) now0) as [c|] eqn:Hc.
  - exists c.
    pose proof (TimerFacts.effect_start_target Date_parse s now0 c Hc) as Ht.
    pose proof (TimerFacts.effect_start_last Date_parse s now0 c Hc) as Hl.
    unfold Date_getTime in Ht. rewrite Hp in Ht, Hl. auto.
  - unfold effect_start in Hc.
    rewrite (UserFacts.truthy_nonempty s Hs) in Hc. discriminate.
Qed.

Lemma pad_two_digits (x : Z) :
  0 <= x < 100 -> String.length (padStart2 (pretty x)) = 2%nat.
Proof.
  intros Hx.
  assert (Hall : forallb
            (fun n => Nat.eqb (String.length (padStart2 (pretty (Z.of_nat n))))
                              2)
            (seq 0 100) = true) by (vm_compute; reflexivity).
  rewrite forallb_forall in Hall.
  specialize (Hall (Z.to_nat x)).
  rewrite Z2Nat.id in Hall by lia.
  apply Nat.eqb_eq, Hall, in_seq. lia.
Qed.

Lemma padStart2_length s : (2 <= String.length (padStart2 s))%nat.
Proof.
  unfold padStart2. destruct s as [|a [|b s]];
    [cbv; lia | cbv; lia | cbn [String.length]; lia].
Qed.
End TimerMore.

(** X1.  On a clock that does not run backwards, the value that the hook
    shows never goes up from one tick to a later one; tick by tick it is
    the distance to the deadline, clamped at zero. *)
Theorem X1_remaining_never_increases
    (Date_parse : string -> option Z) (s : string) (t : Z)
    (hasCallback : bool) (now0 : Z) (clock : list Z) :
  s <> EmptyString -> Date_parse s = Some t -> Sorted Z.le clock ->
  let rs := Timer.lifetime Date_parse (Some s) hasCallback now0 clock in
  map Timer.next rs = map (fun now => Fin (Z.max (t - now) 0)) clock
  /\ forall j k r r', (j <= k)%nat -> rs !! j = Some r -> rs !! k = Some r' ->
       exists a b, Timer.next r = Fin a /\ Timer.next r' = Fin b /\ b <= a.
Proof.
  intros Hs Hp Hsorted rs. subst rs.
  destruct (TimerMore.lifetime_started Date_parse s t hasCallback now0 clock
              Hs Hp) as (c & Ht & _ & ->).
  pose proof (TimerMore.run_ticks_next hasCallback t clock c Ht) as Hnext.
  split; [exact Hnext|].
  intros j k r r' Hjk Hj Hk.
  assert (Hat : forall i x, Timer.run_ticks hasCallback c clock !! i = Some x ->
            exists now, clock !! i = Some now
                        /\ Timer.next x = Fin (Z.max (t - now) 0)).
  { intros i x Hi.
    assert (Hm : map Timer.next (Timer.run_ticks hasCallback c clock) !! i
                 = Some (Timer.next x))
      by (rewrite PatchFrame.lookup_map, Hi; reflexivity).
    rewrite Hnext, PatchFrame.lookup_map in Hm.
    destruct (clock !! i) as [now|]; [|discriminate].
    exists now. split; [reflexivity|]. cbn in Hm. congruence. }
  destruct (Hat j r Hj) as (nj & Hcj & ->).
  destruct (Hat k r' Hk) as (nk & Hck & ->).
  pose proof (TimerMore.sorted_lookup clock j k nj nk Hsorted Hjk Hcj Hck).
  eexists _, _. split; [reflexivity|]. split; [reflexivity|]. lia.
Qed.

Lemma X1_remaining_witness :
  map Timer.next
      (Timer.lifetime Samples.parseAll (Some "2025-12-04T12:34:56.000Z") true
         1000 [1000; 2000; 5000; 6000])
  = map (fun now => Fin (Z.max (5000 - now) 0)) [1000; 2000; 5000; 6000].
Proof.
  refine (proj1 (X1_remaining_never_increases Samples.parseAll
                   "2025-12-04T12:34:56.000Z" 5000 true 1000
                   [1000; 2000; 5000; 6000] _ eq_refl _)).
  - discriminate.
  - repeat constructor; lia.
Defined.

(** X2.  When the effect starts before the deadline, a callback is
    supplied and the clock, never running backwards, reaches the deadline
    at some tick of the lifetime, [onElapsed] is called exactly once. *)
Theorem X2_onElapsed_fires_when_deadline_reached
    (Date_parse : string -> option Z) (s : string) (t now0 : Z)
    (clock : list Z) :
  s <> EmptyString -> Date_parse s = Some t -> now0 < t ->
  Sorted Z.le (now0 :: clock) ->
  Exists (fun now => t <= now) clock ->
  Timer.elapsed_calls (Timer.lifetime Date_parse (Some s) true now0 clock)
  = 1%nat.
Proof.
  intros Hs Hp Hfuture Hsorted Hreach.
  destruct (TimerMore.lifetime_started Date_parse s t true now0 clock Hs Hp)
    as (c & Ht & Hl & ->).
  pose proof (TimerMore.run_ticks_next true t clock c Ht) as Hnext.
  destruct (TimerFacts.run_ticks_shape true clock c now0 t
              (Z.max (t - now0) 0) Hsorted Ht Hl ltac:(lia))
    as (pre & post & Hrun & Hpre & Hpost).
  rewrite Hrun, TimerFacts.elapsed_calls_app.
  rewrite (TimerFacts.elapsed_calls_none pre)
    by (eapply Forall_impl; [exact Hpre|]; cbn; tauto).
  destruct Hpost as [->|(hit & rest & -> & _ & Hfired & Hrest)].
  - exfalso. rewrite app_nil_r in Hrun. rewrite Hrun in Hnext.
    apply List.Exists_exists in Hreach as (now & Hin & Hle).
    apply (in_map (fun now => Fin (Z.max (t - now) 0))) in Hin.
    rewrite <- Hnext in Hin. apply in_map_iff in Hin as (r & Hr & Hinr).
    rewrite List.Forall_forall in Hpre. destruct (Hpre r Hinr) as [_ Hgt].
    rewrite Hr in Hgt. cbn in Hgt. apply Z.ltb_lt in Hgt. lia.
  - unfold Timer.elapsed_calls at 1. rewrite filter_cons.
    destruct (decide (Timer.fired hit = true)); [|congruence].
    cbn [length]. fold (Timer.elapsed_calls rest).
    rewrite (TimerFacts.elapsed_calls_none rest)
      by (eapply Forall_impl; [exact Hrest|]; cbn; tauto).
    reflexivity.
Qed.

Lemma X2_onElapsed_witness :
  Timer.elapsed_calls
    (Timer.lifetime Samples.parseAll (Some "2025-12-04T12:34:56.000Z") true
       1000 [1000; 2000; 5000; 6000])
  = 1%nat.
Proof.
  refine (X2_onElapsed_fires_when_deadline_reached Samples.parseAll
            "2025-12-04T12:34:56.000Z" 5000 1000 [1000; 2000; 5000; 6000]
            _ eq_refl _ _ _).
  - discriminate.
  - lia.
  - repeat constructor; lia.
  - right. right. left. lia.
Defined.

(** X3.  For a remaining time of [r >= 0] milliseconds the hook renders
    the whole minutes [r / 60000] and the seconds [(r / 1000) mod 60], each
    padded to two digits: the seconds are always exactly two characters,
    the minutes at least two, and below one second both read 00. *)
Theorem X3_minutes_and_seconds_rendering (r : Z) :
  0 <= r ->
  Timer.mm (Some (Fin r)) = padStart2 (pretty (r / 60000))
  /\ Timer.ss (Some (Fin r)) = padStart2 (pretty ((r / 1000) mod 60))
  /\ String.length (Timer.ss (Some (Fin r))) = 2%nat
  /\ (2 <= String.length (Timer.mm (Some (Fin r))))%nat
  /\ (r < 1000 -> Timer.mm (Some (Fin r)) = "00"
                  /\ Timer.ss (Some (Fin r)) = "00").
Proof.
  intros Hr.
  assert (Hmm : Timer.mm (Some (Fin r)) = padStart2 (pretty (r / 60000))).
  { unfold Timer.mm; cbn. rewrite Z.div_div by lia. reflexivity. }
  assert (Hss : Timer.ss (Some (Fin r))
                = padStart2 (pretty ((r / 1000) mod 60))).
  { unfold Timer.ss; cbn. rewrite Z.rem_mod_nonneg; [reflexivity| |lia].
    apply Z.div_pos; lia. }
  split; [exact Hmm|]. split; [exact Hss|]. split; [|split].
  - rewrite Hss. apply TimerMore.pad_two_digits.
    pose proof (Z.mod_pos_bound (r / 1000) 60). lia.
  - rewrite Hmm. apply TimerMore.padStart2_length.
  - intros Hlt. rewrite Hmm, Hss.
    rewrite (Z.div_small r 60000), (Z.div_small r 1000) by lia.
    split; reflexivity.
Qed.

Lemma X3_minutes_and_seconds_witness :
  String.length (Timer.ss (Some (Fin 125000))) = 2%nat.
Proof.
  refine (proj1 (proj2 (proj2 (X3_minutes_and_seconds_rendering 125000 _)))).
  lia.
Defined.

(** ** The timer target, continued *)

Module TargetMore.
Import ProductsPage.

Lemma fold_max_fin ts : forall a,
  fold_left Math_max2 (map (@Fin Z) ts) (Fin a) = Fin (fold_left Z.max ts a).
Proof.
  induction ts as [|t ts IH]; intros a; [reflexivity|].
  cbn [map fold_left]. replace (Math_max2 (Fin a) (Fin t)) with (Fin (Z.max a t)).
  - apply IH.
  - cbn. destruct (Z.ltb_spec a t); f_equal; lia.
Qed.

Lemma fold_min_fin ts : forall a,
  fold_left Math_min2 (map (@Fin Z) ts) (Fin a) = Fin (fold_left Z.min ts a).
Proof.
  induction ts as [|t ts IH]; intros a; [reflexivity|].
  cbn [map fold_left]. replace (Math_min2 (Fin a) (Fin t)) with (Fin (Z.min a t)).
  - apply IH.
  - cbn. destruct (Z.ltb_spec t a); f_equal; lia.
Qed.

(** The largest element of [a :: ts] is one of them and bounds them. *)
Lemma fold_max_spec ts : forall a,
  (fold_left Z.max ts a = a \/ In (fold_left Z.max ts a) ts)
  /\ a <= fold_left Z.max ts a
  /\ forall x, In x ts -> x <= fold_left Z.max ts a.
Proof.
  induction ts as [|t ts IH]; intros a; cbn [fold_left].
  - repeat split; [left; reflexivity|lia|intros x []].
  - destruct (IH (Z.max a t)) as (Hin & Hle & Hall).
    repeat split.
    + destruct Hin as [Heq|Hin]; [|right; right; exact Hin].
      destruct (Z.max_spec a t) as [[_ Hm]|[_ Hm]].
      * right. left. rewrite Heq. symmetry. exact Hm.
      * left. rewrite Heq. exact Hm.
    + lia.
    + intros x [<-|Hx]; [lia|apply Hall, Hx].
Qed.

Lemma fold_min_spec ts : forall a,
  (fold_left Z.min ts a = a \/ In (fold_left Z.min ts a) ts)
  /\ fold_left Z.min ts a <= a
  /\ forall x, In x ts -> fold_left Z.min ts a <= x.
Proof.
  induction ts as [|t ts IH]; intros a; cbn [fold_left].
  - repeat split; [left; reflexivity|lia|intros x []].
  - destruct (IH (Z.min a t)) as (Hin & Hle & Hall).
    repeat split.
    + destruct Hin as [Heq|Hin]; [|right; right; exact Hin].
      destruct (Z.min_spec a t) as [[_ Hm]|[_ Hm]].
      * left. rewrite Heq. exact Hm.
      * right. left. rewrite Heq. symmetry. exact Hm.
    + lia.
    + intros x [<-|Hx]; [lia|apply Hall, Hx].
Qed.

(** [NaN] is contagious through [Math.max] and [Math.min] of a list. *)
Lemma fold_max_NaN (xs : list (jsnum Z)) : fold_left Math_max2 xs NaN = NaN.
Proof. induction xs as [|x xs IH]; [reflexivity|exact IH]. Qed.

Lemma fold_min_NaN (xs : list (jsnum Z)) : fold_left Math_min2 xs NaN = NaN.
Proof. induction xs as [|x xs IH]; [reflexivity|exact IH]. Qed.

Lemma fold_max_has_NaN (xs : list (jsnum Z)) : forall a,
  In NaN xs -> fold_left Math_max2 xs a = NaN.
Proof.
  induction xs as [|x xs IH]; intros a; [intros []|].
  intros [->|Hin]; cbn [fold_left].
  - replace (Math_max2 a NaN) with (@NaN Z) by (destruct a; reflexivity).
    apply fold_max_NaN.
  - apply IH, Hin.
Qed.

Lemma fold_min_has_NaN (xs : list (jsnum Z)) : forall a,
  In NaN xs -> fold_left Math_min2 xs a = NaN.
Proof.
  induction xs as [|x xs IH]; intros a; [intros []|].
  intros [->|Hin]; cbn [fold_left].
  - replace (Math_min2 a NaN) with (@NaN Z) by (destruct a; reflexivity).
    apply fold_min_NaN.
  - apply IH, Hin.
Qed.

Section Parsed.
Variable Date_parse : string -> option Z.
Variable Date_toISOString : Z -> string.

(** Either every deadline of the list is a date, or one is not. *)
Lemma parsed_or_not (act : list Reservation) :
  (exists ts, Forall2 (fun r t => Date_parse (r_expiresAt r) = Some t) act ts)
  \/ exists r, In r act /\ Date_parse (r_expiresAt r) = None.
Proof.
  induction act as [|r act IH]; [left; exists []; constructor|].
  destruct (Date_parse (r_expiresAt r)) as [t|] eqn:Hr.
  - destruct IH as [(ts & Hts)|(r' & Hin & Hr')].
    + left. exists (t :: ts). constructor; assumption.
    + right. exists r'. split; [right; exact Hin|exact Hr'].
  - right. exists r. split; [left; reflexivity|exact Hr].
Qed.

Lemma expiryTimes_parsed act ts :
  Forall2 (fun r t => Date_parse (r_expiresAt r) = Some t) act ts ->
  expiryTimes Date_parse act = map (@Fin Z) ts.
Proof.
  induction 1 as [|r t act ts Hr _ IH]; [reflexivity|].
  cbn. unfold Timer.Date_getTime at 1. rewrite Hr. f_equal. exact IH.
Qed.

Lemma expiryTimes_unparsed act r :
  In r act -> Date_parse (r_expiresAt r) = None ->
  In NaN (expiryTimes Date_parse act).
Proof.
  intros Hin Hr. unfold expiryTimes.
  apply in_map_iff. exists r. split; [|exact Hin].
  unfold Timer.Date_getTime. rewrite Hr. reflexivity.
Qed.

Lemma parsed_In act ts :
  Forall2 (fun r t => Date_parse (r_expiresAt r) = Some t) act ts ->
  (forall t, In t ts ->
     exists r, In r act /\ Date_parse (r_expiresAt r) = Some t)
  /\ (forall r t, In r act -> Date_parse (r_expiresAt r) = Some t -> In t ts).
Proof.
  induction 1 as [|r t act ts Hr _ [IH1 IH2]]; [split; [intros t []|intros r t []]|].
  split.
  - intros t' [<-|Hin]; [exists r; split; [left; reflexivity|exact Hr]|].
    destruct (IH1 t' Hin) as (r' & Hin' & Hr'). exists r'. split; [right|]; auto.
  - intros r' t' [<-|Hin] Hr'; [left; congruence|right; eapply IH2; eauto].
Qed.

Lemma toISOString_in_range t :
  Z.abs t <= 8640000000000000 ->
  toISOString Date_toISOString (Fin t) = Value (Some (Date_toISOString t)).
Proof.
  intros Ht. unfold toISOString, TimeClip.
  destruct (Z.leb_spec (Z.abs t) 8640000000000000); [reflexivity|lia].
Qed.
End Parsed.

(** The value shown after the ticks for a deadline that is a date. *)
Lemma remaining_of_date (Date_parse : string -> option Z) s t h now0 now1 later :
  s <> EmptyString -> Date_parse s = Some t ->
  Timer.remainingMs_after Date_parse (Some s) h now0 now1 later
  = Some (Fin (Z.max (t - List.last later now1) 0)).
Proof.
  intros Hs Hp. unfold Timer.remainingMs_after.
  destruct (Timer.effect_start Date_parse (Some s) now0) as [c|] eqn:Hc.
  - destruct (TimerFacts.run_ticks_last h later c now1 (Timer.tick h c now1))
      as (c' & Ht & ->).
    rewrite TimerFacts.tick_next, Ht,
      (TimerFacts.effect_start_target Date_parse s now0 c Hc).
    unfold Timer.Date_getTime. rewrite Hp. reflexivity.
  - unfold Timer.effect_start in Hc.
    rewrite (UserFacts.truthy_nonempty s Hs) in Hc. discriminate.
Qed.
End TargetMore.

(** X4.  When every ACTIVE reservation's [expiresAt] is a date and the
    date library reads back what it prints, the page's countdown runs to
    the latest of these deadlines: [nextExpirationIso] is the ISO text of
    the largest one, and the hook, given that text, shows the distance from
    the tick's clock reading to it, clamped at zero. *)
Theorem X4_countdown_runs_to_latest_deadline
    (Date_parse : string -> option Z) (Date_toISOString : Z -> string)
    (rs : list ProductsPage.Reservation) :
  (forall s t, Date_parse s = Some t -> Z.abs t <= 8640000000000000) ->
  (forall r t, In r (ProductsPage.activeReservations rs) ->
     Date_parse (ProductsPage.r_expiresAt r) = Some t ->
     Date_toISOString t <> EmptyString
     /\ Date_parse (Date_toISOString t) = Some t) ->
  ProductsPage.activeReservations rs <> [] ->
  (forall r, In r (ProductsPage.activeReservations rs) ->
     Date_parse (ProductsPage.r_expiresAt r) <> None) ->
  exists M,
    (exists r, In r (ProductsPage.activeReservations rs)
               /\ Date_parse (ProductsPage.r_expiresAt r) = Some M)
    /\ (forall r t, In r (ProductsPage.activeReservations rs) ->
          Date_parse (ProductsPage.r_expiresAt r) = Some t -> t <= M)
    /\ ProductsPage.nextExpirationIso Date_parse Date_toISOString rs
       = ProductsPage.Value (Some (Date_toISOString M))
    /\ forall h now0 now1 later,
         Timer.remainingMs_after Date_parse (Some (Date_toISOString M)) h
           now0 now1 later
         = Some (Fin (Z.max (M - List.last later now1) 0)).
Proof.
  intros Hrange Hround Hne Hall.
  unfold ProductsPage.nextExpirationIso.
  destruct (TargetMore.parsed_or_not Date_parse
              (ProductsPage.activeReservations rs))
    as [(ts & Hts)|(r & Hin & Hr)]; [|destruct (Hall r Hin Hr)].
  destruct (TargetMore.parsed_In Date_parse _ _ Hts) as [Hfrom Hto].
  rewrite (TargetMore.expiryTimes_parsed Date_parse _ _ Hts).
  destruct (ProductsPage.activeReservations rs) as [|r0 act] eqn:Hact;
    [contradiction|].
  destruct ts as [|t0 ts]; [inversion Hts|].
  cbn [length Nat.eqb]. unfold Math_max. cbn [map fold_left].
  change (Math_max2 NegInf (Fin t0)) with (@Fin Z t0).
  rewrite TargetMore.fold_max_fin.
  destruct (TargetMore.fold_max_spec ts t0) as (Hmem & Hlow & Hup).
  set (M := fold_left Z.max ts t0) in *.
  assert (HinM : In M (t0 :: ts))
    by (destruct Hmem as [->|Hmem]; [left; reflexivity|right; exact Hmem]).
  destruct (Hfrom M HinM) as (rM & HrM & HpM).
  destruct (Hround rM M HrM HpM) as [Hnonempty Hback].
  exists M. split; [exists rM; auto|]. split; [|split].
  - intros r t Hr Hp. destruct (Hto r t Hr Hp) as [<-|Hin]; [exact Hlow|].
    apply Hup, Hin.
  - apply TargetMore.toISOString_in_range. exact (Hrange _ _ HpM).
  - intros h now0 now1 later.
    apply TargetMore.remaining_of_date; assumption.
Qed.

Lemma X4_countdown_witness :
  exists M : Z,
    ProductsPage.nextExpirationIso Samples.parseAll pretty
      [Samples.hold1; Samples.hold2; Samples.hold3]
    = ProductsPage.Value (Some (pretty M)).
Proof.
  destruct (X4_countdown_runs_to_latest_deadline Samples.parseAll pretty
              [Samples.hold1; Samples.hold2; Samples.hold3])
    as (M & _ & _ & HM & _).
  - intros s t [= <-]. vm_compute. discriminate.
  - intros r t _ [= <-]. split; [discriminate|reflexivity].
  - discriminate.
  - intros r _. discriminate.
  - exists M. exact HM.
Defined.

(** X5.  In the other revision the countdown runs to the earliest of the
    ACTIVE reservations' deadlines, under the same assumptions. *)
Theorem X5_countdown_runs_to_earliest_deadline
    (Date_parse : string -> option Z) (Date_toISOString : Z -> string)
    (rs : list ProductsPage.Reservation) :
  (forall s t, Date_parse s = Some t -> Z.abs t <= 8640000000000000) ->
  (forall r t, In r (ProductsPage.activeReservations rs) ->
     Date_parse (ProductsPage.r_expiresAt r) = Some t ->
     Date_toISOString t <> EmptyString
     /\ Date_parse (Date_toISOString t) = Some t) ->
  ProductsPage.activeReservations rs <> [] ->
  (forall r, In r (ProductsPage.activeReservations rs) ->
     Date_parse (ProductsPage.r_expiresAt r) <> None) ->
  exists m,
    (exists r, In r (ProductsPage.activeReservations rs)
               /\ Date_parse (ProductsPage.r_expiresAt r) = Some m)
    /\ (forall r t, In r (ProductsPage.activeReservations rs) ->
          Date_parse (ProductsPage.r_expiresAt r) = Some t -> m <= t)
    /\ ProductsPage.nextExpirationIso_min Date_parse Date_toISOString rs
       = ProductsPage.Value (Some (Date_toISOString m))
    /\ forall h now0 now1 later,
         Timer.remainingMs_after Date_parse (Some (Date_toISOString m)) h
           now0 now1 later
         = Some (Fin (Z.max (m - List.last later now1) 0)).
Proof.
  intros Hrange Hround Hne Hall.
  unfold ProductsPage.nextExpirationIso_min.
  destruct (TargetMore.parsed_or_not Date_parse
              (ProductsPage.activeReservations rs))
    as [(ts & Hts)|(r & Hin & Hr)]; [|destruct (Hall r Hin Hr)].
  destruct (TargetMore.parsed_In Date_parse _ _ Hts) as [Hfrom Hto].
  rewrite (TargetMore.expiryTimes_parsed Date_parse _ _ Hts).
  destruct (ProductsPage.activeReservations rs) as [|r0 act] eqn:Hact;
    [contradiction|].
  destruct ts as [|t0 ts]; [inversion Hts|].
  cbn [length Nat.eqb]. unfold Math_min. cbn [map fold_left].
  change (Math_min2 PosInf (Fin t0)) with (@Fin Z t0).
  rewrite TargetMore.fold_min_fin.
  destruct (TargetMore.fold_min_spec ts t0) as (Hmem & Hlow & Hup).
  set (m := fold_left Z.min ts t0) in *.
  assert (Hinm : In m (t0 :: ts))
    by (destruct Hmem as [->|Hmem]; [left; reflexivity|right; exact Hmem]).
  destruct (Hfrom m Hinm) as (rm & Hrm & Hpm).
  destruct (Hround rm m Hrm Hpm) as [Hnonempty Hback].
  exists m. split; [exists rm; auto|]. split; [|split].
  - intros r t Hr Hp. destruct (Hto r t Hr Hp) as [<-|Hin]; [exact Hlow|].
    apply Hup, Hin.
  - apply TargetMore.toISOString_in_range. exact (Hrange _ _ Hpm).
  - intros h now0 now1 later.
    apply TargetMore.remaining_of_date; assumption.
Qed.

Lemma X5_countdown_witness :
  exists m : Z,
    ProductsPage.nextExpirationIso_min Samples.parseAll pretty
      [Samples.hold1; Samples.hold2; Samples.hold3]
    = ProductsPage.Value (Some (pretty m)).
Proof.
  destruct (X5_countdown_runs_to_earliest_deadline Samples.parseAll pretty
              [Samples.hold1; Samples.hold2; Samples.hold3])
    as (m & _ & _ & Hm & _).
  - intros s t [= <-]. vm_compute. discriminate.
  - intros r t _ [= <-]. split; [discriminate|reflexivity].
  - discriminate.
  - intros r _. discriminate.
  - exists m. exact Hm.
Defined.

(** X6.  Computing the timer target throws (the [RangeError] of
    [toISOString]) exactly when some ACTIVE reservation carries an
    [expiresAt] that is no date, in both revisions: one bad deadline among
    the ACTIVE reservations is enough, a bad deadline on a COMPLETED or
    EXPIRED one does no harm. *)
Theorem X6_target_throws_on_a_bad_deadline
    (Date_parse : string -> option Z) (Date_toISOString : Z -> string)
    (rs : list ProductsPage.Reservation) :
  (forall s t, Date_parse s = Some t -> Z.abs t <= 8640000000000000) ->
  (ProductsPage.nextExpirationIso Date_parse Date_toISOString rs
   = ProductsPage.Throws
   <-> exists r, In r rs /\ ProductsPage.r_status r = ProductsPage.ACTIVE
                 /\ Date_parse (ProductsPage.r_expiresAt r) = None)
  /\ (ProductsPage.nextExpirationIso_min Date_parse Date_toISOString rs
      = ProductsPage.Throws
      <-> exists r, In r rs /\ ProductsPage.r_status r = ProductsPage.ACTIVE
                    /\ Date_parse (ProductsPage.r_expiresAt r) = None).
Proof.
  intros Hrange.
  assert (Hactive : forall r,
            In r (ProductsPage.activeReservations rs)
            <-> In r rs /\ ProductsPage.r_status r = ProductsPage.ACTIVE).
  { intros r. rewrite <- !list_elem_of_In.
    apply PageFacts.activeReservations_status. }
  unfold ProductsPage.nextExpirationIso, ProductsPage.nextExpirationIso_min.
  destruct (TargetMore.parsed_or_not Date_parse
              (ProductsPage.activeReservations rs))
    as [(ts & Hts)|(r & Hin & Hr)].
  - destruct (TargetMore.parsed_In Date_parse _ _ Hts) as [Hfrom Hto].
    rewrite (TargetMore.expiryTimes_parsed Date_parse _ _ Hts).
    assert (Hno : ~ exists r, In r rs
                     /\ ProductsPage.r_status r = ProductsPage.ACTIVE
                     /\ Date_parse (ProductsPage.r_expiresAt r) = None).
    { intros (r & Hin & Hst & Hr).
      assert (Hr' : In r (ProductsPage.activeReservations rs))
        by (apply Hactive; auto).
      clear - Hts Hr' Hr. induction Hts as [|x t act ts Hx _ IH];
        [destruct Hr'|].
      destruct Hr' as [->|Hr']; [congruence|auto]. }
    destruct (ProductsPage.activeReservations rs) as [|r0 act];
      [split; (split; [discriminate|intros H; destruct (Hno H)])|].
    destruct ts as [|t0 ts]; [inversion Hts|].
    cbn [length Nat.eqb]. unfold Math_max, Math_min. cbn [map fold_left].
    change (Math_max2 NegInf (Fin t0)) with (@Fin Z t0).
    change (Math_min2 PosInf (Fin t0)) with (@Fin Z t0).
    rewrite TargetMore.fold_max_fin, TargetMore.fold_min_fin.
    destruct (TargetMore.fold_max_spec ts t0) as (Hmax & _ & _).
    destruct (TargetMore.fold_min_spec ts t0) as (Hmin & _ & _).
    assert (HM : In (fold_left Z.max ts t0) (t0 :: ts))
      by (destruct Hmax as [->|H]; [left; reflexivity|right; exact H]).
    assert (Hm : In (fold_left Z.min ts t0) (t0 :: ts))
      by (destruct Hmin as [->|H]; [left; reflexivity|right; exact H]).
    destruct (Hfrom _ HM) as (rM & _ & HpM).
    destruct (Hfrom _ Hm) as (rm & _ & Hpm).
    rewrite !TargetMore.toISOString_in_range by eauto.
    split; (split; [discriminate|intros H; destruct (Hno H)]).
  - pose proof (TargetMore.expiryTimes_unparsed Date_parse _ r Hin Hr) as HNaN.
    assert (Hyes : exists r, In r rs
                     /\ ProductsPage.r_status r = ProductsPage.ACTIVE
                     /\ Date_parse (ProductsPage.r_expiresAt r) = None).
    { exists r. apply Hactive in Hin. tauto. }
    destruct (ProductsPage.activeReservations rs) as [|r0 act]; [destruct Hin|].
    cbn [length Nat.eqb]. unfold Math_max, Math_min.
    rewrite TargetMore.fold_max_has_NaN, TargetMore.fold_min_has_NaN
      by exact HNaN.
    split; (split; [intros _; exact Hyes|reflexivity]).
Qed.

Lemma X6_target_throws_witness :
  ProductsPage.nextExpirationIso Samples.parseAll pretty
    [Samples.hold1; Samples.hold2; Samples.hold3]
  <> ProductsPage.Throws.
Proof.
  assert (Hrange : forall s t, Samples.parseAll s = Some t ->
                               Z.abs t <= 8640000000000000)
    by (intros s t [= <-]; vm_compute; discriminate).
  intros H.
  destruct (proj1 (proj1 (X6_target_throws_on_a_bad_deadline
                            Samples.parseAll pretty
                            [Samples.hold1; Samples.hold2; Samples.hold3]
                            Hrange))
              H) as (r & _ & _ & Hr).
  discriminate.
Defined.

(** ** The stock patch, continued *)

Module PatchMore.
Import ProductsPage.

Section MapMore.
Context {V : Type}.
Implicit Types (m : list (string * V)) (k : string).

Lemma Map_set_keys k v m :
  In k (map fst m) -> map fst (Map_set k v m) = map fst m.
Proof.
  induction m as [|[k' v'] m IH]; [intros []|]. cbn.
  destruct (decide (k = k')) as [->|Hne]; [reflexivity|].
  intros [Heq|Hin]; [congruence|]. cbn. rewrite IH by exact Hin. reflexivity.
Qed.

Lemma Map_set_keys_cases k v m :
  map fst (Map_set k v m) = map fst m
  \/ (~ In k (map fst m) /\ map fst (Map_set k v m) = map fst m ++ [k]).
Proof.
  destruct (in_dec string_dec k (map fst m)) as [Hin|Hout].
  - left. apply Map_set_keys, Hin.
  - right. split; [exact Hout|].
    rewrite (PatchFacts.Map_set_fresh k v m Hout), map_app. reflexivity.
Qed.

Lemma NoDup_snoc (l : list string) k :
  List.NoDup l -> ~ In k l -> List.NoDup (l ++ [k]).
Proof.
  induction l as [|x l IH]; intros Hnd Hk; cbn.
  - repeat constructor. intros [].
  - apply List.NoDup_cons_iff in Hnd as [Hx Hnd]. cbn in Hk.
    apply List.NoDup_cons_iff. split.
    + rewrite in_app_iff. cbn. intuition congruence.
    + apply IH; tauto.
Qed.

Lemma Map_set_NoDup k v m :
  List.NoDup (map fst m) -> List.NoDup (map fst (Map_set k v m)).
Proof.
  intros Hnd. destruct (Map_set_keys_cases k v m) as [->|[Hout ->]];
    [exact Hnd|].
  apply NoDup_snoc; assumption.
Qed.

Lemma Map_set_In_keys k v m k' :
  In k' (map fst (Map_set k v m)) <-> k' = k \/ In k' (map fst m).
Proof.
  destruct (Map_set_keys_cases k v m) as [Heq|[Hout Heq]]; rewrite Heq.
  - split; [tauto|]. intros [->|H]; [|exact H].
    destruct (in_dec string_dec k (map fst m)) as [Hin|Hout]; [exact Hin|].
    rewrite (PatchFacts.Map_set_fresh k v m Hout), map_app in Heq.
    apply (f_equal (@length string)) in Heq.
    rewrite length_app in Heq. cbn in Heq. lia.
  - rewrite in_app_iff. cbn. intuition congruence.
Qed.

Lemma Map_set_Forall (P : string * V -> Prop) k v m :
  P (k, v) -> Forall P m -> Forall P (Map_set k v m).
Proof.
  intros Hkv. induction 1 as [|[k' v'] m Hx Hm IH]; cbn.
  - repeat constructor. exact Hkv.
  - destruct (decide (k = k')); constructor; auto.
Qed.

Lemma Map_set_length k v m : (length (Map_set k v m) <= S (length m))%nat.
Proof.
  induction m as [|[k' v'] m IH]; cbn; [lia|].
  destruct (decide (k = k')); cbn; lia.
Qed.

Lemma Map_get_In k m e :
  Map_get k m = Some e -> In (k, e) m.
Proof.
  induction m as [|[k' v'] m IH]; cbn; [discriminate|].
  destruct (decide (k = k')) as [->|Hne].
  - intros [= ->]. left. reflexivity.
  - intros H. right. apply IH, H.
Qed.

(** A [Map] built from any entries has one entry per key, for the keys
    of the entries and no others. *)
Lemma Map_new_go_facts (P : string * V -> Prop) entries : forall acc,
  List.NoDup (map fst acc) -> Forall P acc -> Forall P entries ->
  let m := fold_left (fun m e => Map_set (fst e) (snd e) m) entries acc in
  List.NoDup (map fst m)
  /\ (forall k, In k (map fst m)
                <-> In k (map fst acc) \/ In k (map fst entries))
  /\ Forall P m
  /\ (length m <= length acc + length entries)%nat.
Proof.
  induction entries as [|[k v] entries IH]; intros acc Hnd Hacc Hent; cbn zeta.
  - cbn. repeat split; auto; try tauto; lia.
  - apply Forall_cons in Hent as [Hkv Hent]. cbn [fold_left fst snd].
    destruct (IH (Map_set k v acc)) as (H1 & H2 & H3 & H4);
      [apply Map_set_NoDup, Hnd | apply Map_set_Forall; assumption
      | exact Hent |].
    split; [exact H1|]. split; [|split; [exact H3|]].
    + intros k'. rewrite H2, Map_set_In_keys. cbn. intuition congruence.
    + pose proof (Map_set_length k v acc). cbn [length]. lia.
Qed.
End MapMore.

(** The update loop keeps the keys, and keeps each value's id equal to
    its key. *)
Lemma fold_updates_keys us : forall (m : list (string * Product)),
  Forall (fun kv => p_id (snd kv) = fst kv) m ->
  let m' :=
    fold_left
      (fun m u =>
         match Map_get (u_id u) m with
         | Some existing =>
             Map_set (u_id u) (withStock existing (u_availableStock u)) m
         | None => m
         end) us m in
  map fst m' = map fst m /\ Forall (fun kv => p_id (snd kv) = fst kv) m'.
Proof.
  induction us as [|u us IH]; intros m Hm; cbn zeta; [split; auto|].
  cbn [fold_left].
  destruct (Map_get (u_id u) m) as [e|] eqn:Hget; [|apply IH, Hm].
  pose proof (Map_get_In _ _ _ Hget) as Hin.
  assert (Hkey : In (u_id u) (map fst m))
    by (apply in_map_iff; exists (u_id u, e); auto).
  assert (Hid : p_id e = u_id u).
  { rewrite List.Forall_forall in Hm. exact (Hm _ Hin). }
  destruct (IH (Map_set (u_id u) (withStock e (u_availableStock u)) m))
    as [Hk Hv].
  - apply Map_set_Forall; [exact Hid|exact Hm].
  - split; [|exact Hv]. cbn zeta in Hk. rewrite Hk. apply Map_set_keys, Hkey.
Qed.

Lemma withStock_withStock p a b : withStock (withStock p a) b = withStock p b.
Proof. reflexivity. Qed.

(** The last update for a key decides. *)
Lemma patchAt_last k us : forall p,
  patchAt k us p
  = match last (filter (fun u => u_id u = k) us) with
    | Some u => withStock p (u_availableStock u)
    | None => p
    end.
Proof.
  unfold patchAt. induction us as [|u us IH] using rev_ind; intros p;
    [reflexivity|].
  rewrite fold_left_app, filter_app. cbn [fold_left]. rewrite IH.
  rewrite filter_cons, filter_nil.
  destruct (decide (u_id u = k)) as [Hk|Hk].
  - rewrite last_snoc. destruct (last _); reflexivity.
  - rewrite app_nil_r. reflexivity.
Qed.

Lemma patchAt_app k us1 us2 p :
  patchAt k (us1 ++ us2) p = patchAt k us2 (patchAt k us1 p).
Proof. unfold patchAt. apply fold_left_app. Qed.

Lemma patchAt_twice k us p : patchAt k us (patchAt k us p) = patchAt k us p.
Proof.
  rewrite (patchAt_last k us (patchAt k us p)), (patchAt_last k us p).
  destruct (last _); reflexivity.
Qed.

Lemma patched_ids us prev :
  map p_id (map (fun p => patchAt (p_id p) us p) prev) = map p_id prev.
Proof.
  rewrite map_map. apply map_ext. intros p. apply PatchFacts.patchAt_id.
Qed.
End PatchMore.

(** X7.  Whatever list it is given, [handleProductsUpdated] returns a list
    in which no two products share an id, with exactly the ids of the
    given list and never more products than before. *)
Theorem X7_patched_products_have_distinct_ids
    (updates : list ProductsPage.StockUpdate)
    (prev : list ProductsPage.Product) :
  let next := ProductsPage.handleProductsUpdated updates prev in
  List.NoDup (map ProductsPage.p_id next)
  /\ (forall i, In i (map ProductsPage.p_id next)
                <-> In i (map ProductsPage.p_id prev))
  /\ (length next <= length prev)%nat.
Proof.
  cbn zeta. unfold ProductsPage.handleProductsUpdated.
  destruct prev as [|p0 prev']; [cbn; repeat split; auto; constructor|].
  cbn [length Nat.eqb]. set (prev := p0 :: prev').
  set (entries := map (fun p => (ProductsPage.p_id p, p)) prev).
  destruct (PatchMore.Map_new_go_facts
              (fun kv => ProductsPage.p_id (snd kv) = fst kv) entries [])
    as (Hnd & Hkeys & Hids & Hlen).
  - constructor.
  - constructor.
  - apply List.Forall_forall. intros kv Hkv.
    apply in_map_iff in Hkv as (p & <- & _). reflexivity.
  - fold (ProductsPage.Map_new entries) in *.
    destruct (PatchMore.fold_updates_keys updates
                (ProductsPage.Map_new entries) Hids) as [Hk Hv].
    cbn zeta in Hk, Hv.
    set (m1 := fold_left _ updates (ProductsPage.Map_new entries)) in *.
    assert (Hvals : map ProductsPage.p_id (ProductsPage.Map_values m1)
                    = map fst m1).
    { unfold ProductsPage.Map_values. rewrite map_map.
      clear - Hv. induction Hv as [|kv m Hkv _ IH]; [reflexivity|].
      cbn. rewrite Hkv, IH. reflexivity. }
    assert (Hent : map fst entries = map ProductsPage.p_id prev)
      by (unfold entries; rewrite map_map; reflexivity).
    split; [rewrite Hvals, Hk; exact Hnd|]. split.
    + intros i. rewrite Hvals, Hk, Hkeys, Hent. cbn. tauto.
    + unfold ProductsPage.Map_values. rewrite length_map.
      apply (f_equal (@length string)) in Hk. rewrite !length_map in Hk.
      rewrite Hk.
      assert (He : length entries = length prev)
        by (unfold entries; apply length_map).
      cbn [length Nat.add] in Hlen. rewrite He in Hlen. exact Hlen.
Qed.

(** X8.  On a products list with pairwise distinct ids, two stock messages
    handled one after the other have the effect of one message carrying
    the updates of both in that order; handling the same message twice is
    the same as handling it once; and a message without updates changes
    nothing. *)
Theorem X8_stock_messages_compose
    (us1 us2 : list ProductsPage.StockUpdate)
    (prev : list ProductsPage.Product) :
  List.NoDup (map ProductsPage.p_id prev) ->
  ProductsPage.handleProductsUpdated us2
    (ProductsPage.handleProductsUpdated us1 prev)
  = ProductsPage.handleProductsUpdated (us1 ++ us2) prev
  /\ ProductsPage.handleProductsUpdated us1
       (ProductsPage.handleProductsUpdated us1 prev)
     = ProductsPage.handleProductsUpdated us1 prev
  /\ ProductsPage.handleProductsUpdated [] prev = prev.
Proof.
  intros Hnd.
  assert (Hnd1 : List.NoDup
            (map ProductsPage.p_id
               (map (fun p => ProductsPage.patchAt (ProductsPage.p_id p) us1 p)
                    prev)))
    by (rewrite PatchMore.patched_ids; exact Hnd).
  rewrite !(PatchFacts.handleProductsUpdated_patch _ prev Hnd).
  rewrite !(PatchFacts.handleProductsUpdated_patch _ _ Hnd1).
  rewrite !map_map. repeat split.
  - apply map_ext. intros p.
    rewrite PatchFacts.patchAt_id. symmetry. apply PatchMore.patchAt_app.
  - apply map_ext. intros p.
    rewrite PatchFacts.patchAt_id. apply PatchMore.patchAt_twice.
  - apply map_id.
Qed.

Lemma X8_stock_messages_witness :
  ProductsPage.handleProductsUpdated [] [Samples.serum] = [Samples.serum].
Proof.
  refine (proj2 (proj2 (X8_stock_messages_compose [] [] [Samples.serum] _))).
  repeat constructor. intros [].
Defined.

(** X9.  On a products list with pairwise distinct ids, the stock of a
    product after a stock message is that of the last update in the
    message which carries the product's id; a product for which the
    message has no update is returned as it was. *)
Theorem X9_last_update_wins
    (updates : list ProductsPage.StockUpdate)
    (prev : list ProductsPage.Product) (i : nat) (p : ProductsPage.Product) :
  List.NoDup (map ProductsPage.p_id prev) ->
  prev !! i = Some p ->
  ProductsPage.handleProductsUpdated updates prev !! i
  = Some
      match last (filter (fun u => ProductsPage.u_id u = ProductsPage.p_id p)
                         updates) with
      | Some u => ProductsPage.withStock p (ProductsPage.u_availableStock u)
      | None => p
      end.
Proof.
  intros Hnd Hi.
  rewrite (PatchFacts.handleProductsUpdated_patch _ prev Hnd).
  rewrite PatchFrame.lookup_map, Hi. cbn. f_equal.
  apply PatchMore.patchAt_last.
Qed.

Lemma X9_last_update_witness :
  ProductsPage.handleProductsUpdated
    [{| ProductsPage.u_id := "a"; ProductsPage.u_availableStock := 1 |};
     {| ProductsPage.u_id := "zz"; ProductsPage.u_availableStock := 7 |};
     {| ProductsPage.u_id := "a"; ProductsPage.u_availableStock := 0 |}]
    [Samples.serum] !! 0%nat
  = Some (ProductsPage.withStock Samples.serum 0).
Proof.
  refine (X9_last_update_wins _ [Samples.serum] 0 Samples.serum _ eq_refl).
  repeat constructor. intros [].
Defined.

(** ** The page, continued *)

Module PageMore.
Import ProductsPage.

Lemma findProduct_Some i ps p :
  findProduct i ps = Some p -> In p ps /\ p_id p = i.
Proof.
  unfold findProduct. intros H. apply find_some in H as [Hin Heq].
  split; [exact Hin|]. apply String.eqb_eq, Heq.
Qed.

Lemma findProduct_None i ps :
  findProduct i ps = None -> forall p, In p ps -> p_id p <> i.
Proof.
  unfold findProduct. intros H p Hin Heq.
  pose proof (find_none _ _ H p Hin) as Hp. cbn in Hp.
  rewrite Heq, String.eqb_refl in Hp. discriminate.
Qed.

(** What the click on Reserve posts, and when. *)
Lemma handleReserve_click_posts s body :
  In (PostReservation body) (snd (handleReserve_click s)) ->
  userId s = Some (b_userId body) /\ truthy (b_userId body) = true
  /\ selectedProductId s = Some (b_productId body)
  /\ (exists p, In p (products s) /\ p_id p = b_productId body)
  /\ b_quantity body = quantity s
  /\ handleReserve_click s = (setSubmitting true s, [PostReservation body]).
Proof.
  unfold handleReserve_click, selectedProduct.
  destruct (userId s) as [u|]; [|intros []].
  destruct (truthy u) eqn:Hu; [|intros []].
  destruct (selectedProductId s) as [i|]; [|intros []].
  destruct (findProduct i (products s)) as [p|] eqn:Hp; [|intros []].
  destruct (js_le (quantity s) (Fin 0%Q)); [intros []|].
  intros [[= <-]|[]]. cbn.
  destruct (findProduct_Some _ _ _ Hp) as [Hin Hid].
  repeat split; try assumption; try reflexivity.
  - rewrite Hid. reflexivity.
  - exists p. auto.
Qed.

(** What a step does to the selection. *)
Lemma step_selection ev s :
  selectedProductId (fst (step ev s)) = selectedProductId s
  \/ selectedProductId (fst (step ev s)) = None
  \/ exists p, ev = ProductClicked p /\ 0 < p_availableStock p
       /\ selectedProductId (fst (step ev s)) = Some (p_id p).
Proof.
  destruct ev; MachineFacts.open_handlers; repeat case_match; cbn; auto.
  right; right. eexists. split; [reflexivity|]. split; [|reflexivity].
  match goal with H : (_ <=? 0) = false |- _ => apply Z.leb_gt in H; exact H end.
Qed.
End PageMore.

(** X10.  Whatever the state, the only operation of the page that posts a
    reservation is the click on Reserve, and what it posts names the id of
    a product that is in the catalogue at that moment, the page's own
    non-empty user id and the quantity in the form; the button state
    [submitting] is set by the same click. *)
Theorem X10_request_names_catalogue_product_and_user
    (ev : ProductsPage.Event) (s : ProductsPage.PageState)
    (body : ProductsPage.ReserveBody) :
  In (ProductsPage.PostReservation body) (snd (ProductsPage.step ev s)) ->
  ev = ProductsPage.ReserveClicked
  /\ ProductsPage.userId s = Some (ProductsPage.b_userId body)
  /\ ProductsPage.b_userId body <> EmptyString
  /\ ProductsPage.selectedProductId s = Some (ProductsPage.b_productId body)
  /\ (exists p, In p (ProductsPage.products s)
                /\ ProductsPage.p_id p = ProductsPage.b_productId body)
  /\ ProductsPage.b_quantity body = ProductsPage.quantity s
  /\ ProductsPage.submitting (fst (ProductsPage.step ev s)) = true.
Proof.
  intros Hin.
  assert (Hev : ev = ProductsPage.ReserveClicked).
  { destruct ev; try reflexivity; exfalso; revert Hin;
      MachineFacts.open_handlers; repeat case_match; cbn;
      intros Hreq;
      repeat (destruct Hreq as [Hreq|Hreq]; try discriminate Hreq);
      contradiction. }
  subst ev. cbn [ProductsPage.step] in *.
  destruct (PageMore.handleReserve_click_posts s body Hin)
    as (Hu & Ht & Hsel & Hp & Hq & Hrun).
  rewrite Hrun. cbn.
  repeat split; try assumption.
  apply UserFacts.truthy_true_nonempty, Ht.
Qed.

Lemma X10_request_witness :
  ProductsPage.submitting
    (fst (ProductsPage.step ProductsPage.ReserveClicked
            (ProductsPage.setSelectedProductId (Some "a") Samples.ready)))
  = true.
Proof.
  refine (proj2 (proj2 (proj2 (proj2 (proj2 (proj2
    (X10_request_names_catalogue_product_and_user ProductsPage.ReserveClicked
       (ProductsPage.setSelectedProductId (Some "a") Samples.ready)
       {| ProductsPage.b_productId := "a";
          ProductsPage.b_quantity := Fin 1%Q;
          ProductsPage.b_userId := "u1" |} _))))))).
  left. reflexivity.
Defined.

(** X11.  The toasts that one run of a handler adds share one id, the
    toast counter of the render that created the handler plus one: when a
    reservation succeeds and the reload that follows fails, the success
    toast and the toast Failed to load data. carry the same id, the counter
    has moved by two, and the time-out of either toast removes both. *)
Theorem X11_toasts_of_one_run_share_an_id
    (cap : ProductsPage.PageState) (p : ProductsPage.Product)
    (res : ProductsPage.Reservation) (e : Thrown)
    (s : ProductsPage.PageState) :
  ProductsPage.truthyId (ProductsPage.userId cap) = true ->
  let s' :=
    ProductsPage.handleReserve_settled cap p (Resolved res) (Rejected e) s in
  exists t1 t2,
    ProductsPage.toasts s' = ProductsPage.toasts s ++ [t1; t2]
    /\ ProductsPage.t_type t1 = ProductsPage.success
    /\ ProductsPage.t_type t2 = ProductsPage.error
    /\ ProductsPage.t_message t2 = "Failed to load data."
    /\ ProductsPage.t_id t1 = ProductsPage.toastCounter cap + 1
    /\ ProductsPage.t_id t2 = ProductsPage.toastCounter cap + 1
    /\ ProductsPage.toastCounter s' = ProductsPage.toastCounter s + 2
    /\ ProductsPage.toasts (ProductsPage.expireToast (ProductsPage.t_id t1) s')
       = filter (fun t => ProductsPage.t_id t
                          <> ProductsPage.toastCounter cap + 1)
                (ProductsPage.toasts s).
Proof.
  intros Hu s'. subst s'.
  unfold ProductsPage.handleReserve_settled, ProductsPage.reloadAll.
  rewrite Hu. cbn.
  eexists _, _. split; [rewrite <- app_assoc; reflexivity|].
  repeat split; cbn; try lia.
  rewrite <- app_assoc, filter_app. cbn [app].
  rewrite !filter_cons, filter_nil. cbn [ProductsPage.t_id].
  destruct (decide (ProductsPage.toastCounter cap + 1
                    <> ProductsPage.toastCounter cap + 1)); [contradiction|].
  apply app_nil_r.
Qed.

Lemma X11_toasts_witness :
  exists t1 t2,
    ProductsPage.toasts
      (ProductsPage.handleReserve_settled Samples.ready Samples.serum
         (Resolved Samples.hold1) (Rejected OtherThrown) Samples.ready)
    = ProductsPage.toasts Samples.ready ++ [t1; t2]
    /\ ProductsPage.t_id t1 = ProductsPage.t_id t2.
Proof.
  destruct (X11_toasts_of_one_run_share_an_id Samples.ready Samples.serum
              Samples.hold1 OtherThrown Samples.ready eq_refl)
    as (t1 & t2 & H & _ & _ & _ & H1 & H2 & _).
  exists t1, t2. split; [exact H|]. rewrite H1, H2. reflexivity.
Defined.

(** X12.  A toast is appended after the toasts already shown and moves the
    counter by one; its time-out removes from the list exactly the toasts
    that carry its id, keeps the others in their order and touches nothing
    else; so when no older toast has that id, the list is back to what it
    was before the toast. *)
Theorem X12_toast_appears_and_expires
    (captured : Z) (ty : ProductsPage.ToastType) (msg : string)
    (s : ProductsPage.PageState) :
  let s1 := ProductsPage.addToast captured ty msg s in
  let s2 := ProductsPage.expireToast (captured + 1) s1 in
  ProductsPage.toasts s1
  = ProductsPage.toasts s
    ++ [{| ProductsPage.t_id := captured + 1; ProductsPage.t_type := ty;
           ProductsPage.t_message := msg |}]
  /\ ProductsPage.toastCounter s1 = ProductsPage.toastCounter s + 1
  /\ ProductsPage.toasts s2
     = filter (fun t => ProductsPage.t_id t <> captured + 1)
              (ProductsPage.toasts s)
  /\ (Forall (fun t => ProductsPage.t_id t <> captured + 1)
             (ProductsPage.toasts s) ->
      ProductsPage.toasts s2 = ProductsPage.toasts s)
  /\ ProductsPage.products s2 = ProductsPage.products s
  /\ ProductsPage.reservations s2 = ProductsPage.reservations s
  /\ ProductsPage.quantity s2 = ProductsPage.quantity s
  /\ ProductsPage.selectedProductId s2 = ProductsPage.selectedProductId s
  /\ ProductsPage.paymentModalReservation s2
     = ProductsPage.paymentModalReservation s.
Proof.
  cbn zeta.
  assert (Hgone : ProductsPage.toasts
                    (ProductsPage.expireToast (captured + 1)
                       (ProductsPage.addToast captured ty msg s))
                  = filter (fun t => ProductsPage.t_id t <> captured + 1)
                           (ProductsPage.toasts s)).
  { unfold ProductsPage.expireToast, ProductsPage.addToast. cbn.
    rewrite filter_app, filter_cons, filter_nil. cbn [ProductsPage.t_id].
    destruct (decide (captured + 1 <> captured + 1)); [contradiction|].
    apply app_nil_r. }
  split; [reflexivity|]. split; [reflexivity|]. split; [exact Hgone|].
  split; [|repeat split].
  intros Hfresh. rewrite Hgone. clear Hgone.
  induction Hfresh as [|t ts Ht _ IH]; [reflexivity|].
  rewrite filter_cons. destruct (decide _); [|contradiction].
  f_equal. exact IH.
Qed.

Lemma X12_toast_witness :
  ProductsPage.toasts
    (ProductsPage.expireToast (0 + 1)
       (ProductsPage.addToast 0 ProductsPage.info "Saved." Samples.ready))
  = ProductsPage.toasts Samples.ready.
Proof.
  refine (proj1 (proj2 (proj2 (proj2
    (X12_toast_appears_and_expires 0 ProductsPage.info "Saved."
       Samples.ready)))) _).
  constructor.
Defined.

Module ReloadMore.
Import ProductsPage.

(** [reloadAll] touches neither the form nor the modal. *)
Lemma reloadAll_frame cap o s :
  selectedProductId (reloadAll cap o s) = selectedProductId s
  /\ quantity (reloadAll cap o s) = quantity s
  /\ paymentModalReservation (reloadAll cap o s) = paymentModalReservation s
  /\ submitting (reloadAll cap o s) = submitting s
  /\ completing (reloadAll cap o s) = completing s.
Proof.
  unfold reloadAll. destruct (negb _); [repeat split|].
  destruct o as [[pd rd]|e]; repeat split.
Qed.


Lemma joinProduct_lookup pd rd i r :
  rd !! i = Some r -> map (joinProduct pd) rd !! i = Some (joinProduct pd r).
Proof. intros H. rewrite list_lookup_fmap' || rewrite list_lookup_fmap. rewrite H. reflexivity. Qed.

Lemma run_cons ev evs s :
  run (ev :: evs) s
  = (fst (run evs (fst (step ev s))),
     snd (step ev s) ++ snd (run evs (fst (step ev s)))).
Proof.
  cbn [run]. destruct (step ev s) as [s1 out1]. cbn [fst snd].
  destruct (run evs s1) as [s2 out2]. reflexivity.
Qed.
End ReloadMore.

(** X13.  A reload that succeeds replaces the catalogue by the fetched one
    and the reservations by the fetched ones in their order; each keeps
    its own fields, and its product is the one it came with or, when it
    came with none, the first product of the fetched catalogue that has
    its product id (none when the catalogue has no such product).  A
    reload that fails keeps both lists and adds the one toast Failed to
    load data.  Both end with the two loading flags off and leave the
    selection, the quantity and the modal alone; without a user id the
    reload does nothing at all. *)
Theorem X13_reload_replaces_lists_and_joins_products
    (cap : ProductsPage.PageState)
    (o : Settled (list ProductsPage.Product * list ProductsPage.Reservation))
    (s : ProductsPage.PageState) :
  let s' := ProductsPage.reloadAll cap o s in
  (ProductsPage.truthyId (ProductsPage.userId cap) = false -> s' = s)
  /\ ProductsPage.selectedProductId s' = ProductsPage.selectedProductId s
  /\ ProductsPage.quantity s' = ProductsPage.quantity s
  /\ ProductsPage.paymentModalReservation s'
     = ProductsPage.paymentModalReservation s
  /\ (ProductsPage.truthyId (ProductsPage.userId cap) = true ->
      ProductsPage.loadingProducts s' = false
      /\ ProductsPage.loadingReservations s' = false
      /\ (forall e, o = Rejected e ->
            ProductsPage.products s' = ProductsPage.products s
            /\ ProductsPage.reservations s' = ProductsPage.reservations s
            /\ ProductsPage.toasts s'
               = ProductsPage.toasts s
                 ++ [{| ProductsPage.t_id := ProductsPage.toastCounter cap + 1;
                        ProductsPage.t_type := ProductsPage.error;
                        ProductsPage.t_message := "Failed to load data." |}])
      /\ (forall pd rd, o = Resolved (pd, rd) ->
            ProductsPage.products s' = pd
            /\ ProductsPage.toasts s' = ProductsPage.toasts s
            /\ length (ProductsPage.reservations s') = length rd
            /\ forall i r, rd !! i = Some r ->
                 exists r',
                   ProductsPage.reservations s' !! i = Some r'
                   /\ ProductsPage.r_id r' = ProductsPage.r_id r
                   /\ ProductsPage.r_productId r' = ProductsPage.r_productId r
                   /\ ProductsPage.r_quantity r' = ProductsPage.r_quantity r
                   /\ ProductsPage.r_status r' = ProductsPage.r_status r
                   /\ ProductsPage.r_expiresAt r' = ProductsPage.r_expiresAt r
                   /\ (forall p, ProductsPage.r_product r = Some p ->
                         ProductsPage.r_product r' = Some p)
                   /\ (ProductsPage.r_product r = None ->
                       (ProductsPage.r_product r' = None
                        /\ forall p, In p pd ->
                             ProductsPage.p_id p
                             <> ProductsPage.r_productId r)
                       \/ exists pre p post,
                            ProductsPage.r_product r' = Some p
                            /\ pd = pre ++ p :: post
                            /\ ProductsPage.p_id p = ProductsPage.r_productId r
                            /\ Forall (fun q => ProductsPage.p_id q
                                                <> ProductsPage.r_productId r)
                                      pre))).
Proof.
  cbn zeta.
  destruct (ReloadMore.reloadAll_frame cap o s) as (Hsel & Hq & Hm & _ & _).
  split.
  { intros Hu. unfold ProductsPage.reloadAll. rewrite Hu. reflexivity. }
  split; [exact Hsel|]. split; [exact Hq|]. split; [exact Hm|].
  intros Hu. unfold ProductsPage.reloadAll. rewrite Hu. cbn [negb].
  split; [reflexivity|]. split; [reflexivity|]. split.
  - intros e ->. repeat split.
  - intros pd rd ->. cbn.
    split; [reflexivity|]. split; [reflexivity|].
    split; [apply length_map|].
    intros i r Hi. exists (ProductsPage.joinProduct pd r).
    split; [apply ReloadMore.joinProduct_lookup, Hi|].
    cbn. repeat split.
    + intros p ->. reflexivity.
    + intros ->.
      destruct (ProductsPage.findProduct (ProductsPage.r_productId r) pd)
        as [p|] eqn:Hf.
      * right. unfold ProductsPage.findProduct in Hf.
        clear - Hf. induction pd as [|q pd IH]; [discriminate|].
        cbn in Hf.
        destruct (String.eqb (ProductsPage.p_id q)
                    (ProductsPage.r_productId r)) eqn:Hq.
        -- injection Hf as <-. exists [], q, pd.
           repeat split; [apply String.eqb_eq, Hq|constructor].
        -- destruct (IH Hf) as (pre & p' & post & Hp & -> & Hid & Hpre).
           injection Hp as <-.
           exists (q :: pre), p, post. repeat split; [exact Hid|].
           constructor; [|exact Hpre]. apply String.eqb_neq, Hq.
      * left. split; [reflexivity|].
        apply PageMore.findProduct_None, Hf.
Qed.

Lemma X13_reload_witness :
  exists r',
    ProductsPage.reservations
      (ProductsPage.reloadAll Samples.ready
         (Resolved ([Samples.serum], [Samples.hold1])) Samples.ready)
    !! 0%nat = Some r'
    /\ ProductsPage.r_id r' = "r1".
Proof.
  destruct (X13_reload_replaces_lists_and_joins_products Samples.ready
              (Resolved ([Samples.serum], [Samples.hold1])) Samples.ready)
    as (_ & _ & _ & _ & H).
  destruct (H eq_refl) as (_ & _ & _ & Hok).
  destruct (Hok _ _ eq_refl) as (_ & _ & _ & Hat).
  destruct (Hat 0%nat Samples.hold1 eq_refl) as (r' & Hr & Hid & _).
  exists r'. split; [exact Hr|exact Hid].
Defined.



(** X15.  Reset of the demo data: when the user declines the confirm
    dialog nothing is sent and nothing changes; otherwise exactly one reset
    request is sent.  When it has settled both loading flags are off; after
    a success the selection is cleared and the quantity is back to 1,
    whatever the reload did; after a failure the selection, the quantity,
    the catalogue and the reservations are as they were and one error toast
    with the error's message is added. *)
Theorem X15_reset_clears_selection_only_on_success
    (cap : ProductsPage.PageState) (posted : Settled unit)
    (o : Settled (list ProductsPage.Product * list ProductsPage.Reservation))
    (s : ProductsPage.PageState) :
  let s' := ProductsPage.handleResetDatabase_settled cap posted o s in
  ProductsPage.handleResetDatabase_click false s = (s, [])
  /\ snd (ProductsPage.handleResetDatabase_click true s)
     = [ProductsPage.PostReset]
  /\ ProductsPage.loadingProducts s' = false
  /\ ProductsPage.loadingReservations s' = false
  /\ (forall u, posted = Resolved u ->
        ProductsPage.selectedProductId s' = None
        /\ ProductsPage.quantity s' = Fin 1%Q)
  /\ (forall e, posted = Rejected e ->
        ProductsPage.selectedProductId s' = ProductsPage.selectedProductId s
        /\ ProductsPage.quantity s' = ProductsPage.quantity s
        /\ ProductsPage.products s' = ProductsPage.products s
        /\ ProductsPage.reservations s' = ProductsPage.reservations s
        /\ ProductsPage.toasts s'
           = ProductsPage.toasts s
             ++ [{| ProductsPage.t_id := ProductsPage.toastCounter cap + 1;
                    ProductsPage.t_type := ProductsPage.error;
                    ProductsPage.t_message :=
                      message_or e "Failed to reset database." |}]).
Proof.
  cbn zeta. unfold ProductsPage.handleResetDatabase_settled.
  split; [reflexivity|]. split; [reflexivity|].
  split; [reflexivity|]. split; [reflexivity|].
  split.
  - intros u ->. split; reflexivity.
  - intros e ->. repeat split.
Qed.

Lemma X15_reset_witness :
  ProductsPage.selectedProductId
    (ProductsPage.handleResetDatabase_settled Samples.ready (Resolved tt)
       (Rejected OtherThrown)
       (ProductsPage.setSelectedProductId (Some "a") Samples.ready))
  = None.
Proof.
  exact (proj1 (proj1 (proj2 (proj2 (proj2 (proj2
    (X15_reset_clears_selection_only_on_success Samples.ready (Resolved tt)
       (Rejected OtherThrown)
       (ProductsPage.setSelectedProductId (Some "a") Samples.ready))))))
    tt eq_refl)).
Defined.

(** X16.  However the page is driven, the selected product id is the one
    it started with or the id of a product card that was clicked while the
    card showed stock above 0: a click on a sold-out card never selects
    it. *)
Theorem X16_selection_comes_from_an_in_stock_click
    (evs : list ProductsPage.Event) (s : ProductsPage.PageState)
    (i : string) :
  ProductsPage.selectedProductId (fst (ProductsPage.run evs s)) = Some i ->
  ProductsPage.selectedProductId s = Some i
  \/ exists p, In (ProductsPage.ProductClicked p) evs
               /\ 0 < ProductsPage.p_availableStock p
               /\ ProductsPage.p_id p = i.
Proof.
  revert s. induction evs as [|ev evs IH]; intros s H.
  - left. exact H.
  - rewrite ReloadMore.run_cons in H. cbn [fst] in H.
    destruct (IH _ H) as [Hs|(p & Hin & Hp & Hid)].
    + destruct (PageMore.step_selection ev s)
        as [Heq|[Heq|(p & -> & Hp & Heq)]].
      * left. rewrite <- Heq. exact Hs.
      * rewrite Heq in Hs. discriminate.
      * right. exists p. split; [left; reflexivity|]. split; [exact Hp|].
        rewrite Heq in Hs. injection Hs as Hs. exact Hs.
    + right. exists p. split; [right; exact Hin|]. split; assumption.
Qed.

Lemma X16_selection_witness :
  ProductsPage.selectedProductId Samples.ready = Some "a"
  \/ exists p, In (ProductsPage.ProductClicked p)
                 [ProductsPage.ProductClicked Samples.serum;
                  ProductsPage.QuantityChanged (Fin 2%Q)]
               /\ 0 < ProductsPage.p_availableStock p
               /\ ProductsPage.p_id p = "a".
Proof.
  apply (X16_selection_comes_from_an_in_stock_click
           [ProductsPage.ProductClicked Samples.serum;
            ProductsPage.QuantityChanged (Fin 2%Q)] Samples.ready "a").
  reflexivity.
Defined.

(** X17.  The two revisions of handleReserve: whenever the revision with
    the user, catalogue and quantity guards posts a reservation, the
    revision that only checks the selection, run in the same state with
    the same user id, posts the same body and sets the same flag, provided
    the product id is not the empty string (which the later revision
    treats as no selection). *)
Theorem X17_later_revision_posts_what_the_guarded_one_posts
    (s : ProductsPage.PageState) (body : ProductsPage.ReserveBody) :
  In (ProductsPage.PostReservation body)
     (snd (ProductsPage.handleReserve_click s)) ->
  ProductsPage.b_productId body <> EmptyString ->
  ProductsPageV2.handleReserve_click (ProductsPage.b_userId body) s
  = ProductsPage.handleReserve_click s.
Proof.
  intros Hin Hne.
  destruct (PageMore.handleReserve_click_posts s body Hin)
    as (_ & _ & Hsel & _ & Hq & ->).
  unfold ProductsPageV2.handleReserve_click. rewrite Hsel.
  rewrite (UserFacts.truthy_nonempty _ Hne). rewrite <- Hq.
  destruct body; reflexivity.
Qed.

Lemma X17_later_revision_witness :
  ProductsPageV2.handleReserve_click "u1"
    (ProductsPage.setSelectedProductId (Some "a") Samples.ready)
  = ProductsPage.handleReserve_click
      (ProductsPage.setSelectedProductId (Some "a") Samples.ready).
Proof.
  refine (X17_later_revision_posts_what_the_guarded_one_posts
            (ProductsPage.setSelectedProductId (Some "a") Samples.ready)
            {| ProductsPage.b_productId := "a";
               ProductsPage.b_quantity := Fin 1%Q;
               ProductsPage.b_userId := "u1" |} _ _).
  - left. reflexivity.
  - discriminate.
Defined.

(** X18.  fetchJSON resolves exactly when the server answered with an ok
    response whose body parsed, and then to the parsed value.  For a
    response that is not ok it rejects with the response text, or with the
    status text when the text is empty, and that is what the toast of a
    failed reservation shows: the fixed stock message when it contains the
    words Not enough stock, the text itself otherwise. *)
Theorem X18_response_text_reaches_the_toast
    (cap : ProductsPage.PageState) (p : ProductsPage.Product)
    (fr : FetchResult ProductsPage.Reservation)
    (o : Settled (list ProductsPage.Product * list ProductsPage.Reservation))
    (s : ProductsPage.PageState) :
  (forall v, fetchJSON fr = Resolved v <->
             exists r, fr = Responded r /\ ok r = true
                       /\ json r = Resolved v)
  /\ (forall r, fr = Responded r -> ok r = false ->
        let shown := if decide (text r = EmptyString)
                     then statusText r else text r in
        ProductsPage.toasts
          (ProductsPage.handleReserve_settled cap p (fetchJSON fr) o s)
        = ProductsPage.toasts s
          ++ [{| ProductsPage.t_id := ProductsPage.toastCounter cap + 1;
                 ProductsPage.t_type := ProductsPage.error;
                 ProductsPage.t_message :=
                   if includes "Not enough stock" shown
                   then "Cannot reserve more than available stock."
                   else shown |}]).
Proof.
  split.
  - intros v. split.
    + destruct fr as [m|r]; cbn; [discriminate|].
      destruct (ok r) eqn:Hok; cbn; [|discriminate].
      intros H. exists r. auto.
    + intros (r & -> & Hok & Hj). cbn. rewrite Hok. exact Hj.
  - intros r -> Hok. cbn zeta. cbn [fetchJSON]. rewrite Hok. cbn [negb].
    unfold ProductsPage.handleReserve_settled, or_else. cbn [message_or].
    destruct (text r) as [|a t] eqn:Ht.
    + cbn [truthy]. destruct (decide _); [|contradiction].
      destruct (includes _ _); reflexivity.
    + destruct (decide _); [discriminate|].
      change (truthy (String a t)) with true. cbn iota.
      destruct (includes _ _); reflexivity.
Qed.

Lemma X18_response_text_witness :
  exists t,
    ProductsPage.toasts
      (ProductsPage.handleReserve_settled Samples.ready Samples.serum
         (fetchJSON (Responded {| ok := false; text := EmptyString;
                                  statusText := "Conflict";
                                  json := Rejected OtherThrown |}))
         (Rejected OtherThrown) Samples.ready)
    = ProductsPage.toasts Samples.ready ++ [t]
    /\ ProductsPage.t_message t = "Conflict".
Proof.
  eexists. split.
  - apply (proj2 (X18_response_text_reaches_the_toast Samples.ready
                    Samples.serum
                    (Responded {| ok := false; text := EmptyString;
                                  statusText := "Conflict";
                                  json := Rejected OtherThrown |})
                    (Rejected OtherThrown) Samples.ready) _ eq_refl eq_refl).
  - reflexivity.
Defined.

(** ** The cookie of the multi-store revision *)

Module CookieFacts.
Import User UserExtra.

Lemma app_nil s : EmptyString +:+ s = s.
Proof. reflexivity. Qed.

Lemma app_cons a s t : String a s +:+ t = String a (s +:+ t).
Proof. reflexivity. Qed.

Ltac app_steps := rewrite ?app_cons, ?app_nil.

Lemma append_empty_r s : s +:+ EmptyString = s.
Proof.
  induction s as [|a s IH]; [reflexivity|]. rewrite app_cons, IH.
  reflexivity.
Qed.

Lemma rev_app_rev_app s1 s2 s3 :
  String.rev_app (String.rev_app s1 s2) s3 = String.rev_app s2 (s1 +:+ s3).
Proof.
  revert s2 s3. induction s1 as [|a s1 IH]; intros s2 s3;
    [reflexivity|].
  cbn [String.rev_app]. rewrite IH. reflexivity.
Qed.

Lemma rev_rev s : String.rev (String.rev s) = s.
Proof.
  unfold String.rev. rewrite rev_app_rev_app. cbn [String.rev_app].
  apply append_empty_r.
Qed.

Lemma allChars_rev_app P s1 s2 :
  allChars P (String.rev_app s1 s2) = allChars P s1 && allChars P s2.
Proof.
  revert s2. induction s1 as [|a s1 IH]; intros s2; cbn; [reflexivity|].
  rewrite IH. cbn. destruct (P a), (allChars P s1); reflexivity.
Qed.

Lemma allChars_app P s1 s2 :
  allChars P (s1 +:+ s2) = allChars P s1 && allChars P s2.
Proof.
  induction s1 as [|a s1 IH]; [reflexivity|].
  rewrite app_cons. cbn [allChars]. rewrite IH. destruct (P a); reflexivity.
Qed.

Lemma allChars_impl (P Q : ascii -> bool) s :
  (forall a, P a = true -> Q a = true) ->
  allChars P s = true -> allChars Q s = true.
Proof.
  intros HPQ. induction s as [|a s IH]; cbn; [reflexivity|].
  intros H. apply andb_true_iff in H as [Ha Hs].
  rewrite (HPQ a Ha), (IH Hs). reflexivity.
Qed.

Lemma cookieName_parts s :
  cookieName s = true ->
  without ";" s = true /\ without "=" s = true /\ noSpace s = true.
Proof.
  intros H. repeat split; revert H; apply allChars_impl; intros a;
    destruct (bool_decide (a = ";"%char)), (bool_decide (a = "="%char)),
      (Ascii.is_space a); cbn; congruence.
Qed.

Lemma cookieValue_parts s :
  cookieValue s = true -> without ";" s = true /\ noSpace s = true.
Proof.
  intros H. repeat split; revert H; apply allChars_impl; intros a;
    destruct (bool_decide (a = ";"%char)), (Ascii.is_space a); cbn;
    congruence.
Qed.

Lemma trimStart_noSpace s : noSpace s = true -> trimStart s = s.
Proof.
  destruct s as [|a s]; [reflexivity|]. cbn.
  destruct (Ascii.is_space a); [discriminate|reflexivity].
Qed.

Lemma trim_noSpace s : noSpace s = true -> trim s = s.
Proof.
  intros H. unfold trim. rewrite (trimStart_noSpace s H).
  rewrite trimStart_noSpace; [apply rev_rev|].
  unfold noSpace, String.rev. rewrite allChars_rev_app.
  unfold noSpace in H. rewrite H. reflexivity.
Qed.

Lemma trim_leading_space s : trim (String " " s) = trim s.
Proof. reflexivity. Qed.

Lemma split_on_nonempty c s : split_on c s <> [].
Proof.
  destruct s as [|a s]; cbn; [discriminate|].
  destruct (decide (a = c)); [discriminate|].
  destruct (split_on c s); discriminate.
Qed.

(** Without the separator there is one piece. *)
Lemma split_on_without c s : without c s = true -> split_on c s = [s].
Proof.
  induction s as [|a s IH]; cbn; [reflexivity|].
  intros H. apply andb_true_iff in H as [Ha Hs].
  destruct (decide (a = c)) as [->|Hne].
  - rewrite bool_decide_eq_true_2 in Ha by reflexivity. discriminate.
  - rewrite (IH Hs). reflexivity.
Qed.

(** The first piece ends at the first separator. *)
Lemma split_on_first c s r :
  without c s = true ->
  split_on c (s +:+ String c r) = s :: split_on c r.
Proof.
  induction s as [|a s IH]; app_steps; cbn.
  - intros _. destruct (decide (c = c)); [reflexivity|contradiction].
  - intros H. apply andb_true_iff in H as [Ha Hs].
    destruct (decide (a = c)) as [->|Hne].
    + rewrite bool_decide_eq_true_2 in Ha by reflexivity. discriminate.
    + rewrite (IH Hs). reflexivity.
Qed.

Lemma cookieText_ok nv :
  cookieName (fst nv) = true -> cookieValue (snd nv) = true ->
  without ";" (cookieText nv) = true /\ noSpace (cookieText nv) = true.
Proof.
  intros Hn Hv.
  destruct (cookieName_parts _ Hn) as (Hn1 & _ & Hn3).
  destruct (cookieValue_parts _ Hv) as (Hv1 & Hv3).
  unfold cookieText, without, noSpace in *.
  rewrite !allChars_app, Hn1, Hn3, Hv1, Hv3. split; reflexivity.
Qed.

Lemma document_cookie_cons nv nv' jar :
  document_cookie (nv :: nv' :: jar)
  = cookieText nv +:+ String ";" (String " " (document_cookie (nv' :: jar))).
Proof. reflexivity. Qed.

(** [document.cookie.split(';').map(c => c.trim())] gives the texts of
    the cookies, in the order of the jar. *)
Lemma cookie_pieces jar :
  jarOk jar -> jar <> [] ->
  map trim (split_on ";" (document_cookie jar)) = map cookieText jar.
Proof.
  induction 1 as [|nv jar (_ & Hn & Hv) Hjar IH]; [contradiction|].
  intros _. destruct (cookieText_ok nv Hn Hv) as [Hsemi Hsp].
  destruct jar as [|nv' jar].
  - change (document_cookie [nv]) with (cookieText nv).
    rewrite (split_on_without _ _ Hsemi). cbn [map].
    rewrite (trim_noSpace _ Hsp). reflexivity.
  - rewrite document_cookie_cons, (split_on_first _ _ _ Hsemi).
    specialize (IH ltac:(discriminate)).
    rewrite (map_cons cookieText nv), <- IH.
    cbn [map]. rewrite (trim_noSpace _ Hsp). f_equal.
    cbn [split_on]. destruct (decide (" "%char = ";"%char)); [discriminate|].
    destruct (split_on ";" (document_cookie (nv' :: jar))) as [|h t] eqn:Hs.
    + exfalso. exact (split_on_nonempty _ _ Hs).
    + cbn [map]. rewrite trim_leading_space. reflexivity.
Qed.

(** [c.startsWith(name + '=')] picks the cookie of that name. *)
Lemma prefix_cookieText name n v :
  without "=" name = true -> without "=" n = true ->
  String.prefix (name +:+ "=") (n +:+ "=" +:+ v) = true <-> name = n.
Proof.
  revert n. induction name as [|a name IH]; intros n Hname Hn.
  - destruct n as [|b n]; app_steps; cbn [String.prefix].
    + destruct v; split; reflexivity.
    + cbn in Hn. apply andb_true_iff in Hn as [Hb _].
      destruct (ascii_dec "=" b) as [<-|Hne].
      * rewrite bool_decide_eq_true_2 in Hb by reflexivity. discriminate.
      * split; discriminate.
  - cbn in Hname. apply andb_true_iff in Hname as [Ha Hname].
    destruct n as [|b n]; app_steps; cbn [String.prefix].
    + destruct (ascii_dec a "=") as [->|Hne].
      * rewrite bool_decide_eq_true_2 in Ha by reflexivity. discriminate.
      * split; discriminate.
    + cbn in Hn. apply andb_true_iff in Hn as [_ Hn].
      destruct (ascii_dec a b) as [->|Hne].
      * rewrite (IH n Hname Hn). split; [intros ->; reflexivity|].
        intros [= ->]. reflexivity.
      * split; [discriminate|]. intros [= -> _]. contradiction.
Qed.

Lemma find_cookieText name jar :
  cookieName name = true -> jarOk jar ->
  find (fun c => String.prefix (name +:+ "=") c) (map cookieText jar)
  = option_map (fun v => name +:+ "=" +:+ v)
      (ProductsPage.Map_get name jar).
Proof.
  intros Hname. destruct (cookieName_parts _ Hname) as (_ & Heq & _).
  induction 1 as [|[n v] jar (_ & Hn & _) _ IH]; [reflexivity|].
  destruct (cookieName_parts _ Hn) as (_ & Hneq & _). cbn in Hneq.
  cbn [map find ProductsPage.Map_get]. unfold cookieText at 1. cbn [fst snd].
  pose proof (prefix_cookieText name n v Heq Hneq) as Hp.
  destruct (decide (name = n)) as [->|Hne].
  - rewrite (proj2 Hp eq_refl). reflexivity.
  - destruct (String.prefix _ _); [exfalso; apply Hne, Hp; reflexivity|].
    exact IH.
Qed.

Lemma prefix_of_empty name :
  String.prefix (name +:+ "=") EmptyString = false.
Proof. destruct name; reflexivity. Qed.

(** What [getCookie] reads in a jar of well-formed cookies. *)
Lemma getCookie_jar decode name b jar :
  cookieJar b = Some jar -> jarOk jar -> cookieName name = true ->
  getCookie decode name b
  = match ProductsPage.Map_get name jar with
    | Some v => decode (upToEquals v)
    | None => None
    end.
Proof.
  intros Hb Hjar Hname. unfold getCookie. rewrite Hb.
  destruct jar as [|nv jar].
  - change (map trim (split_on ";" (document_cookie []))) with [EmptyString].
    cbn [find]. rewrite prefix_of_empty. reflexivity.
  - rewrite (cookie_pieces _ Hjar) by discriminate.
    rewrite (find_cookieText _ _ Hname Hjar).
    destruct (ProductsPage.Map_get name (nv :: jar)) as [v|];
      [|reflexivity].
    cbn [option_map].
    destruct (cookieName_parts _ Hname) as (_ & Heq & _).
    change ("=" +:+ v) with (String "=" v).
    rewrite (split_on_first _ _ _ Heq). unfold upToEquals.
    destruct (split_on "=" v) as [|h t] eqn:Hs;
      [exfalso; exact (split_on_nonempty _ _ Hs)|reflexivity].
Qed.

Lemma upToEquals_without v : without "=" v = true -> upToEquals v = v.
Proof.
  intros H. unfold upToEquals. rewrite (split_on_without _ _ H). reflexivity.
Qed.

Lemma Map_get_set_other {V} k k' (v : V) m :
  k' <> k ->
  ProductsPage.Map_get k' (ProductsPage.Map_set k v m)
  = ProductsPage.Map_get k' m.
Proof.
  intros Hne. induction m as [|[k0 v0] m IH]; cbn.
  - destruct (decide (k' = k)); [contradiction|reflexivity].
  - destruct (decide (k = k0)) as [->|Hk]; cbn.
    + destruct (decide (k' = k0)); [contradiction|reflexivity].
    + destruct (decide (k' = k0)); [reflexivity|exact IH].
Qed.

Lemma jarOk_store name v jar :
  name <> EmptyString -> cookieName name = true -> cookieName v = true ->
  jarOk jar -> jarOk (cookie_store name v jar).
Proof.
  intros Hne Hn Hv Hjar. unfold jarOk, cookie_store.
  apply PatchMore.Map_set_Forall; [|exact Hjar].
  cbn. split; [exact Hne|]. split; [exact Hn|].
  revert Hv. apply allChars_impl. intros a.
  destruct (bool_decide (a = ";"%char)), (bool_decide (a = "="%char)),
    (Ascii.is_space a); cbn; congruence.
Qed.

Lemma jarOk_expire name jar : jarOk jar -> jarOk (cookie_expire name jar).
Proof.
  unfold jarOk, cookie_expire. induction 1 as [|nv jar Hnv _ IH].
  - constructor.
  - rewrite filter_cons. destruct (decide _); [constructor; assumption|].
    exact IH.
Qed.

Lemma Map_get_expire name jar :
  ProductsPage.Map_get name (cookie_expire name jar) = None.
Proof.
  unfold cookie_expire. induction jar as [|[n v] jar IH]; [reflexivity|].
  rewrite filter_cons. cbn [fst].
  destruct (decide (n <> name)) as [Hne|Heq]; [|exact IH].
  cbn. destruct (decide (name = n)) as [->|_]; [contradiction|exact IH].
Qed.

Lemma Map_get_expire_other name name' jar :
  name' <> name ->
  ProductsPage.Map_get name' (cookie_expire name jar)
  = ProductsPage.Map_get name' jar.
Proof.
  intros Hne. unfold cookie_expire.
  induction jar as [|[n v] jar IH]; [reflexivity|].
  rewrite filter_cons. cbn [fst].
  destruct (decide (n <> name)) as [Hn|Heq]; cbn.
  - destruct (decide (name' = n)); [reflexivity|exact IH].
  - destruct (decide (name' = n)) as [->|_]; [|exact IH].
    exfalso. apply Heq. exact Hne.
Qed.

Lemma COOKIE_NAME_ok :
  COOKIE_NAME <> EmptyString /\ cookieName COOKIE_NAME = true.
Proof. split; [discriminate|reflexivity]. Qed.
End CookieFacts.

(** X19.  In a browser whose cookies are well formed (a non-empty name
    without semicolon, equals sign or white space; a value without
    semicolon or white space), getCookie finds the first cookie of the
    asked name and returns the decoding of its value up to the first
    equals sign in it; it returns null when the jar has no cookie of that
    name, when decoding throws, and when reading the cookies throws. *)
Theorem X19_getCookie_reads_the_named_cookie
    (decodeURIComponent : string -> option string) (name : string)
    (b : User.Browser) :
  UserExtra.cookieName name = true ->
  (forall jar, User.cookieJar b = Some jar -> UserExtra.jarOk jar) ->
  User.getCookie decodeURIComponent name b
  = match User.cookieJar b with
    | None => None
    | Some jar =>
        match ProductsPage.Map_get name jar with
        | None => None
        | Some v => decodeURIComponent (UserExtra.upToEquals v)
        end
    end
  /\ (forall jar v, User.cookieJar b = Some jar ->
        ProductsPage.Map_get name jar = Some v ->
        UserExtra.without "=" v = true ->
        User.getCookie decodeURIComponent name b = decodeURIComponent v).
Proof.
  intros Hname Hjar.
  assert (Hread : User.getCookie decodeURIComponent name b
                  = match User.cookieJar b with
                    | None => None
                    | Some jar =>
                        match ProductsPage.Map_get name jar with
                        | None => None
                        | Some v => decodeURIComponent (UserExtra.upToEquals v)
                        end
                    end).
  { destruct (User.cookieJar b) as [jar|] eqn:Hb.
    - apply (CookieFacts.getCookie_jar _ _ _ jar Hb (Hjar jar eq_refl) Hname).
    - unfold User.getCookie. rewrite Hb. reflexivity. }
  split; [exact Hread|].
  intros jar v Hb Hv Hno. rewrite Hread, Hb, Hv.
  rewrite (CookieFacts.upToEquals_without _ Hno). reflexivity.
Qed.

Lemma X19_getCookie_witness :
  User.getCookie Some "flash_sale_user_id"
    {| User.localStorage := None; User.sessionStorage := None;
       User.cookieJar := Some [("theme", "dark");
                               ("flash_sale_user_id", "abc=def")] |}
  = Some "abc".
Proof.
  refine (eq_trans (proj1 (X19_getCookie_reads_the_named_cookie Some
            "flash_sale_user_id"
            {| User.localStorage := None; User.sessionStorage := None;
               User.cookieJar := Some [("theme", "dark");
                                       ("flash_sale_user_id", "abc=def")] |}
            eq_refl _)) eq_refl).
  intros jar [= <-]. repeat constructor; discriminate.
Defined.

(** X20.  Round trip of the cookie: after setCookie name value, getCookie
    name returns value, and the cookies of other names read as before,
    for a jar of well-formed cookies and a value whose encoding is free of
    semicolons, equals signs and white space and decodes back to it (what
    encodeURIComponent and decodeURIComponent give); where the cookies
    cannot be accessed setCookie changes nothing. *)
Theorem X20_cookie_round_trip
    (encodeURIComponent : string -> string)
    (decodeURIComponent : string -> option string)
    (name value : string) (b : User.Browser) :
  name <> EmptyString -> UserExtra.cookieName name = true ->
  UserExtra.cookieName (encodeURIComponent value) = true ->
  decodeURIComponent (encodeURIComponent value) = Some value ->
  (forall jar, User.cookieJar b = Some jar -> UserExtra.jarOk jar) ->
  let b' := User.setCookie encodeURIComponent name value b in
  (User.cookieJar b = None -> b' = b)
  /\ (User.cookieJar b <> None ->
      User.getCookie decodeURIComponent name b' = Some value)
  /\ (forall other, other <> name -> UserExtra.cookieName other = true ->
        User.getCookie decodeURIComponent other b'
        = User.getCookie decodeURIComponent other b)
  /\ User.localStorage b' = User.localStorage b
  /\ User.sessionStorage b' = User.sessionStorage b.
Proof.
  intros Hne Hname Henc Hdec Hjar. cbn zeta.
  unfold User.setCookie.
  destruct (User.cookieJar b) as [jar|] eqn:Hb.
  - pose proof (CookieFacts.jarOk_store name _ jar Hne Hname Henc
                  (Hjar jar eq_refl)) as Hok.
    assert (Hb' : User.cookieJar
                    (User.withCookieJar
                       (Some (User.cookie_store name
                                (encodeURIComponent value) jar)) b)
                  = Some (User.cookie_store name
                            (encodeURIComponent value) jar))
      by reflexivity.
    split; [discriminate|]. split; [|split; [|split; reflexivity]].
    + intros _.
      rewrite (CookieFacts.getCookie_jar _ _ _ _ Hb' Hok Hname).
      unfold User.cookie_store. rewrite UserFacts.Map_get_set.
      rewrite CookieFacts.upToEquals_without; [exact Hdec|].
      apply (CookieFacts.cookieName_parts _ Henc).
    + intros other Hother Hoth.
      rewrite (CookieFacts.getCookie_jar _ _ _ _ Hb' Hok Hoth).
      rewrite (CookieFacts.getCookie_jar _ _ _ _ Hb (Hjar jar eq_refl) Hoth).
      unfold User.cookie_store.
      rewrite (CookieFacts.Map_get_set_other _ _ _ _ Hother). reflexivity.
  - split; [reflexivity|]. split; [intros H; contradiction|].
    split; [reflexivity|split; reflexivity].
Qed.

Lemma X20_cookie_round_trip_witness :
  User.getCookie Some "flash_sale_user_id"
    (User.setCookie id "flash_sale_user_id" "id-7"
       {| User.localStorage := None; User.sessionStorage := None;
          User.cookieJar := Some [("flash_sale_user_id", "old")] |})
  = Some "id-7".
Proof.
  refine (proj1 (proj2 (X20_cookie_round_trip id Some "flash_sale_user_id"
            "id-7"
            {| User.localStorage := None; User.sessionStorage := None;
               User.cookieJar := Some [("flash_sale_user_id", "old")] |}
            _ eq_refl eq_refl eq_refl _)) _).
  - discriminate.
  - intros jar [= <-]. repeat constructor; discriminate.
  - discriminate.
Defined.

Module RestoreFacts.
Import User UserExtra.

Section Restore.
Variable encodeURIComponent : string -> string.
Variable decodeURIComponent : string -> option string.
Variable crypto_randomUUID : option (nat -> string).
Variable fallbackSuffix : nat -> string.

Abbreviation multi :=
  (getOrCreateUserId encodeURIComponent decodeURIComponent
     crypto_randomUUID fallbackSuffix).
Abbreviation sync i b :=
  (setCookie encodeURIComponent COOKIE_NAME i
     (safeSetSessionStorage i (safeSetLocalStorage i b))).

(** The call returns an id that the browser has, whatever the counter of
    draws. *)
Lemma multi_existing b d x :
  existingId decodeURIComponent b = Some x ->
  fst (multi {| window := Some b; draws := d |}) = x.
Proof.
  intros H. unfold getOrCreateUserId. cbn [window]. rewrite H. reflexivity.
Qed.

Lemma multi_fresh b d :
  existingId decodeURIComponent b = None ->
  fst (multi {| window := Some b; draws := d |})
  = generateId crypto_randomUUID fallbackSuffix d
  /\ draws (snd (multi {| window := Some b; draws := d |})) = S d.
Proof.
  intros H. unfold getOrCreateUserId. cbn [window draws]. rewrite H.
  split; reflexivity.
Qed.

(** The cookie that the sync wrote reads back. *)
Lemma getCookie_synced i b jar b2 :
  cookieJar b = Some jar -> jarOk jar ->
  cookieName (encodeURIComponent i) = true ->
  decodeURIComponent (encodeURIComponent i) = Some i ->
  cookieJar b2 = cookieJar (sync i b) ->
  getCookie decodeURIComponent COOKIE_NAME b2 = Some i.
Proof.
  intros Hb Hjar Henc Hdec Hb2.
  destruct (UserFacts.synced_cookie encodeURIComponent i b jar Hb)
    as (jar' & Hjar' & Hget).
  assert (Hok : jarOk jar').
  { revert Hjar'. destruct b as [l s c]. cbn in Hb. subst c.
    unfold setCookie, safeSetSessionStorage, safeSetLocalStorage.
    destruct l, s; cbn; intros [= <-];
      apply CookieFacts.jarOk_store;
      solve [discriminate | reflexivity | assumption]. }
  rewrite Hjar' in Hb2.
  rewrite (CookieFacts.getCookie_jar _ COOKIE_NAME _ _ Hb2 Hok eq_refl),
    Hget.
  rewrite CookieFacts.upToEquals_without; [exact Hdec|].
  apply (CookieFacts.cookieName_parts _ Henc).
Qed.

(** What is left in the three stores after [clearUserIdEverywhere]. *)
Lemma cleared_reads b d :
  (forall jar, cookieJar b = Some jar -> jarOk jar) ->
  exists b',
    clearUserIdEverywhere {| window := Some b; draws := d |}
    = {| window := Some b'; draws := d |}
    /\ safeGetLocalStorage b' = None
    /\ safeGetSessionStorage b' = None
    /\ getCookie decodeURIComponent COOKIE_NAME b' = None
    /\ (forall k, k <> STORAGE_KEY ->
          (forall ls, localStorage b = Some ls ->
             exists ls', localStorage b' = Some ls' /\ ls' !! k = ls !! k)
          /\ (forall ss, sessionStorage b = Some ss ->
                exists ss', sessionStorage b' = Some ss'
                            /\ ss' !! k = ss !! k))
    /\ (forall other, other <> COOKIE_NAME -> cookieName other = true ->
          getCookie decodeURIComponent other b'
          = getCookie decodeURIComponent other b).
Proof.
  intros Hjar. eexists. split; [reflexivity|].
  destruct b as [l s c]. cbn [localStorage sessionStorage cookieJar] in *.
  split; [destruct l, s, c; cbn; try reflexivity; apply lookup_delete_eq|].
  split; [destruct l, s, c; cbn; try reflexivity; apply lookup_delete_eq|].
  split; [|split].
  - destruct c as [jar|].
    + pose proof (CookieFacts.jarOk_expire COOKIE_NAME jar (Hjar jar eq_refl))
        as Hok.
      destruct l, s; cbn -[getCookie];
        (erewrite CookieFacts.getCookie_jar;
           [rewrite CookieFacts.Map_get_expire; reflexivity
           |reflexivity|exact Hok|reflexivity]).
    + destruct l, s; reflexivity.
  - intros k Hk. split.
    + intros ls [= ->]. destruct s, c; cbn; eexists;
        (split; [reflexivity|apply lookup_delete_ne; congruence]).
    + intros ss [= ->]. destruct l, c; cbn; eexists;
        (split; [reflexivity|apply lookup_delete_ne; congruence]).
  - intros other Hother Hoth. destruct c as [jar|].
    + pose proof (CookieFacts.jarOk_expire COOKIE_NAME jar (Hjar jar eq_refl))
        as Hok.
      rewrite (CookieFacts.getCookie_jar _ other
                 {| localStorage := l; sessionStorage := s;
                    cookieJar := Some jar |} jar eq_refl
                 (Hjar jar eq_refl) Hoth).
      destruct l, s; cbn -[getCookie];
        (erewrite CookieFacts.getCookie_jar;
           [rewrite (CookieFacts.Map_get_expire_other _ _ jar Hother);
            reflexivity
           |reflexivity|exact Hok|exact Hoth]).
    + destruct l, s; reflexivity.
Qed.
End Restore.
End RestoreFacts.

(** ** getOrCreateUserId, both revisions *)

(** C9, as amended.  In a browser whose [localStorage] can be read and
    written, and with a generator that never yields the empty string, a
    second call of [getOrCreateUserId] returns the id of the first: the
    simple revision stores the id it returns under its key in
    [localStorage] and reads it back; the multi-store revision prefers an
    existing value from [localStorage], then [sessionStorage], then the
    cookie of its name in the jar, and writes the id it returns to all
    three.  Outside a browser both revisions return the empty string and
    leave the world as it is. *)
Theorem C9_getOrCreateUserId_idempotent
    (encodeURIComponent : string -> string)
    (decodeURIComponent : string -> option string)
    (uuid : nat -> string) (crypto_randomUUID : option (nat -> string))
    (fallbackSuffix : nat -> string) (w : User.World) :
  (forall n, uuid n <> EmptyString) ->
  (forall f n, crypto_randomUUID = Some f -> f n <> EmptyString) ->
  let simple := User.getOrCreateUserId_simple uuid in
  let multi :=
    User.getOrCreateUserId encodeURIComponent decodeURIComponent
      crypto_randomUUID fallbackSuffix in
  match User.window w with
  | None => simple w = Some (EmptyString, w) /\ multi w = (EmptyString, w)
  | Some b =>
      forall ls, User.localStorage b = Some ls ->
      (exists i w1,
         simple w = Some (i, w1) /\ simple w1 = Some (i, w1)
         /\ exists b1 ls1,
              User.window w1 = Some b1 /\ User.localStorage b1 = Some ls1
              /\ ls1 !! User.key = Some i)
      /\ fst (multi (snd (multi w))) = fst (multi w)
      /\ fst (multi w)
         = User.chosen decodeURIComponent crypto_randomUUID fallbackSuffix b
             (User.draws w)
      /\ (forall x, User.safeGetLocalStorage b = Some x -> truthy x = true ->
            fst (multi w) = x)
      /\ (User.falsy (User.safeGetLocalStorage b) ->
          forall x, User.safeGetSessionStorage b = Some x ->
            truthy x = true -> fst (multi w) = x)
      /\ (User.falsy (User.safeGetLocalStorage b) ->
          User.falsy (User.safeGetSessionStorage b) ->
          forall x,
            User.getCookie decodeURIComponent User.COOKIE_NAME b = Some x ->
            truthy x = true -> fst (multi w) = x)
      /\ (User.falsy (User.safeGetLocalStorage b) ->
          User.falsy (User.safeGetSessionStorage b) ->
          forall jar v x,
            User.cookieJar b = Some jar -> UserExtra.jarOk jar ->
            ProductsPage.Map_get User.COOKIE_NAME jar = Some v ->
            decodeURIComponent (UserExtra.upToEquals v) = Some x ->
            truthy x = true -> fst (multi w) = x)
      /\ (User.falsy (User.safeGetLocalStorage b) ->
          User.falsy (User.safeGetSessionStorage b) ->
          forall jar,
            User.cookieJar b = Some jar -> UserExtra.jarOk jar ->
            ProductsPage.Map_get User.COOKIE_NAME jar = None ->
            fst (multi w)
            = User.generateId crypto_randomUUID fallbackSuffix (User.draws w))
      /\ (exists b1,
            User.window (snd (multi w)) = Some b1
            /\ User.safeGetLocalStorage b1 = Some (fst (multi w))
            /\ (forall ss, User.sessionStorage b = Some ss ->
                  User.safeGetSessionStorage b1 = Some (fst (multi w)))
            /\ (forall jar, User.cookieJar b = Some jar ->
                  exists jar',
                    User.cookieJar b1 = Some jar'
                    /\ ProductsPage.Map_get User.COOKIE_NAME jar'
                       = Some (encodeURIComponent (fst (multi w)))))
  end.
Proof.
  intros Huuid Hcrypto simple multi. subst simple multi.
  destruct (User.window w) as [b|] eqn:Hw.
  2:{ unfold User.getOrCreateUserId_simple, User.getOrCreateUserId.
      rewrite Hw. split; reflexivity. }
  intros ls Hls.
  split; [exact (UserFacts.simple_twice uuid Huuid w b ls Hw Hls)|].
  split; [exact (UserFacts.multi_twice encodeURIComponent decodeURIComponent
                   crypto_randomUUID fallbackSuffix Hcrypto w b ls Hw Hls)|].
  destruct (UserFacts.multi_returns encodeURIComponent decodeURIComponent
              crypto_randomUUID fallbackSuffix w b Hw) as (d & ->).
  cbn [fst snd User.window].
  destruct (UserFacts.existingId_priority decodeURIComponent b)
    as (H1 & H2 & H3 & H4).
  split; [reflexivity|]. unfold User.chosen at 1 2 3 4 5.
  split; [intros x Hx Ht; rewrite (H1 x Hx Ht); reflexivity|].
  split; [intros Hf x Hx Ht; rewrite (H2 Hf x Hx Ht); reflexivity|].
  split; [intros Hf Hg x Hx Ht; rewrite (H3 Hf Hg x Hx Ht); reflexivity|].
  split.
  { intros Hf Hg jar v x Hjar Hok Hv Hdec Ht.
    rewrite (H3 Hf Hg x); [reflexivity| |exact Ht].
    rewrite (CookieFacts.getCookie_jar decodeURIComponent User.COOKIE_NAME
               b jar Hjar Hok eq_refl), Hv.
    exact Hdec. }
  split.
  { intros Hf Hg jar Hjar Hok Hv.
    rewrite H4; [reflexivity|exact Hf|exact Hg|].
    rewrite (CookieFacts.getCookie_jar decodeURIComponent User.COOKIE_NAME
               b jar Hjar Hok eq_refl), Hv.
    exact I. }
  eexists. split; [reflexivity|].
  split; [exact (UserFacts.synced_local encodeURIComponent _ b ls Hls)|].
  split.
  - intros ss Hss. exact (UserFacts.synced_session encodeURIComponent _ b ss Hss).
  - intros jar Hjar.
    exact (UserFacts.synced_cookie encodeURIComponent _ b jar Hjar).
Qed.

Lemma C9_getOrCreateUserId_witness :
  fst (User.getOrCreateUserId id Some (Some Samples.sampleUuid) Samples.sampleUuid
         (snd (User.getOrCreateUserId id Some (Some Samples.sampleUuid)
                 Samples.sampleUuid Samples.firstVisit)))
  = fst (User.getOrCreateUserId id Some (Some Samples.sampleUuid)
           Samples.sampleUuid Samples.firstVisit).
Proof.
  refine (proj1 (proj2
    (C9_getOrCreateUserId_idempotent id Some Samples.sampleUuid
       (Some Samples.sampleUuid) Samples.sampleUuid Samples.firstVisit
       _ _ ∅ eq_refl))).
  - intros n. discriminate.
  - intros f n [= <-]. discriminate.
Defined.

(** C9 as stated fails in a browser whose stores all throw (storage and
    cookies blocked): the multi-store revision catches every failure, keeps
    nothing and generates a new id on each call, and the simple revision
    throws on its first access to [localStorage]. *)
Lemma C9_counterexample_no_usable_store :
  fst (User.getOrCreateUserId id Some (Some Samples.countingId)
         Samples.countingId Samples.noStorage) = "id-0"
  /\ fst (User.getOrCreateUserId id Some (Some Samples.countingId)
            Samples.countingId
            (snd (User.getOrCreateUserId id Some (Some Samples.countingId)
                    Samples.countingId Samples.noStorage))) = "id-1"
  /\ User.getOrCreateUserId_simple Samples.countingId Samples.noStorage
     = None.
Proof. repeat split; vm_compute; reflexivity. Qed.

(** X21.  What the comment above getOrCreateUserId promises: after one
    call in a browser, a later call returns the same id although
    localStorage was cleared in between, when sessionStorage is usable;
    and although localStorage and sessionStorage were both cleared, when
    the cookies are usable and well formed and the encoded id is free of
    semicolons, equals signs and white space and decodes back to the id.
    A cleared store is one that throws, lacks the key or holds the empty
    string under it. *)
Theorem X21_id_restored_after_storage_is_cleared
    (encodeURIComponent : string -> string)
    (decodeURIComponent : string -> option string)
    (crypto_randomUUID : option (nat -> string))
    (fallbackSuffix : nat -> string) (w : User.World) (b : User.Browser) :
  (forall f n, crypto_randomUUID = Some f -> f n <> EmptyString) ->
  User.window w = Some b ->
  let multi := User.getOrCreateUserId encodeURIComponent decodeURIComponent
                 crypto_randomUUID fallbackSuffix in
  let i := fst (multi w) in
  exists b1,
    User.window (snd (multi w)) = Some b1
    /\ (forall l' d,
          User.sessionStorage b <> None ->
          User.falsy (UserExtra.readKey l') ->
          fst (multi {| User.window := Some (User.withLocalStorage l' b1);
                        User.draws := d |}) = i)
    /\ (forall l' s' d jar,
          User.cookieJar b = Some jar -> UserExtra.jarOk jar ->
          UserExtra.cookieName (encodeURIComponent i) = true ->
          decodeURIComponent (encodeURIComponent i) = Some i ->
          User.falsy (UserExtra.readKey l') ->
          User.falsy (UserExtra.readKey s') ->
          fst (multi {| User.window :=
                          Some (User.withSessionStorage s'
                                  (User.withLocalStorage l' b1));
                        User.draws := d |}) = i).
Proof.
  intros Hgen Hw. cbn zeta.
  destruct (UserFacts.multi_returns encodeURIComponent decodeURIComponent
              crypto_randomUUID fallbackSuffix w b Hw) as (d0 & ->).
  cbn [fst snd User.window].
  set (i := User.chosen decodeURIComponent crypto_randomUUID fallbackSuffix
              b (User.draws w)).
  pose proof (UserFacts.chosen_truthy decodeURIComponent crypto_randomUUID
                fallbackSuffix Hgen b (User.draws w)) as Hi. fold i in Hi.
  eexists. split; [reflexivity|]. split.
  - intros l' d Hs Hl.
    apply RestoreFacts.multi_existing.
    destruct (User.sessionStorage b) as [ss|] eqn:Hss; [|contradiction].
    pose proof (UserFacts.synced_session encodeURIComponent i b ss Hss)
      as Hsess.
    apply (proj1 (proj2 (UserFacts.existingId_priority decodeURIComponent _)));
      [exact Hl| |exact Hi].
    exact Hsess.
  - intros l' s' d jar Hb Hjar Henc Hdec Hl Hs.
    apply RestoreFacts.multi_existing.
    apply (proj1 (proj2 (proj2
             (UserFacts.existingId_priority decodeURIComponent _))));
      [exact Hl|exact Hs| |exact Hi].
    apply (RestoreFacts.getCookie_synced encodeURIComponent
             decodeURIComponent i b jar _ Hb Hjar Henc Hdec).
    reflexivity.
Qed.

Lemma X21_id_restored_witness :
  exists b1,
    User.window
      (snd (User.getOrCreateUserId id Some (Some Samples.sampleUuid)
              Samples.sampleUuid Samples.firstVisit)) = Some b1
    /\ fst (User.getOrCreateUserId id Some (Some Samples.sampleUuid)
              Samples.sampleUuid
              {| User.window := Some (User.withLocalStorage (Some ∅) b1);
                 User.draws := 1 |})
       = fst (User.getOrCreateUserId id Some (Some Samples.sampleUuid)
                Samples.sampleUuid Samples.firstVisit).
Proof.
  destruct (X21_id_restored_after_storage_is_cleared id Some
              (Some Samples.sampleUuid) Samples.sampleUuid Samples.firstVisit
              {| User.localStorage := Some ∅; User.sessionStorage := Some ∅;
                 User.cookieJar := Some [] |})
    as (b1 & Hb1 & Hlocal & _).
  - intros f n [= <-]. discriminate.
  - reflexivity.
  - exists b1. split; [exact Hb1|].
    apply Hlocal; [discriminate|exact I].
Defined.

(** X22.  After clearUserIdEverywhere none of the three stores yields an
    id (the key is gone from both storages, the cookie from the jar, where
    they are accessible), every other key and every other cookie reads as
    before, and the next getOrCreateUserId generates a fresh id instead of
    returning the old one.  The cookies of the browser are well formed. *)
Theorem X22_after_clearing_a_new_id_is_generated
    (encodeURIComponent : string -> string)
    (decodeURIComponent : string -> option string)
    (crypto_randomUUID : option (nat -> string))
    (fallbackSuffix : nat -> string) (w : User.World) (b : User.Browser) :
  User.window w = Some b ->
  (forall jar, User.cookieJar b = Some jar -> UserExtra.jarOk jar) ->
  let multi := User.getOrCreateUserId encodeURIComponent decodeURIComponent
                 crypto_randomUUID fallbackSuffix in
  let w' := UserExtra.clearUserIdEverywhere w in
  (exists b',
     w' = {| User.window := Some b'; User.draws := User.draws w |}
     /\ User.safeGetLocalStorage b' = None
     /\ User.safeGetSessionStorage b' = None
     /\ User.getCookie decodeURIComponent User.COOKIE_NAME b' = None
     /\ (forall k, k <> User.STORAGE_KEY ->
           (forall ls, User.localStorage b = Some ls ->
              exists ls', User.localStorage b' = Some ls'
                          /\ ls' !! k = ls !! k)
           /\ (forall ss, User.sessionStorage b = Some ss ->
                 exists ss', User.sessionStorage b' = Some ss'
                             /\ ss' !! k = ss !! k))
     /\ (forall other, other <> User.COOKIE_NAME ->
           UserExtra.cookieName other = true ->
           User.getCookie decodeURIComponent other b'
           = User.getCookie decodeURIComponent other b))
  /\ fst (multi w')
     = User.generateId crypto_randomUUID fallbackSuffix (User.draws w)
  /\ User.draws (snd (multi w')) = S (User.draws w).
Proof.
  intros Hw Hjar. cbn zeta.
  destruct w as [win d]. cbn in Hw. subst win. cbn [User.draws].
  destruct (RestoreFacts.cleared_reads decodeURIComponent b d Hjar)
    as (b' & Hclear & Hl & Hs & Hc & Hkeys & Hcookies).
  rewrite Hclear.
  split; [exists b'; repeat split; try assumption; apply Hkeys; assumption|].
  apply RestoreFacts.multi_fresh.
  apply (proj2 (proj2 (proj2
           (UserFacts.existingId_priority decodeURIComponent b'))));
    [rewrite Hl|rewrite Hs|rewrite Hc]; exact I.
Qed.

Lemma X22_after_clearing_witness :
  fst (User.getOrCreateUserId id Some (Some Samples.sampleUuid)
         Samples.sampleUuid
         (UserExtra.clearUserIdEverywhere
            (snd (User.getOrCreateUserId id Some (Some Samples.sampleUuid)
                    Samples.sampleUuid Samples.firstVisit))))
  = Samples.sampleUuid 1.
Proof.
  refine (proj1 (proj2
    (X22_after_clearing_a_new_id_is_generated id Some
       (Some Samples.sampleUuid) Samples.sampleUuid
       (snd (User.getOrCreateUserId id Some (Some Samples.sampleUuid)
               Samples.sampleUuid Samples.firstVisit))
       _ eq_refl _))).
  intros jar [= <-]. repeat constructor; discriminate.
Defined.

(** X23.  In a browser the multi-store revision always returns a
    non-empty id, for generators that never yield the empty string; but
    when none of the three stores can be accessed nothing is kept: every
    call generates a new id and leaves the browser as it was.  The simple
    revision throws in a browser whose localStorage throws. *)
Theorem X23_id_without_any_usable_store
    (encodeURIComponent : string -> string)
    (decodeURIComponent : string -> option string)
    (uuid : nat -> string)
    (crypto_randomUUID : option (nat -> string))
    (fallbackSuffix : nat -> string) (w : User.World) (b : User.Browser) :
  (forall f n, crypto_randomUUID = Some f -> f n <> EmptyString) ->
  User.window w = Some b ->
  let multi := User.getOrCreateUserId encodeURIComponent decodeURIComponent
                 crypto_randomUUID fallbackSuffix in
  fst (multi w) <> EmptyString
  /\ (User.localStorage b = None ->
      User.getOrCreateUserId_simple uuid w = None)
  /\ (User.localStorage b = None -> User.sessionStorage b = None ->
      User.cookieJar b = None ->
      multi w
      = (User.generateId crypto_randomUUID fallbackSuffix (User.draws w),
         {| User.window := Some b; User.draws := S (User.draws w) |})).
Proof.
  intros Hgen Hw. cbn zeta. split; [|split].
  - destruct (UserFacts.multi_returns encodeURIComponent decodeURIComponent
                crypto_randomUUID fallbackSuffix w b Hw) as (d & ->).
    cbn [fst]. apply UserFacts.truthy_true_nonempty.
    apply (UserFacts.chosen_truthy decodeURIComponent crypto_randomUUID
             fallbackSuffix Hgen).
  - intros Hl. unfold User.getOrCreateUserId_simple. rewrite Hw, Hl.
    reflexivity.
  - intros Hl Hs Hc. unfold User.getOrCreateUserId. rewrite Hw.
    destruct b as [l s c]. cbn in Hl, Hs, Hc. subst l s c. reflexivity.
Qed.

Lemma X23_id_without_store_witness :
  fst (User.getOrCreateUserId id Some (Some Samples.sampleUuid)
         Samples.sampleUuid
         {| User.window :=
              Some {| User.localStorage := None;
                      User.sessionStorage := None;
                      User.cookieJar := None |};
            User.draws := 0 |})
  <> EmptyString.
Proof.
  refine (proj1
    (X23_id_without_any_usable_store id Some Samples.sampleUuid
       (Some Samples.sampleUuid) Samples.sampleUuid
       {| User.window :=
            Some {| User.localStorage := None;
                    User.sessionStorage := None;
                    User.cookieJar := None |};
          User.draws := 0 |}
       _ _ eq_refl)).
  intros f n [= <-]. discriminate.
Defined.

Module ToastMore.
Import ProductsPage.

(** The number of toasts shown never grows faster than the counter. *)
Lemma step_toasts ev s :
  toastCounter s <= toastCounter (fst (step ev s))
  /\ Z.of_nat (length (toasts (fst (step ev s))))
     - toastCounter (fst (step ev s))
     <= Z.of_nat (length (toasts s)) - toastCounter s.
Proof.
  destruct ev;
    try (MachineFacts.open_handlers; repeat case_match; cbn;
         rewrite ?length_app; cbn; lia).
  cbn [step fst]. unfold expireToast, setToasts. cbn [toasts toastCounter].
  pose proof (length_filter (fun t => t_id t <> newId) (toasts s)). lia.
Qed.
End ToastMore.

(** X24.  However the page is driven, the toast counter never goes down,
    and the list of toasts grows by at most as many entries as the counter
    has advanced: every toast on the screen has been counted. *)
Theorem X24_every_toast_is_counted
    (evs : list ProductsPage.Event) (s : ProductsPage.PageState) :
  let s' := fst (ProductsPage.run evs s) in
  ProductsPage.toastCounter s <= ProductsPage.toastCounter s'
  /\ Z.of_nat (length (ProductsPage.toasts s'))
     <= Z.of_nat (length (ProductsPage.toasts s))
        + (ProductsPage.toastCounter s' - ProductsPage.toastCounter s).
Proof.
  cbn zeta. revert s. induction evs as [|ev evs IH]; intros s.
  - cbn. lia.
  - rewrite ReloadMore.run_cons. cbn [fst].
    destruct (IH (fst (ProductsPage.step ev s))) as [H1 H2].
    destruct (ToastMore.step_toasts ev s) as [H3 H4].
    clear IH. lia.
Qed.
